(** * hymm_sp/sample_batch.py: the batch sampling driver of HunyuanCustom

    A shallow embedding of [main] of [hymm_sp/sample_batch.py].  The driver
    is one sequential Python function that threads a mutable [args]
    namespace, the tiling flag of the VAE, the file system and its opaque
    collaborators (the VAE encoder, the diffusion sampler, the video
    writer, the external mux tool and the operating system) through a loop
    over the data loader.  It is embedded as a state-and-exception monad
    over an explicit [State]; tensors are represented by their shapes,
    which is all the driver inspects.  The rescale of line 63 is embedded
    apart, on IEEE 754 binary floating-point numbers. *)

From Stdlib Require Import ZArith List String Ascii Lia Bool.
From Stdlib Require Import Floats.SpecFloat.
From stdpp Require Import gmap strings list.

Local Open Scope string_scope.
Local Open Scope list_scope.

(** ** Tensors, as far as the driver looks at them *)

(** A tensor is represented by its shape ([tensor.shape]); element values
    never influence the control flow of [main].  Element-wise arithmetic
    ([* 2 - 1.], [mul_]) keeps the shape, [.to(device)] and [.clone()] too. *)
Definition Shape := list Z.

(** [rearrange(x, "b c h w -> b c 1 h w")] (line 64): einops rejects an
    input that is not 4-dimensional. *)
Definition rearrange_bchw_bc1hw (x : Shape) : option Shape :=
  match x with
  | [b; c; h; w] => Some [b; c; 1%Z; h; w]
  | _ => None
  end.

Module Torch.

(** [torch.cat] skips "legacy" empty tensors, those of shape [(0,)]. *)
Definition cat_should_skip (s : Shape) : bool :=
  match s with
  | [z] => Z.eqb z 0
  | _ => false
  end.

(** Two tensors that are both kept: same number of dimensions, at least
    two of them (the axis 1 must exist), and equal sizes everywhere except
    on axis 1, whose sizes add up. *)
Definition cat_dim1_checked (a b : Shape) : option Shape :=
  match a, b with
  | n :: ca :: ra, m :: cb :: rb =>
      if Z.eqb n m && bool_decide (ra = rb)
      then Some (n :: (ca + cb)%Z :: ra)
      else None
  | _, _ => None
  end.

(** [torch.cat([a, b], dim=1)] on shapes; [None] is the [RuntimeError]
    (or [IndexError]) torch raises. *)
Definition cat_dim1 (a b : Shape) : option Shape :=
  if cat_should_skip a then
    if cat_should_skip b then Some [0%Z]
    else if Nat.leb 2 (length b) then Some b else None
  else if cat_should_skip b then
    if Nat.leb 2 (length a) then Some a else None
  else cat_dim1_checked a b.

(** [math.ceil(a / b)] on naturals, for [b > 0]. *)
Definition ceil_div (a b : nat) : nat := (a + b - 1) / b.

(** The Python slice [l[start::step]] for [step >= 1]: [skip] elements are
    dropped before the next one is kept. *)
Fixpoint slice_from_step {A} (l : list A) (skip step : nat) : list A :=
  match l with
  | [] => []
  | x :: l' =>
      match skip with
      | O => x :: slice_from_step l' (step - 1) step
      | S k => slice_from_step l' k step
      end
  end.

(** [indices * k] on Python lists. *)
Fixpoint list_times {A} (l : list A) (k : nat) : list A :=
  match k with
  | O => []
  | S k' => l ++ list_times l k'
  end.

(** [DistributedSampler(dataset, num_replicas, rank, shuffle=False,
    drop_last=False).__iter__()] for a dataset of [len] items.  [None]
    stands for the [ValueError] of an invalid rank (and the division by
    zero of [num_replicas = 0]). *)
Definition DistributedSampler (len num_replicas rank : nat) : option (list nat) :=
  if Nat.eqb num_replicas 0 || negb (Nat.ltb rank num_replicas) then None
  else
    let num_samples := ceil_div len num_replicas in
    let total_size := num_samples * num_replicas in
    let indices := seq 0 len in
    let padding_size := total_size - length indices in
    let padded :=
      if Nat.leb padding_size (length indices)
      then indices ++ firstn padding_size indices
      else indices ++
           firstn padding_size
             (list_times indices (ceil_div padding_size (length indices))) in
    Some (slice_from_step (firstn total_size padded) rank num_replicas).

End Torch.

(** ** The reference-tensor rescale (lines 63, 70, 72) *)

Module Rescale.

(** The driver computes [x * 2 - 1.] element-wise on floating-point
    tensors.  [fmt] is the IEEE 754 binary format of the tensor's dtype:
    precision and exponent bound, in the convention of [SpecFloat]. *)
Record Format := { prec : Z; emax : Z }.

Definition binary16 : Format := {| prec := 11; emax := 16 |}.
Definition binary32 : Format := {| prec := 24; emax := 128 |}.
Definition binary64 : Format := {| prec := 53; emax := 1024 |}.

(** The formats considered: at least two bits of precision and some room
    under the exponent bound, as in every IEEE 754 binary format. *)
Definition format_ok (fmt : Format) : Prop :=
  (2 <= prec fmt)%Z /\ (prec fmt + 4 <= emax fmt)%Z.

Section Float.
Variable fmt : Format.

(** The float nearest to [m * 2^e]. *)
Definition of_scaled (m e : Z) : spec_float :=
  binary_normalize (prec fmt) (emax fmt) m e false.

Definition one : spec_float := of_scaled 1 0.
Definition two : spec_float := of_scaled 2 0.
Definition half : spec_float := of_scaled 1 (-1).
Definition quarter : spec_float := of_scaled 1 (-2).

(** [x * 2 - 1.], as on line 63. *)
Definition rescale (x : spec_float) : spec_float :=
  SFsub (prec fmt) (emax fmt) (SFmul (prec fmt) (emax fmt) x two) one.

(** The inverse map as the specification writes it, [(x + 1) / 2]; the
    driver itself never applies it. *)
Definition rescale_inverse (x : spec_float) : spec_float :=
  SFdiv (prec fmt) (emax fmt) (SFadd (prec fmt) (emax fmt) x one) two.

(** [-1 <= x <= 1] on floats. *)
Definition in_unit_range (x : spec_float) : bool :=
  match SFcompare (SFopp one) x, SFcompare x one with
  | Some (Lt | Eq), Some (Lt | Eq) => true
  | _, _ => false
  end.

(** A normal number of the format: a full mantissa and an exponent in
    range. *)
Definition normal (m : positive) (e : Z) : Prop :=
  Zpos (digits2_pos m) = prec fmt /\
  (emin (prec fmt) (emax fmt) <= e <= emax fmt - prec fmt)%Z.

(** The mantissa of the powers of two, [2^(prec-1)]. *)
Definition pow2_mantissa : positive := Z.to_pos (2 ^ (prec fmt - 1)).
End Float.

End Rescale.

(** ** The data the driver handles *)

(** The three dataset classes of [hymm_sp.data_kits.video_dataset]. *)
Inductive Modality := VideoDataset | AudioDataset | ImageDataset.

(** One item of the data loader ([batch_size=1]): the collated dictionary
    [batch].  The keys read unconditionally are fields; the keys that only
    some datasets provide are optional.  The loader collates one record
    into a batch of size 1, and the driver reads the values of [prompt],
    [negative_prompt], [videoid], [data_name], [audio_path] and
    [audio_prompts] through [[0]]: these fields hold that element 0 (for
    [audio_prompts], the shape of [batch['audio_prompts'][0]], the collated
    tensor without its leading batch axis).  The pixel tensors are passed
    on as collated and keep the batch axis. *)
Record Batch := {
  pixel_value_llava : Shape;
  pixel_value_ref : Shape;
  uncond_pixel_value_llava : Shape;
  prompt : string;
  negative_prompt : string;
  name : string;
  data_name : string;
  seed : Z;
  audio_prompts : option Shape;     (* of [batch['audio_prompts'][0]] *)
  audio_path : option string;       (* [batch['audio_path'][0]] *)
  pixel_value_bg : option Shape;
  pixel_value_mask : option Shape;
}.

(** The exceptions that can leave [main], named after the place that
    raises them. *)
Inductive Exn :=
| ValueError_models_root      (* line 24 *)
| EinopsError                 (* line 64, [rearrange] *)
| KeyError (key : string)     (* lines 70 and 72, [batch[...]] *)
| EncodeRaised                (* lines 67, 68, 71, 73, [vae.encode] *)
| CatRuntimeError             (* line 74, [torch.cat] *)
| UnpackValueError            (* line 76, the 5-way unpacking *)
| PredictRaised               (* line 86, [predict] *)
| SamplerValueError           (* line 49, [DistributedSampler] *)
| MakedirsRaised              (* line 29, [os.makedirs]: an [OSError] *)
| SaveRaised                  (* line 114, [save_videos_grid] *)
| OsSystemValueError.         (* line 117, [os.system]: embedded null byte *)

Inductive Outcome (A : Type) :=
| Ok (a : A)
| Raise (e : Exn).
Arguments Ok {A} a.
Arguments Raise {A} e.

(** The two exceptions of the emission (lines 109-120): the writer's and
    [os.system]'s. *)
Definition emission_error (r : Outcome unit) : Prop :=
  r = Raise SaveRaised \/ r = Raise OsSystemValueError.

(** The four [vae.encode] call sites of the loop body. *)
Inductive EncodeSite := EncRef | EncUncondRef | EncBg | EncMask.

(** Python floats; the driver only copies them. *)
Definition PyFloat := spec_float.

(** The [args] namespace, restricted to the attributes [main] touches. *)
Record Args := {
  save_path : string;
  save_path_suffix : string;
  video_condition : bool;
  audio_condition : bool;
  video_size : list Z;
  sample_n_frames : Z;
  add_pos_prompt : string;
  add_neg_prompt : string;
  audio_strength : PyFloat;
  cfg_scale : PyFloat;
  num_images : Z;
  infer_steps : Z;
  flow_shift_eval_video : PyFloat;
  use_linear_quadratic_schedule : bool;
  linear_schedule_end : Z;
  use_deepcache : Z;
  fps : Z;
}.

(** [args.video_size = ...; args.sample_n_frames = ...] (lines 77-78):
    attribute assignment on the namespace object. *)
Definition set_geometry (a : Args) (size : list Z) (frames : Z) : Args :=
  {| save_path := save_path a;
     save_path_suffix := save_path_suffix a;
     video_condition := video_condition a;
     audio_condition := audio_condition a;
     video_size := size;
     sample_n_frames := frames;
     add_pos_prompt := add_pos_prompt a;
     add_neg_prompt := add_neg_prompt a;
     audio_strength := audio_strength a;
     cfg_scale := cfg_scale a;
     num_images := num_images a;
     infer_steps := infer_steps a;
     flow_shift_eval_video := flow_shift_eval_video a;
     use_linear_quadratic_schedule := use_linear_quadratic_schedule a;
     linear_schedule_end := linear_schedule_end a;
     use_deepcache := use_deepcache a;
     fps := fps a |}.

(** The keyword arguments of [hunyuan_video_sampler.predict] (lines
    86-107). *)
Record Request := {
  req_prompt : string;
  req_name : string;
  req_size : list Z;
  req_seed : Z;
  req_pixel_value_llava : Shape;
  req_uncond_pixel_value_llava : Shape;
  req_ref_latents : Shape;
  req_uncond_ref_latents : Shape;
  req_bg_latents : option Shape;
  req_audio_prompts : option Shape;
  req_audio_strength : PyFloat;
  req_video_length : Z;
  req_guidance_scale : PyFloat;
  req_num_images_per_prompt : Z;
  req_negative_prompt : string;
  req_infer_steps : Z;
  req_flow_shift : PyFloat;
  req_use_linear_quadratic_schedule : bool;
  req_linear_schedule_end : Z;
  req_use_deepcache : Z;
}.

(** What the run does to the outside, in order. *)
Inductive Event :=
| EvMakedirs (path : string)
| EvEnableTiling
| EvDisableTiling
| EvEncode (site : EncodeSite) (tiling : bool) (input : Shape) (output : option Shape)
| EvPredict (req : Request)
| EvSaveVideo (path : string)
| EvOsSystem (cmd : string).

(** What a call of the video writer did: the file is written, or the write
    failed, leaving a partial file behind or not. *)
Inductive SaveResult := Saved | SaveFailed (partial : bool).

(** The collaborators of the driver.  [World] is whatever state they keep
    (weights, random generators, device memory, the operating system); each
    call may change it and may fail. *)
Class Collaborators := {
  World : Type;
  (** [vae.encode(x).latent_dist.sample()]: the latent's shape, or [None]
      when the call raises.  The codec sees its own tiling flag. *)
  vae_encode : World -> bool -> Shape -> World * option Shape;
  (** [hunyuan_video_sampler.predict(...)['samples']], or [None] when the
      call raises. *)
  sampler_predict : World -> Request -> World * option (list Shape);
  (** [ffmpeg -i out -i audio -shortest out_audio -y]: whether the mux
      succeeded. *)
  ffmpeg : World -> string -> string -> string -> World * bool;
  (** What the shell makes of a command line whose quoting a path broke. *)
  sh_misquoted : World -> string -> gset string -> World * gset string;
  (** [os.makedirs(path, exist_ok=True)] on a non-empty [path], given the
      paths that exist: the intermediate directories it created, and
      whether it went through ([false] is an [OSError]: a file in the way,
      no permission). *)
  os_makedirs : World -> string -> gset string -> World * (gset string * bool);
  (** The writer behind [save_videos_grid], given the path and the paths
      that exist. *)
  video_writer : World -> string -> gset string -> World * SaveResult;
  (** [HunyuanVideoSampler.from_pretrained(...).args], "the updated args"
      of line 41. *)
  sampler_args : Args -> Args;
  (** The items of [VideoDataset(args)], [AudioDataset(args)] and
      [ImageDataset(args)], in index order. *)
  dataset_items : Modality -> Args -> list Batch;
}.

Section Driver.

Context `{Collaborators}.

(** The mutable state of a run. *)
Record State := {
  st_args : Args;            (* the namespace bound to [args] *)
  vae_tiling : bool;         (* the codec's tiling flag *)
  fs : gset string;          (* the paths that exist *)
  world : World;
  events : list Event;
}.

Definition M (A : Type) : Type := State -> Outcome A * State.

Definition ret {A} (a : A) : M A := fun s => (Ok a, s).
Definition raise {A} (e : Exn) : M A := fun s => (Raise e, s).
Definition bind {A B} (m : M A) (k : A -> M B) : M B :=
  fun s =>
    match m s with
    | (Ok a, s') => k a s'
    | (Raise e, s') => (Raise e, s')
    end.

Notation "'let*' x := m 'in' k" := (bind m (fun x => k))
  (at level 10, x name, m at level 100, k at level 200).
Notation "m ;;; k" := (bind m (fun _ => k))
  (at level 100, k at level 200, right associativity).

Definition get_args : M Args := fun s => (Ok (st_args s), s).

Definition put_args (a : Args) : M unit := fun s =>
  (Ok tt, {| st_args := a; vae_tiling := vae_tiling s; fs := fs s;
             world := world s; events := events s |}).

Definition set_tiling (b : bool) : M unit := fun s =>
  (Ok tt, {| st_args := st_args s; vae_tiling := b; fs := fs s;
             world := world s; events := events s |}).

Definition get_fs : M (gset string) := fun s => (Ok (fs s), s).

Definition put_fs (f : gset string) : M unit := fun s =>
  (Ok tt, {| st_args := st_args s; vae_tiling := vae_tiling s; fs := f;
             world := world s; events := events s |}).

Definition log (e : Event) : M unit := fun s =>
  (Ok tt, {| st_args := st_args s; vae_tiling := vae_tiling s; fs := fs s;
             world := world s; events := events s ++ [e] |}).

(** [for x in l: body(x)]; an exception ends the loop. *)
Fixpoint for_each {A} (l : list A) (body : A -> M unit) : M unit :=
  match l with
  | [] => ret tt
  | x :: l' => body x ;;; for_each l' body
  end.

(** [d[key]] on a key that may be missing. *)
Definition subscript {A} (key : string) (v : option A) : M A :=
  match v with
  | Some x => ret x
  | None => raise (KeyError key)
  end.

(** *** The codec *)

Definition enable_tiling : M unit := log EvEnableTiling ;;; set_tiling true.
Definition disable_tiling : M unit := log EvDisableTiling ;;; set_tiling false.

Definition encode (site : EncodeSite) (x : Shape) : M Shape := fun s =>
  let (w, r) := vae_encode (world s) (vae_tiling s) x in
  let s' := {| st_args := st_args s; vae_tiling := vae_tiling s; fs := fs s;
               world := w;
               events := events s ++ [EvEncode site (vae_tiling s) x r] |} in
  match r with
  | Some latent => (Ok latent, s')
  | None => (Raise EncodeRaised, s')
  end.

(** *** Lines 63-83: latent preparation *)

(** [_, _, t, h, w = bg_latents.shape] and the two assignments of lines
    77-78. *)
Definition derive_geometry (bg_latents : Shape) : M unit :=
  match bg_latents with
  | [_; _; t; h; w] =>
      let* a := get_args in
      put_args (set_geometry a [(h * 8)%Z; (w * 8)%Z] ((t - 1) * 4 + 1)%Z)
  | _ => raise UnpackValueError
  end.

(** Lines 70-78, the branch taken under [args.video_condition]. *)
Definition encode_background (batch : Batch) : M Shape :=
  (* 70-71 *)
  let* pixel_value_bg := subscript "pixel_value_bg" (pixel_value_bg batch) in
  let* bg_latents := encode EncBg pixel_value_bg in
  (* 72-73 *)
  let* pixel_value_mask := subscript "pixel_value_mask" (pixel_value_mask batch) in
  let* mask_latents := encode EncMask pixel_value_mask in
  (* 74 *)
  let* bg_latents :=
    match Torch.cat_dim1 bg_latents mask_latents with
    | Some x => ret x
    | None => raise CatRuntimeError
    end in
  (* 76-78 *)
  derive_geometry bg_latents ;;;
  ret bg_latents.

Definition prepare_latents (batch : Batch)
  : M (Shape * Shape * option Shape) :=
  (* 63-64 *)
  let* pixel_value_ref_for_vae :=
    match rearrange_bchw_bc1hw (pixel_value_ref batch) with
    | Some x => ret x
    | None => raise EinopsError
    end in
  (* 66 *)
  enable_tiling ;;;
  (* 67 *)
  let* ref_latents := encode EncRef pixel_value_ref_for_vae in
  (* 68: [torch.ones_like] has the shape of its argument *)
  let* uncond_ref_latents := encode EncUncondRef pixel_value_ref_for_vae in
  (* 69-80 *)
  let* args := get_args in
  let* bg_latents :=
    if video_condition args
    then (let* bg_latents := encode_background batch in ret (Some bg_latents))
    else ret None in
  (* 83 *)
  disable_tiling ;;;
  ret (ref_latents, uncond_ref_latents, bg_latents).

(** *** Lines 84-107: the request and the sampler call *)

(** The keyword arguments of lines 86-107.  [audio_prompts] is the local of
    line 60, [batch['audio_prompts'][0]] or [None]; [name] is
    [batch['videoid'][0]]. *)
Definition build_request (args : Args) (batch : Batch)
    (latents : Shape * Shape * option Shape) : Request :=
  let '(ref_latents, uncond_ref_latents, bg_latents) := latents in
  {| req_prompt := add_pos_prompt args +:+ prompt batch;
     req_name := name batch;
     req_size := video_size args;
     req_seed := seed batch;
     req_pixel_value_llava := pixel_value_llava batch;
     req_uncond_pixel_value_llava := uncond_pixel_value_llava batch;
     req_ref_latents := ref_latents;
     req_uncond_ref_latents := uncond_ref_latents;
     req_bg_latents := bg_latents;
     req_audio_prompts := audio_prompts batch;
     req_audio_strength := audio_strength args;
     req_video_length := sample_n_frames args;
     req_guidance_scale := cfg_scale args;
     req_num_images_per_prompt := num_images args;
     req_negative_prompt := add_neg_prompt args +:+ negative_prompt batch;
     req_infer_steps := infer_steps args;
     req_flow_shift := flow_shift_eval_video args;
     req_use_linear_quadratic_schedule := use_linear_quadratic_schedule args;
     req_linear_schedule_end := linear_schedule_end args;
     req_use_deepcache := use_deepcache args |}.

Definition predict (req : Request) : M (list Shape) := fun s =>
  let (w, r) := sampler_predict (world s) req in
  let s' := {| st_args := st_args s; vae_tiling := vae_tiling s; fs := fs s;
               world := w; events := events s ++ [EvPredict req] |} in
  match r with
  | Some samples => (Ok samples, s')
  | None => (Raise PredictRaised, s')
  end.

(** *** Lines 109-120: emission *)

(** Modelled from the spec: [save_videos_grid] is imported from
    [hymm_sp/data_kits/data_tools.py], which is not among the sources.  The
    specification (section 4.6) has it write the sample as a video file at
    [out_path], and counts a failed write among the errors of the emission
    (section 7, [EmitError]).  Here a write that goes through leaves the
    file at [out_path]; one that fails raises, and may leave a partial file
    at [out_path]; no other path is touched. *)
Definition save_videos_grid (out_path : string) : M unit :=
  log (EvSaveVideo out_path) ;;;
  fun s =>
    let (w, res) := video_writer (world s) out_path (fs s) in
    match res with
    | Saved =>
        (Ok tt, {| st_args := st_args s; vae_tiling := vae_tiling s;
                   fs := {[ out_path ]} ∪ fs s;
                   world := w; events := events s |})
    | SaveFailed partial =>
        (Raise SaveRaised,
         {| st_args := st_args s; vae_tiling := vae_tiling s;
            fs := if partial then {[ out_path ]} ∪ fs s else fs s;
            world := w; events := events s |})
    end.

(** The shell keeps a single-quoted word as it is unless the word itself
    holds a single quote. *)
Definition shell_literal (p : string) : bool :=
  negb (existsb (Ascii.eqb "'"%char) (list_ascii_of_string p)).

(** The command line of line 117. *)
Definition mux_command (out_path audio_path out_audio_path : string) : string :=
  "ffmpeg -i '" +:+ out_path +:+ "' -i '" +:+ audio_path +:+
  "' -shortest '" +:+ out_audio_path +:+
  "' -y -loglevel quiet; rm '" +:+ out_path +:+ "'".

(** [os.system] refuses a command line that holds a null character. *)
Definition has_nul (cmd : string) : bool :=
  existsb (Ascii.eqb Ascii.zero) (list_ascii_of_string cmd).

(** [rm] takes an operand that begins with a dash for an option, and then
    removes nothing. *)
Definition starts_with_dash (p : string) : bool :=
  match p with
  | String c _ => Ascii.eqb c "-"%char
  | EmptyString => false
  end.

(** [os.system(f"ffmpeg ... ; rm '{out_path}'")].  A command line with a
    null character makes [os.system] raise [ValueError] before any shell
    runs; otherwise [os.system] returns the exit status, which the driver
    drops.  The shell runs [ffmpeg], then, whatever [ffmpeg] returned, [rm].
    A successful [ffmpeg] leaves the muxed file; a failed one is taken to
    leave the file system as it was.  [rm] removes the file at [out_path]
    unless it reads the path as an option. *)
Definition os_system_mux (out_path audio_path out_audio_path : string) : M unit :=
  let cmd := mux_command out_path audio_path out_audio_path in
  log (EvOsSystem cmd) ;;;
  fun s =>
    if has_nul cmd then (Raise OsSystemValueError, s)
    else if shell_literal out_path && shell_literal audio_path
            && shell_literal out_audio_path
    then
      let (w, muxed) := ffmpeg (world s) out_path audio_path out_audio_path in
      let after_ffmpeg := if muxed then {[ out_audio_path ]} ∪ fs s else fs s in
      let after_rm :=
        if starts_with_dash out_path then after_ffmpeg
        else after_ffmpeg ∖ {[ out_path ]} in
      (Ok tt, {| st_args := st_args s; vae_tiling := vae_tiling s;
                 fs := after_rm;
                 world := w; events := events s |})
    else
      let (w, f) := sh_misquoted (world s) cmd (fs s) in
      (Ok tt, {| st_args := st_args s; vae_tiling := vae_tiling s;
                 fs := f; world := w; events := events s |}).

Definition silent_path (save_dir : string) (batch : Batch) : string :=
  save_dir +:+ "/" +:+ data_name batch +:+ ".mp4".

Definition muxed_path (save_dir : string) (batch : Batch) : string :=
  save_dir +:+ "/" +:+ data_name batch +:+ "_audio.mp4".

(** The body of [for i, sample in enumerate(samples)]. *)
Definition emit_sample (save_dir : string) (batch : Batch) (sample : Shape)
  : M unit :=
  (* 113-114 *)
  let out_path := silent_path save_dir batch in
  save_videos_grid out_path ;;;
  (* 115-117 *)
  let* args := get_args in
  match audio_condition args, audio_path batch with
  | true, Some audio =>
      os_system_mux out_path audio (muxed_path save_dir batch)
  | _, _ => ret tt
  end.

(** *** Lines 51-120: one iteration of the loop *)

Definition loop_body (save_dir : string) (rank : Z) (batch : Batch) : M unit :=
  (* 63-83 *)
  let* latents := prepare_latents batch in
  (* 84-107 *)
  let* args := get_args in
  let* samples := predict (build_request args batch latents) in
  (* 109-120 *)
  if Z.eqb rank 0
  then for_each samples (emit_sample save_dir batch)
  else ret tt.

(** *** Lines 19-50: set-up *)

(** [os.makedirs(path, exist_ok=True)]: the empty path is refused
    ([FileNotFoundError]); on another path the call creates the missing
    directories down to [path], or raises, possibly after it has created
    some of them. *)
Definition makedirs (path : string) : M unit :=
  log (EvMakedirs path) ;;;
  fun s =>
    if String.eqb path "" then (Raise MakedirsRaised, s)
    else
      let '(w, (created, done)) := os_makedirs (world s) path (fs s) in
      if done
      then (Ok tt, {| st_args := st_args s; vae_tiling := vae_tiling s;
                      fs := {[ path ]} ∪ created ∪ fs s;
                      world := w; events := events s |})
      else (Raise MakedirsRaised,
            {| st_args := st_args s; vae_tiling := vae_tiling s;
               fs := created ∪ fs s;
               world := w; events := events s |}).

(** Line 27. *)
Definition resolve_save_path (args : Args) : string :=
  if String.eqb (save_path_suffix args) ""
  then save_path args
  else save_path args +:+ "_" +:+ save_path_suffix args.

(** Lines 32-37: [sp_size] is [nccl_info.sp_size], [dist_rank] is what
    [torch.distributed.get_rank()] returns. *)
Definition resolve_rank (sp_size dist_rank : Z) : Z :=
  if Z.ltb 1 sp_size then dist_rank else 0%Z.

(** Lines 43-48. *)
Definition select_modality (args : Args) : Modality :=
  if video_condition args then VideoDataset
  else if audio_condition args then AudioDataset
  else ImageDataset.

(** [DataLoader(dataset, batch_size=1, shuffle=False, sampler=sampler)]. *)
Definition DataLoader (dataset : list Batch) (sampler : list nat) : list Batch :=
  omap (fun i => dataset !! i) sampler.

(** Lines 49-50: the sampler is built with [num_replicas=1, rank=0]. *)
Definition json_loader (dataset : list Batch) : option (list Batch) :=
  match Torch.DistributedSampler (length dataset) 1 0 with
  | Some sampler => Some (DataLoader dataset sampler)
  | None => None
  end.

(** Lines 19-50.  [st_args] of the initial state is what [parse_args]
    returned; [ckpt_exists] is [models_root_path.exists()]. *)
Definition main_setup (ckpt_exists : bool) (sp_size dist_rank : Z)
  : M (string * Z * list Batch) :=
  (* 19-24 *)
  let* args := get_args in
  (if ckpt_exists then ret tt else raise ValueError_models_root) ;;;
  (* 27-29 *)
  let save_dir := resolve_save_path args in
  let* f := get_fs in
  (if bool_decide (save_path args ∈ f) then ret tt else makedirs save_dir) ;;;
  (* 32-37 *)
  let rank := resolve_rank sp_size dist_rank in
  (* 39-41 *)
  put_args (sampler_args args) ;;;
  let* args := get_args in
  (* 43-50 *)
  let dataset := dataset_items (select_modality args) args in
  match json_loader dataset with
  | Some loader => ret (save_dir, rank, loader)
  | None => raise SamplerValueError
  end.

Definition main (ckpt_exists : bool) (sp_size dist_rank : Z) : M unit :=
  let* setup := main_setup ckpt_exists sp_size dist_rank in
  let '(save_dir, rank, loader) := setup in
  for_each loader (loop_body save_dir rank).

(** ** Observations on a run *)

(** The states in which the iterations of [for x in l: body(x)] start. *)
Fixpoint entry_states {A} (l : list A) (body : A -> M unit) (s : State)
  : list State :=
  match l with
  | [] => []
  | x :: l' =>
      s :: match body x s with
           | (Ok _, s') => entry_states l' body s'
           | (Raise _, _) => []
           end
  end.

Definition is_write (e : Event) : bool :=
  match e with
  | EvSaveVideo _ | EvOsSystem _ => true
  | _ => false
  end.

(** The requests passed to [predict], in call order. *)
Definition predict_calls (evs : list Event) : list Request :=
  omap (fun e => match e with EvPredict r => Some r | _ => None end) evs.

(** The request [req] is the one built on line 86 for the record [batch]. *)
Definition request_of (req : Request) (batch : Batch) : Prop :=
  exists args latents, req = build_request args batch latents.

(** The events of latent preparation: the tiling toggles, and [vae.encode]
    calls made while tiling is switched on. *)
Definition tiled_codec_event (e : Event) : bool :=
  match e with
  | EvEnableTiling | EvDisableTiling => true
  | EvEncode _ tiling _ _ => tiling
  | _ => false
  end.

Definition site_eqb (a b : EncodeSite) : bool :=
  match a, b with
  | EncRef, EncRef | EncUncondRef, EncUncondRef
  | EncBg, EncBg | EncMask, EncMask => true
  | _, _ => false
  end.

(** What the [vae.encode] calls of one call site returned, in call order. *)
Definition encoded (site : EncodeSite) (evs : list Event) : list (option Shape) :=
  omap (fun e => match e with
                 | EvEncode st _ _ out => if site_eqb st site then Some out else None
                 | _ => None
                 end) evs.

(** [s'] is [s] with [evs] appended to the trace. *)
Definition appends (s s' : State) (evs : list Event) : Prop :=
  events s' = events s ++ evs.

End Driver.

(** ** Further observations on a run *)

(** The paths handed to [save_videos_grid], in call order. *)
Definition saved_paths (evs : list Event) : list string :=
  omap (fun e => match e with EvSaveVideo p => Some p | _ => None end) evs.

(** The command lines handed to [os.system], in call order. *)
Definition shell_commands (evs : list Event) : list string :=
  omap (fun e => match e with EvOsSystem c => Some c | _ => None end) evs.

(** [args] without the two attributes that lines 77-78 assign. *)
Definition forget_geometry (a : Args) : Args := set_geometry a [] 0.

(** The keyword arguments of lines 86-107 that do not come from a latent or
    from the geometry, for the record [batch] under the settings [cfg]. *)
Definition request_carries (cfg : Args) (req : Request) (batch : Batch) : Prop :=
  req_prompt req = add_pos_prompt cfg +:+ prompt batch /\
  req_negative_prompt req = add_neg_prompt cfg +:+ negative_prompt batch /\
  req_name req = name batch /\
  req_seed req = seed batch /\
  req_pixel_value_llava req = pixel_value_llava batch /\
  req_uncond_pixel_value_llava req = uncond_pixel_value_llava batch /\
  req_audio_prompts req = audio_prompts batch /\
  req_audio_strength req = audio_strength cfg /\
  req_guidance_scale req = cfg_scale cfg /\
  req_num_images_per_prompt req = num_images cfg /\
  req_infer_steps req = infer_steps cfg /\
  req_flow_shift req = flow_shift_eval_video cfg /\
  req_use_linear_quadratic_schedule req = use_linear_quadratic_schedule cfg /\
  req_linear_schedule_end req = linear_schedule_end cfg /\
  req_use_deepcache req = use_deepcache cfg.


(** The number of [vae.encode] calls, and of switches of the tiling flag to
    [on], in a trace. *)
Definition encode_count (evs : list Event) : nat :=
  length (List.filter (fun e => match e with EvEncode _ _ _ _ => true | _ => false end) evs).

Definition tiling_switches (on : bool) (evs : list Event) : nat :=
  length (List.filter (fun e => match e with
                                | EvEnableTiling => on
                                | EvDisableTiling => negb on
                                | _ => false
                                end) evs).

(** ** Replicas *)

(** The indices that the process of rank [rank] among [world_size]
    cooperating processes iterates over: lines 49-50 build the sampler with
    the constants [num_replicas=1, rank=0], in every process. *)
Definition replica_indices (len world_size rank : nat) : option (list nat) :=
  Torch.DistributedSampler len 1 0.

Definition replica_share (len world_size rank : nat) : list nat :=
  default [] (replica_indices len world_size rank).

(** [share] splits the indices [0 .. len-1] among [n] replicas: no index
    twice in a share, no index in two shares, every index in some share. *)
Definition disjoint_cover (len n : nat) (share : nat -> list nat) : Prop :=
  (forall r, r < n -> NoDup (share r)) /\
  (forall r1 r2 i, r1 < n -> r2 < n -> r1 <> r2 ->
     In i (share r1) -> ~ In i (share r2)) /\
  (forall i, i < len <-> exists r, r < n /\ In i (share r)).

(** ** Concrete collaborators, to run the driver on examples *)

Module Demo.

(** A codec in the manner of the causal 3D VAE: 16 latent channels, 8x8
    compression in space, 4x in time. *)
Definition latent_shape (x : Shape) : option Shape :=
  match x with
  | [b; _; t; h; w] => Some [b; 16; (t - 1) / 4 + 1; h / 8; w / 8]%Z
  | _ => None
  end.

Definition png : Shape := [1; 3; 256; 256]%Z.
Definition llava : Shape := [1; 3; 336; 336]%Z.
Definition clip : Shape := [1; 3; 33; 256; 384]%Z.
Definition small_clip : Shape := [1; 3; 33; 128; 384]%Z.

Definition make_batch (id : string) (audio : option string)
    (bg mask : option Shape) : Batch :=
  {| pixel_value_llava := llava;
     pixel_value_ref := png;
     uncond_pixel_value_llava := llava;
     prompt := "a cat";
     negative_prompt := "blurry";
     name := id;
     data_name := id;
     seed := 1024;
     audio_prompts := match audio with Some _ => Some [129; 10; 5; 384]%Z | None => None end;
     audio_path := audio;
     pixel_value_bg := bg;
     pixel_value_mask := mask |}.

Definition image_item (id : string) : Batch := make_batch id None None None.
Definition audio_item (id : string) : Batch := make_batch id (Some "a.wav") None None.
Definition video_item (id : string) (bg mask : Shape) : Batch :=
  make_batch id None (Some bg) (Some mask).

Definition half : PyFloat := S754_finite false 4503599627370496 (-53).

Definition make_args (dir suffix : string) (video audio : bool) : Args :=
  {| save_path := dir;
     save_path_suffix := suffix;
     video_condition := video;
     audio_condition := audio;
     video_size := [720; 1280]%Z;
     sample_n_frames := 129;
     add_pos_prompt := "Realistic, ";
     add_neg_prompt := "Aerial view, ";
     audio_strength := half;
     cfg_scale := half;
     num_images := 1;
     infer_steps := 30;
     flow_shift_eval_video := half;
     use_linear_quadratic_schedule := false;
     linear_schedule_end := 25;
     use_deepcache := 1;
     fps := 25 |}.

(** Collaborators whose state counts the calls made so far.  The call
    numbered [encode_fails_at], if it is a [vae.encode], raises; the mux
    succeeds or fails as [mux_ok] says; the sampler returns one sample. *)
Definition collaborators (items : list Batch) (encode_fails_at : option nat)
    (mux_ok : bool) : Collaborators :=
  {| World := nat;
     vae_encode := fun w _ x =>
       (S w, if bool_decide (encode_fails_at = Some w) then None else latent_shape x);
     sampler_predict := fun w req =>
       (S w, Some [3%Z :: req_video_length req :: req_size req]);
     ffmpeg := fun w _ _ _ => (S w, mux_ok);
     sh_misquoted := fun w _ f => (w, f);
     os_makedirs := fun w _ _ => (w, (∅, true));
     video_writer := fun w _ _ => (w, Saved);
     sampler_args := fun a => a;
     dataset_items := fun _ _ => items |}.

Definition initial (C : Collaborators) (w : @World C) (a : Args)
    (paths : gset string) : @State C :=
  {| st_args := a; vae_tiling := false; fs := paths; world := w; events := [] |}.

End Demo.

(** ** Further concrete inputs *)

Module DemoMore.

(** A record whose reference tensor lacks the batch axis. *)
Definition flat_reference_item (id : string) : Batch :=
  {| pixel_value_llava := Demo.llava;
     pixel_value_ref := [3; 256; 256]%Z;
     uncond_pixel_value_llava := Demo.llava;
     prompt := "a cat";
     negative_prompt := "blurry";
     name := id;
     data_name := id;
     seed := 1024;
     audio_prompts := None;
     audio_path := None;
     pixel_value_bg := None;
     pixel_value_mask := None |}.

(** The collaborators of [Demo.collaborators], with a sampler that raises. *)
Definition failing_sampler (items : list Batch) : Collaborators :=
  {| World := nat;
     vae_encode := fun w _ x => (S w, Demo.latent_shape x);
     sampler_predict := fun w _ => (S w, None);
     ffmpeg := fun w _ _ _ => (S w, true);
     sh_misquoted := fun w _ f => (w, f);
     os_makedirs := fun w _ _ => (w, (∅, true));
     video_writer := fun w _ _ => (w, Saved);
     sampler_args := fun a => a;
     dataset_items := fun _ _ => items |}.

(** The collaborators of [Demo.collaborators] around another codec. *)
Definition with_codec (latent : Shape -> option Shape) : Collaborators :=
  {| World := nat;
     vae_encode := fun w _ x => (S w, latent x);
     sampler_predict := fun w req =>
       (S w, Some [3%Z :: req_video_length req :: req_size req]);
     ffmpeg := fun w _ _ _ => (S w, true);
     sh_misquoted := fun w _ f => (w, f);
     os_makedirs := fun w _ _ => (w, (∅, true));
     video_writer := fun w _ _ => (w, Saved);
     sampler_args := fun a => a;
     dataset_items := fun _ _ => [] |}.

(** A codec whose latent has four channels per input channel. *)
Definition four_per_channel (x : Shape) : option Shape :=
  match x with
  | [b; c; t; h; w] => Some [b; 4 * c; (t - 1) / 4 + 1; h / 8; w / 8]%Z
  | _ => None
  end.

(** A codec that returns an empty 1-dimensional tensor for a one-channel
    input. *)
Definition empty_for_one_channel (x : Shape) : option Shape :=
  match x with
  | [_; 1%Z; _; _; _] => Some [0%Z]
  | _ => Demo.latent_shape x
  end.

(** A one-channel mask for [Demo.clip]. *)
Definition mask_clip : Shape := [1; 1; 33; 256; 384]%Z.

(** The collaborators of [Demo.collaborators], with a video writer that
    fails and leaves a partial file. *)
Definition failing_writer : Collaborators :=
  {| World := nat;
     vae_encode := fun w _ x => (S w, Demo.latent_shape x);
     sampler_predict := fun w req =>
       (S w, Some [3%Z :: req_video_length req :: req_size req]);
     ffmpeg := fun w _ _ _ => (S w, true);
     sh_misquoted := fun w _ f => (w, f);
     os_makedirs := fun w _ _ => (w, (∅, true));
     video_writer := fun w _ _ => (w, SaveFailed true);
     sampler_args := fun a => a;
     dataset_items := fun _ _ => [] |}.

End DemoMore.

(** * Properties *)

(** ** The sampler and the data loader *)

Lemma ceil_div_1 (n : nat) : Torch.ceil_div n 1 = n.
Proof.
  unfold Torch.ceil_div. replace (n + 1 - 1) with n by lia. apply Nat.div_1_r.
Qed.

Lemma slice_from_step_all {A} (l : list A) : Torch.slice_from_step l 0 1 = l.
Proof.
  induction l as [|x l IH]; simpl; [reflexivity|]. now rewrite IH.
Qed.

(** With [num_replicas=1, rank=0] the sampler enumerates the whole dataset
    in index order. *)
Lemma DistributedSampler_single (len : nat) :
  Torch.DistributedSampler len 1 0 = Some (seq 0 len).
Proof.
  unfold Torch.DistributedSampler.
  cbn [Nat.eqb Nat.ltb Nat.leb orb negb].
  rewrite ceil_div_1, Nat.mul_1_r, length_seq, Nat.sub_diag.
  cbn [Nat.leb firstn].
  rewrite app_nil_r, firstn_all2 by (rewrite length_seq; lia).
  now rewrite slice_from_step_all.
Qed.

Lemma DataLoader_seq (pre items : list Batch) :
  DataLoader (pre ++ items) (seq (length pre) (length items)) = items.
Proof.
  revert pre. induction items as [|b items IH]; intros pre; [reflexivity|].
  unfold DataLoader in *. simpl.
  rewrite lookup_app_r, Nat.sub_diag by lia. simpl. f_equal.
  specialize (IH (pre ++ [b])).
  rewrite length_app, Nat.add_1_r, <- app_assoc in IH. exact IH.
Qed.

Lemma json_loader_all (items : list Batch) : json_loader items = Some items.
Proof.
  unfold json_loader. rewrite DistributedSampler_single.
  f_equal. apply (DataLoader_seq [] items).
Qed.

Section Properties.
Context {C : Collaborators}.

(** Case analysis on every collaborator result, optional key and shape test
    met along a run recorded in a hypothesis. *)
Ltac split_paths :=
  repeat match goal with
    | H : context [match ?x with _ => _ end] |- _ =>
        lazymatch x with
        | context [match _ with _ => _ end] => fail
        | _ => destruct x eqn:?; simpl in H
        end
    | H : (_, _) = (_, _) |- _ => injection H as <- <-
    end.

(** Unfolds the statements of the driver down to the state they build. *)
Ltac unfold_driver :=
  unfold prepare_latents, encode_background, derive_geometry, enable_tiling,
    disable_tiling, encode, subscript, predict, save_videos_grid, makedirs,
    os_system_mux, log, set_tiling, get_args,
    put_args, get_fs, put_fs, bind, ret, raise in *.

(** ** One iteration *)

Lemma appends_refl (s : State) : appends s s [].
Proof. unfold appends. now rewrite app_nil_r. Qed.

Lemma appends_trans (s1 s2 s3 : State) (e1 e2 : list Event) :
  appends s1 s2 e1 -> appends s2 s3 e2 -> appends s1 s3 (e1 ++ e2).
Proof. unfold appends. intros H1 H2. now rewrite H2, H1, app_assoc. Qed.

(** Reads the appended events off a state built by the driver. *)
Ltac give_events :=
  eexists; split;
  [ unfold appends; simpl; rewrite <- ?app_assoc; simpl;
    first [ reflexivity | symmetry; apply app_nil_r ] | ].

(** One pass of the emission loop only writes: it returns, or the writer or
    [os.system] raises. *)
Lemma emit_sample_spec (save_dir : string) (batch : Batch) (sample : Shape)
    (s s' : State) (r : Outcome unit) :
  emit_sample save_dir batch sample s = (r, s') ->
  exists evs,
    appends s s' evs /\ Forall (fun e => is_write e = true) evs /\
    st_args s' = st_args s /\ vae_tiling s' = vae_tiling s /\
    (r = Ok tt \/ emission_error r).
Proof.
  unfold emit_sample, emission_error. unfold_driver.
  cbn [st_args fs events vae_tiling world]. intros Hrun.
  split_paths; give_events; (split; [repeat constructor|]);
    repeat split; auto.
Qed.

Lemma emit_spec (save_dir : string) (batch : Batch) (samples : list Shape)
    (s s' : State) (r : Outcome unit) :
  for_each samples (emit_sample save_dir batch) s = (r, s') ->
  exists evs,
    appends s s' evs /\ Forall (fun e => is_write e = true) evs /\
    st_args s' = st_args s /\ vae_tiling s' = vae_tiling s /\
    (r = Ok tt \/ emission_error r).
Proof.
  revert s. induction samples as [|x samples IH]; intros s Hrun.
  - injection Hrun as <- <-. exists []. repeat split; auto using appends_refl.
  - simpl in Hrun. unfold bind in Hrun.
    destruct (emit_sample save_dir batch x s) as [[[]|e] s1] eqn:Hone;
      destruct (emit_sample_spec _ _ _ _ _ _ Hone) as (e1 & Happ & Hw & Ha & Ht & Hr).
    + destruct (IH _ Hrun) as (e2 & Happ2 & Hw2 & Ha2 & Ht2 & Hr2).
      exists (e1 ++ e2).
      repeat split; [eauto using appends_trans | now apply Forall_app
                    | congruence | congruence | exact Hr2].
    + injection Hrun as <- <-. exists e1. repeat split; auto.
Qed.

Lemma loop_body_unfold (save_dir : string) (rank : Z) (batch : Batch) (s : State) :
  loop_body save_dir rank batch s =
  match prepare_latents batch s with
  | (Ok latents, s1) =>
      match predict (build_request (st_args s1) batch latents) s1 with
      | (Ok samples, s2) =>
          if Z.eqb rank 0 then for_each samples (emit_sample save_dir batch) s2
          else (Ok tt, s2)
      | (Raise e, s2) => (Raise e, s2)
      end
  | (Raise e, s1) => (Raise e, s1)
  end.
Proof.
  unfold loop_body, bind, get_args.
  destruct (prepare_latents batch s) as [[latents|e] s1]; [|reflexivity].
  destruct (predict _ s1) as [[samples|e] s2]; [|reflexivity].
  destruct (Z.eqb rank 0); reflexivity.
Qed.

Lemma prepare_latents_spec (batch : Batch) (s s' : State)
    (r : Outcome (Shape * Shape * option Shape)) :
  prepare_latents batch s = (r, s') ->
  fs s' = fs s /\
  exists evs,
    appends s s' evs /\
    Forall (fun e => tiled_codec_event e = true) evs /\
    match r with
    | Ok (_, _, bg_latents) =>
        vae_tiling s' = false /\ hd_error evs = Some EvEnableTiling /\
        if video_condition (st_args s) then
          exists bgl maskl b0 c0 t h w,
            encoded EncBg evs = [Some bgl] /\
            encoded EncMask evs = [Some maskl] /\
            Torch.cat_dim1 bgl maskl = Some [b0; c0; t; h; w] /\
            bg_latents = Some [b0; c0; t; h; w] /\
            st_args s' =
              set_geometry (st_args s) [(h * 8)%Z; (w * 8)%Z] ((t - 1) * 4 + 1)%Z
        else
          encoded EncBg evs = [] /\ bg_latents = None /\ st_args s' = st_args s
    | Raise e =>
        st_args s' = st_args s /\
        (e = EinopsError /\ evs = [] /\ vae_tiling s' = vae_tiling s \/
         e <> EinopsError /\ hd_error evs = Some EvEnableTiling /\
         vae_tiling s' = true) /\
        (forall bgl maskl,
            encoded EncBg evs = [Some bgl] -> encoded EncMask evs = [Some maskl] ->
            Torch.cat_dim1 bgl maskl = None -> e = CatRuntimeError)
    end.
Proof.
  intros Hrun. unfold_driver. simpl in Hrun.
  split_paths; (split; [reflexivity|]); give_events.
  all: split; [repeat constructor|].
  all: simpl.
  all: repeat match goal with
    | |- _ /\ _ => split
    | |- forall _, _ => intros; simplify_eq; congruence
    | |- _ \/ _ =>
        first [ left; repeat split; (reflexivity || discriminate)
              | right; repeat split; (reflexivity || discriminate) ]
    | |- exists _, _ => eexists
    | |- _ = _ => first [ reflexivity | eassumption ]
    end.
Qed.

Lemma predict_spec (req : Request) (s : State) :
  exists w o,
    sampler_predict (world s) req = (w, o) /\
    predict req s =
      (match o with Some samples => Ok samples | None => Raise PredictRaised end,
       {| st_args := st_args s; vae_tiling := vae_tiling s; fs := fs s;
          world := w; events := events s ++ [EvPredict req] |}).
Proof.
  unfold predict. destruct (sampler_predict (world s) req) as [w o].
  exists w, o. split; [reflexivity|]. now destruct o.
Qed.

(** One iteration, cut at its three stages. *)
Lemma loop_body_spec (save_dir : string) (rank : Z) (batch : Batch)
    (s s' : State) (r : Outcome unit) :
  loop_body save_dir rank batch s = (r, s') ->
  exists rp s1,
    prepare_latents batch s = (rp, s1) /\
    match rp with
    | Raise e => r = Raise e /\ s' = s1
    | Ok latents =>
        exists s2,
          appends s1 s2 [EvPredict (build_request (st_args s1) batch latents)] /\
          st_args s2 = st_args s1 /\ vae_tiling s2 = vae_tiling s1 /\
          (r = Raise PredictRaised /\ s' = s2 \/
           (r = Ok tt \/ rank = 0%Z /\ emission_error r) /\
           exists writes,
             appends s2 s' writes /\
             Forall (fun e => is_write e = true) writes /\
             (rank <> 0%Z -> writes = []) /\
             st_args s' = st_args s2 /\ vae_tiling s' = vae_tiling s2)
    end.
Proof.
  rewrite loop_body_unfold. intros Hrun.
  destruct (prepare_latents batch s) as [[latents|e] s1] eqn:Hprep.
  2: { injection Hrun as <- <-. exists (Raise e), s1. auto. }
  exists (Ok latents), s1. split; [reflexivity|].
  destruct (predict_spec (build_request (st_args s1) batch latents) s1)
    as (w & o & _ & Hpred).
  rewrite Hpred in Hrun.
  match type of Hpred with _ = (_, ?s2) => exists s2 end.
  split; [reflexivity|].
  split; [reflexivity|]. split; [reflexivity|].
  destruct o as [samples|]; [|left; now injection Hrun as <- <-].
  right. destruct (Z.eqb rank 0) eqn:Hrank.
  - apply Z.eqb_eq in Hrank.
    destruct (emit_spec _ _ _ _ _ _ Hrun) as (writes & Happ & Hw & Ha & Ht & Hr).
    split; [destruct Hr; auto|]. exists writes. repeat split; auto.
    intros Hne. contradiction.
  - injection Hrun as <- <-. split; [now left|]. exists [].
    repeat split; auto using appends_refl.
Qed.

Lemma appends_inj (s s' : State) (e1 e2 : list Event) :
  appends s s' e1 -> appends s s' e2 -> e1 = e2.
Proof. unfold appends. intros H1 H2. rewrite H1 in H2. eapply app_inv_head, H2. Qed.

Lemma predict_calls_app (e1 e2 : list Event) :
  predict_calls (e1 ++ e2) = predict_calls e1 ++ predict_calls e2.
Proof. apply omap_app. Qed.

Lemma encoded_app (site : EncodeSite) (e1 e2 : list Event) :
  encoded site (e1 ++ e2) = encoded site e1 ++ encoded site e2.
Proof. apply omap_app. Qed.

(** Codec events are neither sampler calls nor writes. *)
Lemma codec_events_quiet (evs : list Event) :
  Forall (fun e => tiled_codec_event e = true) evs ->
  predict_calls evs = [] /\ List.filter is_write evs = [].
Proof.
  induction 1 as [|e evs He _ [IH1 IH2]]; [split; reflexivity|].
  destruct e; try discriminate He; simpl; split; assumption.
Qed.

(** Writes are neither sampler calls nor codec calls. *)
Lemma write_events_quiet (site : EncodeSite) (evs : list Event) :
  Forall (fun e => is_write e = true) evs ->
  predict_calls evs = [] /\ encoded site evs = [].
Proof.
  induction 1 as [|e evs He _ [IH1 IH2]]; [split; reflexivity|].
  destruct e; try discriminate He; simpl; split; assumption.
Qed.

Lemma cat_dim1_keeps_5d (b c t h w : Z) (other cat : Shape) :
  Torch.cat_dim1 [b; c; t; h; w] other = Some cat ->
  exists c', cat = [b; c'; t; h; w].
Proof.
  unfold Torch.cat_dim1. simpl.
  destruct (Torch.cat_should_skip other).
  - intros [= <-]. eauto.
  - unfold Torch.cat_dim1_checked. destruct other as [|m [|cb rb]]; try discriminate.
    destruct (_ && _); [|discriminate]. intros [= <-]. eauto.
Qed.

(** Along axis 1 the channel counts are free: latents that differ in their
    channel count only do concatenate. *)
Remark cat_dim1_channels_free (b c1 c2 t h w : Z) :
  Torch.cat_dim1 [b; c1; t; h; w] [b; c2; t; h; w] = Some [b; (c1 + c2)%Z; t; h; w].
Proof.
  unfold Torch.cat_dim1, Torch.cat_dim1_checked. simpl.
  now rewrite Z.eqb_refl, bool_decide_eq_true_2.
Qed.

(** The trace of one iteration: codec events, then at most one sampler
    call, then the writes of the emission. *)
Lemma loop_body_trace (save_dir : string) (rank : Z) (batch : Batch)
    (s s' : State) (r : Outcome unit) :
  loop_body save_dir rank batch s = (r, s') ->
  exists rp s1 prep calls writes,
    prepare_latents batch s = (rp, s1) /\
    appends s s1 prep /\
    Forall (fun e => tiled_codec_event e = true) prep /\
    appends s s' (prep ++ calls ++ writes) /\
    Forall (fun e => is_write e = true) writes /\
    (rank <> 0%Z -> writes = []) /\
    st_args s' = st_args s1 /\ vae_tiling s' = vae_tiling s1 /\
    match rp with
    | Raise e => r = Raise e /\ calls = [] /\ writes = []
    | Ok latents =>
        calls = [EvPredict (build_request (st_args s1) batch latents)] /\
        (r = Ok tt \/ r = Raise PredictRaised /\ writes = [] \/
         rank = 0%Z /\ emission_error r)
    end.
Proof.
  intros Hrun. apply loop_body_spec in Hrun as (rp & s1 & Hprep & Hrest).
  destruct (prepare_latents_spec _ _ _ _ Hprep) as (_ & prep & Happ & Hcodec & _).
  exists rp, s1, prep. destruct rp as [latents|e].
  - destruct Hrest as (s2 & Happ2 & Ha2 & Ht2 & [[-> ->]|[Hr Hw]]).
    + exists [EvPredict (build_request (st_args s1) batch latents)], [].
      repeat split; auto; try discriminate.
      eapply appends_trans; [eassumption|]. simpl. exact Happ2.
    + destruct Hw as (writes & Happ3 & Hw & Hrank & Ha3 & Ht3).
      exists [EvPredict (build_request (st_args s1) batch latents)], writes.
      repeat split; auto; try congruence.
      * eapply appends_trans; [eassumption|].
        eapply (appends_trans _ _ _ [_]); eassumption.
      * tauto.
  - destruct Hrest as [-> ->]. exists [], [].
    rewrite app_nil_r. repeat split; auto.
Qed.

(** C1. In a run with background conditioning ([args.video_condition]),
    every request passed to [predict] carries the geometry derived from the
    latents of its own record: with [bg_latents] of shape
    [(_, _, t, h, w)], the size is [(h * 8, w * 8)] and the frame count is
    [(t - 1) * 4 + 1], whatever [args.video_size] and [args.sample_n_frames]
    were configured to.  [t], [h] and [w] are those of the encoded
    background clip whenever that latent is 5-dimensional. *)
Theorem c1_background_geometry_overrides (save_dir : string) (rank : Z)
    (batch : Batch) (s s' : State) (r : Outcome unit) (evs : list Event) :
  video_condition (st_args s) = true ->
  loop_body save_dir rank batch s = (r, s') ->
  appends s s' evs ->
  forall req, In req (predict_calls evs) ->
  exists bgl maskl b0 c0 t h w,
    encoded EncBg evs = [Some bgl] /\
    encoded EncMask evs = [Some maskl] /\
    Torch.cat_dim1 bgl maskl = Some [b0; c0; t; h; w] /\
    req_bg_latents req = Some [b0; c0; t; h; w] /\
    req_size req = [(h * 8)%Z; (w * 8)%Z] /\
    req_video_length req = ((t - 1) * 4 + 1)%Z /\
    (forall b c t' h' w', bgl = [b; c; t'; h'; w'] -> t' = t /\ h' = h /\ w' = w).
Proof.
  intros Hvideo Hrun Happ req Hreq.
  apply loop_body_trace in Hrun
    as (rp & s1 & prep & calls & writes & Hprep & Happ1 & Hcodec & Happ' & Hw
        & _ & _ & _ & Hout).
  rewrite (appends_inj _ _ _ _ Happ Happ') in *. clear Happ.
  destruct (prepare_latents_spec _ _ _ _ Hprep) as (_ & prep' & Happ2 & _ & Hspec).
  rewrite <- (appends_inj _ _ _ _ Happ1 Happ2) in Hspec. clear Happ2 prep'.
  destruct (codec_events_quiet _ Hcodec) as [Hnocall _].
  destruct (write_events_quiet EncBg _ Hw) as [Hnocall' Hnobg].
  destruct (write_events_quiet EncMask _ Hw) as [_ Hnomask].
  rewrite !predict_calls_app, Hnocall, Hnocall', app_nil_r in Hreq. simpl in Hreq.
  destruct rp as [[[rl ul] obg]|e].
  2: { destruct Hout as (_ & -> & _). destruct Hreq. }
  destruct Hout as [-> _]. destruct Hreq as [<-|[]].
  destruct Hspec as (_ & _ & Hgeo). rewrite Hvideo in Hgeo.
  destruct Hgeo as (bgl & maskl & b0 & c0 & t & h & w & Hbg & Hmask & Hcat & -> & Hargs).
  exists bgl, maskl, b0, c0, t, h, w.
  rewrite !encoded_app, Hnobg, Hnomask, Hbg, Hmask. simpl.
  rewrite Hargs. repeat split; try reflexivity; try assumption.
  all: subst bgl; apply cat_dim1_keeps_5d in Hcat as [c' [= _ _ -> -> ->]];
    reflexivity.
Qed.

(** When [torch.cat] rejects the latents of the background clip and of the
    mask, the iteration raises its error: no request is built, [predict] is
    not called, nothing is written, and [args] keeps its geometry. *)
Lemma cat_failure_raises (save_dir : string) (rank : Z)
    (batch : Batch) (s s' : State) (r : Outcome unit) (evs : list Event)
    (bgl maskl : Shape) :
  loop_body save_dir rank batch s = (r, s') ->
  appends s s' evs ->
  encoded EncBg evs = [Some bgl] ->
  encoded EncMask evs = [Some maskl] ->
  Torch.cat_dim1 bgl maskl = None ->
  r = Raise CatRuntimeError /\
  predict_calls evs = [] /\
  List.filter is_write evs = [] /\
  st_args s' = st_args s.
Proof.
  intros Hrun Happ Hbg Hmask Hcat.
  apply loop_body_trace in Hrun
    as (rp & s1 & prep & calls & writes & Hprep & Happ1 & Hcodec & Happ' & Hw
        & _ & Ha & _ & Hout).
  rewrite (appends_inj _ _ _ _ Happ Happ') in *. clear Happ.
  destruct (prepare_latents_spec _ _ _ _ Hprep) as (_ & prep' & Happ2 & _ & Hspec).
  rewrite <- (appends_inj _ _ _ _ Happ1 Happ2) in Hspec. clear Happ2 prep'.
  destruct (codec_events_quiet _ Hcodec) as [Hnocall Hnowrite].
  destruct (write_events_quiet EncBg _ Hw) as [_ Hnobg].
  destruct (write_events_quiet EncMask _ Hw) as [_ Hnomask].
  destruct rp as [[[rl ul] obg]|e].
  - exfalso. destruct Hout as [-> _]. destruct Hspec as (_ & _ & Hgeo).
    rewrite !encoded_app, Hnobg in Hbg. rewrite !encoded_app, Hnomask in Hmask.
    simpl in Hbg, Hmask. rewrite !app_nil_r in Hbg, Hmask.
    destruct (video_condition (st_args s)).
    + destruct Hgeo as (bgl' & maskl' & b0 & c0 & t & h & w & Hbg' & Hmask' & Hcat' & _).
      congruence.
    + destruct Hgeo as (Hbg' & _). congruence.
  - destruct Hout as (-> & -> & ->). rewrite !app_nil_r in *.
    destruct Hspec as (Hargs & _ & Hmismatch).
    rewrite (Hmismatch _ _ Hbg Hmask Hcat). repeat split; auto. congruence.
Qed.

(** Two 5-dimensional latents concatenate along axis 1 exactly when they
    agree on the four other axes; the channel counts add up. *)
Lemma cat_dim1_5d_5d (b1 c1 t1 h1 w1 b2 c2 t2 h2 w2 : Z) :
  Torch.cat_dim1 [b1; c1; t1; h1; w1] [b2; c2; t2; h2; w2] =
  if bool_decide ((b1, t1, h1, w1) = (b2, t2, h2, w2))
  then Some [b1; (c1 + c2)%Z; t1; h1; w1]
  else None.
Proof.
  unfold Torch.cat_dim1, Torch.cat_dim1_checked. simpl.
  destruct (Z.eqb_spec b1 b2) as [->|Hb]; simpl.
  - destruct (decide ([t1; h1; w1] = [t2; h2; w2])) as [Heq|Hne].
    + injection Heq as -> -> ->.
      now rewrite !bool_decide_eq_true_2.
    + rewrite !bool_decide_eq_false_2; [reflexivity| |exact Hne].
      intros [= -> -> ->]. now apply Hne.
  - rewrite bool_decide_eq_false_2; [reflexivity|]. intros [= -> _ _ _]. now apply Hb.
Qed.

(** A latent preparation that raises although both background encodes
    returned has failed in [torch.cat] or in the unpacking of line 76. *)
Lemma prepare_latents_raise_after_encodes (batch : Batch) (s s' : State)
    (e : Exn) (evs : list Event) (bgl maskl : Shape) :
  prepare_latents batch s = (Raise e, s') ->
  appends s s' evs ->
  encoded EncBg evs = [Some bgl] ->
  encoded EncMask evs = [Some maskl] ->
  match Torch.cat_dim1 bgl maskl with
  | None => e = CatRuntimeError
  | Some cat => e = UnpackValueError /\ length cat <> 5
  end.
Proof.
  intros Hrun Happ Hbg Hmask. unfold_driver. simpl in Hrun.
  split_paths; try discriminate; subst.
  all: match type of Happ with appends _ ?s2 _ =>
         assert (exists evs', appends s s2 evs' /\
                   encoded EncBg evs' = encoded EncBg evs /\
                   encoded EncMask evs' = encoded EncMask evs)
           as (evs' & Happ' & Hbg' & Hmask')
           by (exists evs; auto)
       end.
  all: unfold appends in Happ'; simpl in Happ';
    rewrite <- ?app_assoc in Happ'; simpl in Happ';
    try (symmetry in Happ'; apply app_inv_head in Happ'; subst evs');
    try (rewrite <- (app_nil_r (events s)) in Happ' at 1;
         apply app_inv_head in Happ'; subst evs');
    rewrite <- ?Hbg', <- ?Hmask' in *; simpl in *; try discriminate.
  all: repeat match goal with
         | H : [Some _] = [Some _] |- _ => injection H as ->
         end.
  all: match goal with
       | H : Torch.cat_dim1 _ _ = _ |- _ => rewrite H
       end; try reflexivity; split; try reflexivity; simpl; lia.
Qed.

(** C8 (amended). For the 5-dimensional latents of a background clip and its
    mask: when they differ on an axis other than the channel axis, the
    iteration raises the error of [torch.cat], no request is built,
    [predict] is not called, nothing is written and [args] keeps its
    geometry; when they agree on those axes, whatever their channel counts,
    the iteration does not fail in [torch.cat] and [predict] is called with
    the concatenation, of [c1 + c2] channels. *)
Theorem c8_cat_raises_off_the_channel_axis (save_dir : string) (rank : Z)
    (batch : Batch) (s s' : State) (r : Outcome unit) (evs : list Event)
    (b1 c1 t1 h1 w1 b2 c2 t2 h2 w2 : Z) :
  loop_body save_dir rank batch s = (r, s') ->
  appends s s' evs ->
  encoded EncBg evs = [Some [b1; c1; t1; h1; w1]] ->
  encoded EncMask evs = [Some [b2; c2; t2; h2; w2]] ->
  ((b1, t1, h1, w1) <> (b2, t2, h2, w2) ->
   r = Raise CatRuntimeError /\
   predict_calls evs = [] /\
   List.filter is_write evs = [] /\
   st_args s' = st_args s) /\
  ((b1, t1, h1, w1) = (b2, t2, h2, w2) ->
   r <> Raise CatRuntimeError /\
   exists req,
     predict_calls evs = [req] /\
     req_bg_latents req = Some [b1; (c1 + c2)%Z; t1; h1; w1]).
Proof.
  intros Hrun Happ Hbg Hmask. split.
  - intros Hne. eapply cat_failure_raises; try eassumption.
    rewrite cat_dim1_5d_5d. now rewrite bool_decide_eq_false_2 by exact Hne.
  - intros Heq.
    pose proof (cat_dim1_5d_5d b1 c1 t1 h1 w1 b2 c2 t2 h2 w2) as Hcat.
    rewrite bool_decide_eq_true_2 in Hcat by exact Heq.
    apply loop_body_trace in Hrun
      as (rp & s1 & prep & calls & writes & Hprep & Happ1 & Hcodec & Happ' & Hw
          & _ & _ & _ & Hout).
    rewrite (appends_inj _ _ _ _ Happ Happ') in *. clear Happ.
    destruct (prepare_latents_spec _ _ _ _ Hprep) as (_ & prep' & Happ2 & _ & Hspec).
    rewrite <- (appends_inj _ _ _ _ Happ1 Happ2) in Hspec. clear Happ2 prep'.
    destruct (codec_events_quiet _ Hcodec) as [Hnocall _].
    destruct (write_events_quiet EncBg _ Hw) as [Hnocall' Hnobg].
    destruct (write_events_quiet EncMask _ Hw) as [_ Hnomask].
    rewrite !predict_calls_app, Hnocall, Hnocall', app_nil_r.
    destruct rp as [[[rl ul] obg]|e].
    + destruct Hout as [-> Hr]. split.
      * unfold emission_error in Hr.
        destruct Hr as [->|[[-> _]|[_ [->| ->]]]]; discriminate.
      * eexists. split; [reflexivity|]. simpl.
        rewrite !encoded_app, Hnobg in Hbg. rewrite !encoded_app, Hnomask in Hmask.
        simpl in Hbg, Hmask. rewrite !app_nil_r in Hbg, Hmask.
        destruct Hspec as (_ & _ & Hgeo). destruct (video_condition (st_args s)).
        -- destruct Hgeo as (bgl & maskl & b0 & c0 & t & h & w & Hbg' & Hmask'
                             & Hcat' & -> & _).
           rewrite Hbg' in Hbg. rewrite Hmask' in Hmask.
           injection Hbg as ->. injection Hmask as ->. congruence.
        -- destruct Hgeo as (Hnone & _). congruence.
    + exfalso. destruct Hout as (_ & -> & ->). rewrite !app_nil_r in *.
      pose proof (prepare_latents_raise_after_encodes _ _ _ _ _ _ _ Hprep Happ1 Hbg Hmask)
        as Hwhy.
      rewrite Hcat in Hwhy. destruct Hwhy as [_ Hlen]. now apply Hlen.
Qed.

(** ** The loop *)

Lemma entry_states_head {A} (l : list A) (body : A -> M unit) (s s0 : State) :
  entry_states l body s !! 0 = Some s0 -> s0 = s.
Proof. destruct l; simpl; congruence. Qed.

(** Consecutive entry states are linked by an iteration that returned. *)
Lemma entry_states_step {A} (l : list A) (body : A -> M unit) (s : State)
    (k : nat) (sk sk1 : State) :
  entry_states l body s !! k = Some sk ->
  entry_states l body s !! S k = Some sk1 ->
  exists x, l !! k = Some x /\ body x sk = (Ok tt, sk1).
Proof.
  revert s k. induction l as [|x l IH]; intros s k Hk Hk1; [discriminate|].
  simpl in Hk, Hk1.
  destruct (body x s) as [[[]|e] s1] eqn:Hbody; [|discriminate].
  destruct k as [|k].
  - injection Hk as <-. apply entry_states_head in Hk1 as ->. eauto.
  - simpl in Hk. destruct (IH _ _ Hk Hk1) as (y & Hy & Hrun). eauto.
Qed.

(** What one iteration leaves behind. *)
Lemma loop_body_frame (save_dir : string) (rank : Z) (batch : Batch)
    (s s' : State) (r : Outcome unit) :
  loop_body save_dir rank batch s = (r, s') ->
  video_condition (st_args s') = video_condition (st_args s) /\
  (video_condition (st_args s) = false -> st_args s' = st_args s) /\
  (r = Ok tt -> vae_tiling s' = false).
Proof.
  intros Hrun. apply loop_body_trace in Hrun
    as (rp & s1 & prep & calls & writes & Hprep & _ & _ & _ & _ & _ & Ha & Ht & Hout).
  destruct (prepare_latents_spec _ _ _ _ Hprep) as (_ & prep' & _ & _ & Hspec).
  rewrite Ha, Ht. destruct rp as [[[rl ul] obg]|e].
  - destruct Hspec as (Htile & _ & Hgeo).
    destruct (video_condition (st_args s)) eqn:Hvideo.
    + destruct Hgeo as (? & ? & ? & ? & ? & ? & ? & _ & _ & _ & _ & ->).
      simpl. repeat split; auto. discriminate.
    + destruct Hgeo as (_ & _ & ->). repeat split; auto.
  - destruct Hout as (-> & _). destruct Hspec as (-> & _).
    repeat split; auto. discriminate.
Qed.

(** The sampler calls of one iteration. *)
Lemma loop_body_calls (save_dir : string) (rank : Z) (batch : Batch)
    (s s' : State) (r : Outcome unit) (evs : list Event) :
  loop_body save_dir rank batch s = (r, s') ->
  appends s s' evs ->
  (rank <> 0%Z -> List.filter is_write evs = []) /\
  ((exists e, r = Raise e) /\ predict_calls evs = [] \/
   exists latents, predict_calls evs = [build_request (st_args s') batch latents]) /\
  (r = Ok tt ->
   exists latents, predict_calls evs = [build_request (st_args s') batch latents]).
Proof.
  intros Hrun Happ. apply loop_body_trace in Hrun
    as (rp & s1 & prep & calls & writes & Hprep & _ & Hcodec & Happ' & Hw
        & Hrank & Ha & _ & Hout).
  rewrite (appends_inj _ _ _ _ Happ Happ'). clear Happ.
  destruct (codec_events_quiet _ Hcodec) as [Hnocall Hnowrite].
  destruct (write_events_quiet EncBg _ Hw) as [Hnocall' _].
  rewrite !predict_calls_app, Hnocall, Hnocall', app_nil_r, !List.filter_app, Hnowrite.
  simpl. rewrite Ha. destruct rp as [latents|e].
  - destruct Hout as [-> _]. simpl. repeat split; eauto.
    intros Hne. now rewrite (Hrank Hne).
  - destruct Hout as (-> & -> & ->). simpl. repeat split; eauto. discriminate.
Qed.

(** C4 (amended). Tiling is switched on before the first [vae.encode] of a
    record and every [vae.encode] runs with tiling on.  When latent
    preparation returns, tiling is off again.  When it raises inside the
    scope, the exception leaves with tiling still on; [main] does not catch
    it, so the loop ends there: every iteration after the first starts with
    tiling off. *)
Theorem c4_tiling_released_on_return :
  (forall (batch : Batch) (s s' : State) r,
     prepare_latents batch s = (r, s') ->
     exists evs,
       appends s s' evs /\
       Forall (fun e => tiled_codec_event e = true) evs /\
       match r with
       | Ok _ => hd_error evs = Some EvEnableTiling /\ vae_tiling s' = false
       | Raise e =>
           e = EinopsError /\ evs = [] /\ vae_tiling s' = vae_tiling s \/
           e <> EinopsError /\ hd_error evs = Some EvEnableTiling /\
           vae_tiling s' = true
       end) /\
  (forall (save_dir : string) (rank : Z) (loader : list Batch) (s : State)
          (k : nat) (sk : State),
     entry_states loader (loop_body save_dir rank) s !! S k = Some sk ->
     vae_tiling sk = false).
Proof.
  split.
  - intros batch s s' r Hrun.
    destruct (prepare_latents_spec _ _ _ _ Hrun) as (_ & evs & Happ & Hcodec & Hspec).
    exists evs. repeat split; try assumption.
    destruct r as [[[rl ul] obg]|e].
    + destruct Hspec as (? & ? & _). auto.
    + destruct Hspec as (_ & ? & _). assumption.
  - intros save_dir rank loader s k sk Hk.
    assert (exists sp, entry_states loader (loop_body save_dir rank) s !! k = Some sp)
      as [sp Hp].
    { apply lookup_lt_is_Some. apply lookup_lt_Some in Hk. lia. }
    destruct (entry_states_step _ _ _ _ _ _ Hp Hk) as (batch & _ & Hrun).
    now apply loop_body_frame in Hrun as (_ & _ & ->).
Qed.

(** ** The whole run *)

Lemma main_setup_spec (ckpt_exists : bool) (sp_size dist_rank : Z) (s s1 : State)
    (r : Outcome (string * Z * list Batch)) :
  main_setup ckpt_exists sp_size dist_rank s = (r, s1) ->
  exists evs,
    appends s s1 evs /\
    predict_calls evs = [] /\ List.filter is_write evs = [] /\
    match r with
    | Ok (save_dir, rank, loader) =>
        save_dir = resolve_save_path (st_args s) /\
        rank = resolve_rank sp_size dist_rank /\
        st_args s1 = sampler_args (st_args s) /\
        loader = dataset_items (select_modality (st_args s1)) (st_args s1)
    | Raise e =>
        st_args s1 = st_args s /\
        (e = ValueError_models_root /\ ckpt_exists = false /\ s1 = s \/
         e = MakedirsRaised /\ ckpt_exists = true /\
         (save_path (st_args s) ∉ fs s) /\
         evs = [EvMakedirs (resolve_save_path (st_args s))])
    end.
Proof.
  unfold main_setup. unfold_driver. intros Hrun.
  cbn [st_args fs events vae_tiling world] in Hrun.
  destruct ckpt_exists; cbn [st_args fs events vae_tiling world] in Hrun.
  - destruct (bool_decide _) eqn:Hbase;
      cbn [st_args fs events vae_tiling world] in Hrun.
    + rewrite json_loader_all in Hrun; injection Hrun as <- <-.
      exists []. unfold appends. simpl. rewrite app_nil_r. repeat split; reflexivity.
    + apply bool_decide_eq_false_1 in Hbase.
      destruct (String.eqb _ "");
        [|destruct (os_makedirs _ _ _) as [w [created []]]];
        cbn [st_args fs events vae_tiling world] in Hrun;
        rewrite ?json_loader_all in Hrun; injection Hrun as <- <-;
        eexists [_]; unfold appends; simpl; repeat split; auto.
  - injection Hrun as <- <-. exists []. unfold appends. simpl. rewrite app_nil_r.
    repeat split; auto.
Qed.

(** The set-up does nothing to the outside but, at most, call
    [os.makedirs] on the directory of line 27. *)
Lemma main_setup_events (ckpt_exists : bool) (sp_size dist_rank : Z) (s s1 : State)
    (r : Outcome (string * Z * list Batch)) :
  main_setup ckpt_exists sp_size dist_rank s = (r, s1) ->
  appends s s1 [] \/
  appends s s1 [EvMakedirs (resolve_save_path (st_args s))].
Proof.
  unfold main_setup. unfold_driver. intros Hrun.
  cbn [st_args fs events vae_tiling world] in Hrun.
  destruct ckpt_exists; cbn [st_args fs events vae_tiling world] in Hrun.
  - destruct (bool_decide _); cbn [st_args fs events vae_tiling world] in Hrun.
    + rewrite json_loader_all in Hrun; injection Hrun as <- <-.
      left. unfold appends. simpl. now rewrite app_nil_r.
    + destruct (String.eqb _ "");
        [|destruct (os_makedirs _ _ _) as [w [created []]]];
        cbn [st_args fs events vae_tiling world] in Hrun;
        rewrite ?json_loader_all in Hrun; injection Hrun as <- <-;
        right; reflexivity.
  - injection Hrun as <- <-. left. apply appends_refl.
Qed.

(** The loop calls [predict] for the records in loader order, one call per
    record, until it returns or an iteration raises. *)
Lemma for_each_calls (save_dir : string) (rank : Z) (loader : list Batch)
    (s s' : State) (r : Outcome unit) :
  for_each loader (loop_body save_dir rank) s = (r, s') ->
  exists evs,
    appends s s' evs /\
    (rank <> 0%Z -> List.filter is_write evs = []) /\
    exists reached,
      reached `prefix_of` loader /\
      Forall2 request_of (predict_calls evs) reached /\
      (r = Ok tt -> reached = loader).
Proof.
  revert s. induction loader as [|batch loader IH]; intros s Hrun.
  - injection Hrun as <- <-. exists []. split; [apply appends_refl|].
    split; [reflexivity|]. exists [].
    split; [apply prefix_nil|]. split; [constructor | reflexivity].
  - simpl in Hrun. unfold bind in Hrun.
    destruct (loop_body save_dir rank batch s) as [[[]|e] s1] eqn:Hbody.
    + destruct (loop_body_trace _ _ _ _ _ _ Hbody)
        as (_ & _ & prep & calls & writes & _ & _ & _ & Happ & _).
      destruct (loop_body_calls _ _ _ _ _ _ _ Hbody Happ) as (Hw & _ & Hcall).
      destruct (Hcall eq_refl) as [latents Hreq].
      destruct (IH _ Hrun) as (evs & Happ2 & Hw2 & reached & Hpre & Hall & Hdone).
      exists ((prep ++ calls ++ writes) ++ evs).
      split; [eauto using appends_trans|]. split.
      * intros Hne. now rewrite List.filter_app, Hw, Hw2.
      * exists (batch :: reached). split; [now apply prefix_cons|].
        rewrite predict_calls_app, Hreq. split.
        -- constructor; [red; eauto | exact Hall].
        -- intros Hr. now rewrite Hdone.
    + injection Hrun as <- <-.
      destruct (loop_body_trace _ _ _ _ _ _ Hbody)
        as (_ & _ & prep & calls & writes & _ & _ & _ & Happ & _).
      destruct (loop_body_calls _ _ _ _ _ _ _ Hbody Happ) as (Hw & Hcall & _).
      exists (prep ++ calls ++ writes). split; [exact Happ|]. split; [exact Hw|].
      destruct Hcall as [[_ Hnone]|[latents Hreq]].
      * exists []. rewrite Hnone.
        split; [apply prefix_nil|]. split; [constructor | discriminate].
      * exists [batch]. rewrite Hreq. split; [apply prefix_cons, prefix_nil|].
        split; [|discriminate]. constructor; [red; eauto | constructor].
Qed.

(** Without [args.video_condition] the loop leaves [args] alone and every
    request carries its size and frame count. *)
Lemma for_each_plain (save_dir : string) (rank : Z) (loader : list Batch)
    (s s' : State) (r : Outcome unit) :
  video_condition (st_args s) = false ->
  for_each loader (loop_body save_dir rank) s = (r, s') ->
  exists evs,
    appends s s' evs /\ st_args s' = st_args s /\
    Forall (fun req => req_size req = video_size (st_args s) /\
                       req_video_length req = sample_n_frames (st_args s))
           (predict_calls evs).
Proof.
  revert s. induction loader as [|batch loader IH]; intros s Hvideo Hrun.
  - injection Hrun as <- <-. exists []. split; [apply appends_refl|].
    split; [reflexivity | constructor].
  - simpl in Hrun. unfold bind in Hrun.
    destruct (loop_body save_dir rank batch s) as [ro s1] eqn:Hbody.
    destruct (loop_body_trace _ _ _ _ _ _ Hbody)
      as (_ & _ & prep & calls & writes & _ & _ & _ & Happ & _).
    destruct (loop_body_calls _ _ _ _ _ _ _ Hbody Happ) as (_ & Hcall & _).
    destruct (loop_body_frame _ _ _ _ _ _ Hbody) as (Hv & Hargs & _).
    specialize (Hargs Hvideo).
    assert (Forall (fun req => req_size req = video_size (st_args s) /\
                       req_video_length req = sample_n_frames (st_args s))
              (predict_calls (prep ++ calls ++ writes))) as Hhere.
    { destruct Hcall as [[_ ->]|[[[rl ul] obg] ->]]; [constructor|].
      rewrite Hargs. repeat constructor. }
    destruct ro as [[]|e].
    + destruct (IH s1) as (evs & Happ2 & Ha2 & Hall); [congruence | exact Hrun |].
      exists ((prep ++ calls ++ writes) ++ evs).
      split; [eauto using appends_trans|]. split; [congruence|].
      rewrite predict_calls_app. apply Forall_app. split; [exact Hhere|].
      now rewrite <- Hargs.
    + injection Hrun as <- <-. eauto.
Qed.

(** C3. Writes of the emission ([save_videos_grid], [os.system]) occur only
    in a process whose resolved rank is 0.  Whatever the rank, [predict] is
    called for the records of the loader in order, once per record, with
    the request built for that record: for all of them when the run
    returns, and up to the record at which an exception ended the run
    otherwise. *)
Theorem c3_rank_gates_writes_only (ckpt_exists : bool) (sp_size dist_rank : Z)
    (s s' : State) (r : Outcome unit) (evs : list Event) :
  main ckpt_exists sp_size dist_rank s = (r, s') ->
  appends s s' evs ->
  (resolve_rank sp_size dist_rank <> 0%Z -> List.filter is_write evs = []) /\
  exists reached,
    reached `prefix_of`
      dataset_items (select_modality (sampler_args (st_args s)))
        (sampler_args (st_args s)) /\
    Forall2 request_of (predict_calls evs) reached /\
    (r = Ok tt ->
     reached = dataset_items (select_modality (sampler_args (st_args s)))
                 (sampler_args (st_args s))).
Proof.
  unfold main, bind. intros Hrun Happ.
  destruct (main_setup ckpt_exists sp_size dist_rank s)
    as [[[[save_dir rank] loader]|e] s1] eqn:Hsetup.
  - destruct (main_setup_spec _ _ _ _ _ _ Hsetup)
      as (evs0 & Happ0 & Hcalls0 & Hw0 & -> & -> & Hargs & ->).
    destruct (for_each_calls _ _ _ _ _ _ Hrun)
      as (evs1 & Happ1 & Hw1 & reached & Hpre & Hall & Hdone).
    rewrite (appends_inj _ _ _ _ Happ (appends_trans _ _ _ _ _ Happ0 Happ1)).
    rewrite List.filter_app, predict_calls_app, Hcalls0, Hw0. simpl.
    rewrite Hargs in *. split; [exact Hw1|]. exists reached. auto.
  - injection Hrun as <- <-.
    destruct (main_setup_spec _ _ _ _ _ _ Hsetup) as (evs0 & Happ0 & Hcalls0 & Hw0 & _).
    rewrite (appends_inj _ _ _ _ Happ Happ0), Hcalls0, Hw0.
    split; [reflexivity|]. exists [].
    split; [apply prefix_nil|]. split; [constructor | discriminate].
Qed.

(** C7. In a run without background conditioning every request passed to
    [predict] carries the configured [args.video_size] and
    [args.sample_n_frames], those of the [args] the sampler handed back on
    line 41. *)
Theorem c7_configured_geometry_kept (ckpt_exists : bool) (sp_size dist_rank : Z)
    (s s' : State) (r : Outcome unit) (evs : list Event) :
  video_condition (sampler_args (st_args s)) = false ->
  main ckpt_exists sp_size dist_rank s = (r, s') ->
  appends s s' evs ->
  Forall (fun req =>
            req_size req = video_size (sampler_args (st_args s)) /\
            req_video_length req = sample_n_frames (sampler_args (st_args s)))
         (predict_calls evs).
Proof.
  unfold main, bind. intros Hvideo Hrun Happ.
  destruct (main_setup ckpt_exists sp_size dist_rank s)
    as [[[[save_dir rank] loader]|e] s1] eqn:Hsetup.
  - destruct (main_setup_spec _ _ _ _ _ _ Hsetup)
      as (evs0 & Happ0 & Hcalls0 & _ & _ & _ & Hargs & _).
    rewrite <- Hargs in *.
    destruct (for_each_plain _ _ _ _ _ _ Hvideo Hrun) as (evs1 & Happ1 & _ & Hall).
    rewrite (appends_inj _ _ _ _ Happ (appends_trans _ _ _ _ _ Happ0 Happ1)).
    now rewrite predict_calls_app, Hcalls0.
  - injection Hrun as <- <-.
    destruct (main_setup_spec _ _ _ _ _ _ Hsetup) as (evs0 & Happ0 & Hcalls0 & _).
    rewrite (appends_inj _ _ _ _ Happ Happ0), Hcalls0. constructor.
Qed.

(** ** The run-wide [args] across records *)

(** The loop over [pre ++ post] is the loop over [pre], then, unless that
    raised, the loop over [post] from the state it left. *)
Lemma for_each_app {A} (pre post : list A) (body : A -> M unit) (s : State) :
  for_each (pre ++ post) body s =
  match for_each pre body s with
  | (Ok _, s1) => for_each post body s1
  | (Raise e, s1) => (Raise e, s1)
  end.
Proof.
  revert s. induction pre as [|x pre IH]; intros s; [reflexivity|].
  simpl. unfold bind. destruct (body x s) as [[[]|e] s1]; [apply IH | reflexivity].
Qed.

(** The loop never assigns [args.video_condition]. *)
Lemma for_each_video (save_dir : string) (rank : Z) (loader : list Batch)
    (s s' : State) (r : Outcome unit) :
  for_each loader (loop_body save_dir rank) s = (r, s') ->
  video_condition (st_args s') = video_condition (st_args s).
Proof.
  revert s. induction loader as [|batch loader IH]; intros s Hrun.
  - now injection Hrun as _ <-.
  - simpl in Hrun. unfold bind in Hrun.
    destruct (loop_body save_dir rank batch s) as [[[]|e] s1] eqn:Hbody;
      destruct (loop_body_frame _ _ _ _ _ _ Hbody) as (Hv & _).
    + rewrite (IH _ Hrun). exact Hv.
    + now injection Hrun as _ <-.
Qed.

(** C10. Under background conditioning the geometry derived for a record is
    written into the run-wide [args] and stays there.  Take a run of [main]
    whose loader is [pre ++ batch :: post] and in which the records of
    [pre] and then [batch] have been processed: the state then reached
    holds, in [args], the [video_size] and [sample_n_frames] derived from
    the background latents of the request made for [batch], in place of
    those it held before; and the run is the loop over the remaining
    records [post] started in that very state, so that the next record
    starts from the overwritten [args], and they are what the run ends
    with when [batch] is the last record. *)
Theorem c10_geometry_written_to_args (ckpt_exists : bool) (sp_size dist_rank : Z)
    (save_dir : string) (rank : Z) (pre post : list Batch) (batch : Batch)
    (s s0 sk sk1 : State) :
  video_condition (sampler_args (st_args s)) = true ->
  main_setup ckpt_exists sp_size dist_rank s =
    (Ok (save_dir, rank, pre ++ batch :: post), s0) ->
  for_each pre (loop_body save_dir rank) s0 = (Ok tt, sk) ->
  loop_body save_dir rank batch sk = (Ok tt, sk1) ->
  (exists req b0 c0 t h w,
     last (predict_calls (events sk1)) = Some req /\
     request_of req batch /\
     req_bg_latents req = Some [b0; c0; t; h; w] /\
     st_args sk1 =
       set_geometry (st_args sk) [(h * 8)%Z; (w * 8)%Z] ((t - 1) * 4 + 1)%Z /\
     video_size (st_args sk1) = [(h * 8)%Z; (w * 8)%Z] /\
     sample_n_frames (st_args sk1) = ((t - 1) * 4 + 1)%Z) /\
  main ckpt_exists sp_size dist_rank s =
    for_each post (loop_body save_dir rank) sk1 /\
  (post = [] -> main ckpt_exists sp_size dist_rank s = (Ok tt, sk1)) /\
  (forall next rest, post = next :: rest ->
     hd_error (entry_states post (loop_body save_dir rank) sk1) = Some sk1 /\
     main ckpt_exists sp_size dist_rank s =
       match loop_body save_dir rank next sk1 with
       | (Ok _, s2) => for_each rest (loop_body save_dir rank) s2
       | (Raise e, s2) => (Raise e, s2)
       end).
Proof.
  intros Hvideo Hsetup Hpre Hrun.
  assert (main ckpt_exists sp_size dist_rank s =
          for_each post (loop_body save_dir rank) sk1) as Hmain.
  { unfold main, bind. rewrite Hsetup, for_each_app, Hpre. simpl. unfold bind.
    now rewrite Hrun. }
  split; [|split; [exact Hmain|split]].
  - destruct (main_setup_spec _ _ _ _ _ _ Hsetup) as (_ & _ & _ & _ & _ & _ & Hargs & _).
    assert (video_condition (st_args sk) = true) as Hvk.
    { rewrite (for_each_video _ _ _ _ _ _ Hpre), Hargs. exact Hvideo. }
    apply loop_body_trace in Hrun
      as (rp & s1 & prep & calls & writes & Hprep & _ & Hcodec & Happ & Hw
          & _ & Ha & _ & Hout).
    destruct (prepare_latents_spec _ _ _ _ Hprep) as (_ & prep' & _ & _ & Hspec).
    destruct rp as [[[rl ul] obg]|e]; [|destruct Hout as [[=] _]].
    destruct Hout as [-> _]. destruct Hspec as (_ & _ & Hgeo). rewrite Hvk in Hgeo.
    destruct Hgeo as (bgl & maskl & b0 & c0 & t & h & w & _ & _ & _ & -> & Hargs').
    destruct (write_events_quiet EncBg _ Hw) as [Hnocall _].
    eexists _, b0, c0, t, h, w.
    unfold appends in Happ. rewrite Happ, !predict_calls_app, Hnocall, app_nil_r.
    simpl. rewrite app_assoc, last_snoc, Ha, Hargs'.
    repeat split; try reflexivity.
    exists (set_geometry (st_args sk) [(h * 8)%Z; (w * 8)%Z] ((t - 1) * 4 + 1)%Z),
      (rl, ul, Some [b0; c0; t; h; w]). reflexivity.
  - intros ->. exact Hmain.
  - intros next rest ->. split; [reflexivity | exact Hmain].
Qed.

(** ** Emission *)

Lemma list_ascii_of_append (a b : string) :
  list_ascii_of_string (a +:+ b) = list_ascii_of_string a ++ list_ascii_of_string b.
Proof.
  induction a as [|c a IH]; [reflexivity|].
  simpl. now rewrite IH.
Qed.

Lemma shell_literal_append (a b : string) :
  shell_literal (a +:+ b) = shell_literal a && shell_literal b.
Proof.
  unfold shell_literal. now rewrite list_ascii_of_append, existsb_app, negb_orb.
Qed.

Lemma length_append (a b : string) :
  String.length (a +:+ b) = String.length a + String.length b.
Proof. induction a as [|c a IH]; simpl; [reflexivity|]. now rewrite IH. Qed.

Lemma silent_muxed_differ (save_dir : string) (batch : Batch) :
  silent_path save_dir batch <> muxed_path save_dir batch.
Proof.
  unfold silent_path, muxed_path. intros Heq.
  apply (f_equal String.length) in Heq. rewrite !length_append in Heq.
  simpl in Heq. lia.
Qed.

Lemma starts_with_dash_path (save_dir rest : string) :
  starts_with_dash (save_dir +:+ "/" +:+ rest) = starts_with_dash save_dir.
Proof. destruct save_dir; reflexivity. Qed.

(** C5 (amended). For an audio-conditioned record with an audio path, with
    paths that the shell quoting keeps as they are and a directory whose
    name does not begin with a dash: when the pass of the emission loop
    returns, the silent intermediate no longer exists, whether [ffmpeg]
    succeeded or failed; after a successful mux the muxed file exists. *)
Theorem c5_silent_removed_muxed_kept (save_dir : string) (batch : Batch)
    (sample : Shape) (audio : string) (s s' : State) :
  audio_condition (st_args s) = true ->
  audio_path batch = Some audio ->
  shell_literal save_dir = true ->
  shell_literal (data_name batch) = true ->
  shell_literal audio = true ->
  starts_with_dash save_dir = false ->
  emit_sample save_dir batch sample s = (Ok tt, s') ->
  (silent_path save_dir batch ∉ fs s') /\
  (snd (ffmpeg
          (fst (video_writer (world s) (silent_path save_dir batch) (fs s)))
          (silent_path save_dir batch) audio (muxed_path save_dir batch)) = true ->
   muxed_path save_dir batch ∈ fs s').
Proof.
  intros Haudio Hpath Hdir Hname Hwav Hdash.
  unfold emit_sample. unfold_driver.
  cbn [st_args fs events vae_tiling world].
  destruct (video_writer _ _ _) as [w0 [|partial]];
    cbn [st_args fs events vae_tiling world fst]; [|discriminate].
  rewrite Haudio, Hpath. cbn [st_args fs events vae_tiling world].
  destruct (has_nul _); [discriminate|].
  assert (shell_literal (silent_path save_dir batch) = true) as ->.
  { unfold silent_path. rewrite !shell_literal_append, Hdir, Hname. reflexivity. }
  assert (shell_literal (muxed_path save_dir batch) = true) as ->.
  { unfold muxed_path. rewrite !shell_literal_append, Hdir, Hname. reflexivity. }
  assert (starts_with_dash (silent_path save_dir batch) = false) as ->.
  { unfold silent_path. now rewrite starts_with_dash_path. }
  rewrite Hwav. simpl.
  pose proof (silent_muxed_differ save_dir batch) as Hne.
  destruct (ffmpeg _ _ _ _) as [w muxed]. intros [= <-]. simpl.
  split.
  - intros [_ Hn]%elem_of_difference. apply Hn. now apply elem_of_singleton.
  - intros ->. apply elem_of_difference. split.
    + apply elem_of_union. left. now apply elem_of_singleton.
    + rewrite elem_of_singleton. congruence.
Qed.

(** The set-up creates the directory of line 27 exactly when the base path of
    [args.save_path] is missing; otherwise it leaves the file system alone. *)
Lemma main_setup_directory (ckpt_exists : bool) (sp_size dist_rank : Z)
    (s s1 : State) (v : string * Z * list Batch) :
  main_setup ckpt_exists sp_size dist_rank s = (Ok v, s1) ->
  if bool_decide (save_path (st_args s) ∈ fs s) then fs s1 = fs s
  else exists created,
         fs s1 = {[ resolve_save_path (st_args s) ]} ∪ created ∪ fs s.
Proof.
  unfold main_setup. unfold_driver. intros Hrun.
  cbn [st_args fs events vae_tiling world] in Hrun.
  destruct ckpt_exists; cbn [st_args fs events vae_tiling world] in Hrun;
    [|discriminate].
  destruct (bool_decide _); cbn [st_args fs events vae_tiling world] in Hrun.
  - rewrite json_loader_all in Hrun. now injection Hrun as _ <-.
  - destruct (String.eqb _ ""); [discriminate|].
    destruct (os_makedirs _ _ _) as [w [created []]];
      cbn [st_args fs events vae_tiling world] in Hrun; [|discriminate].
    rewrite json_loader_all in Hrun. injection Hrun as _ <-. simpl. eauto.
Qed.

(** ** More on latent preparation *)

(** X1. A latent preparation that returns has made exactly these codec
    calls, in this order: tiling on, the reference as a one-frame clip, a
    clip of the same shape (the all-ones one), under [args.video_condition]
    the background clip and the mask, tiling off.  The latents it returns
    are what the codec returned, the background ones concatenated. *)
Theorem prepare_latents_return_trace (batch : Batch) (s s' : State)
    (ref_latents uncond_ref_latents : Shape) (bg_latents : option Shape) :
  prepare_latents batch s = (Ok (ref_latents, uncond_ref_latents, bg_latents), s') ->
  exists x,
    rearrange_bchw_bc1hw (pixel_value_ref batch) = Some x /\
    fs s' = fs s /\
    if video_condition (st_args s) then
      exists bg mask bgl maskl,
        pixel_value_bg batch = Some bg /\
        pixel_value_mask batch = Some mask /\
        Torch.cat_dim1 bgl maskl = bg_latents /\
        appends s s'
          [EvEnableTiling;
           EvEncode EncRef true x (Some ref_latents);
           EvEncode EncUncondRef true x (Some uncond_ref_latents);
           EvEncode EncBg true bg (Some bgl);
           EvEncode EncMask true mask (Some maskl);
           EvDisableTiling]
    else
      bg_latents = None /\
      appends s s'
        [EvEnableTiling;
         EvEncode EncRef true x (Some ref_latents);
         EvEncode EncUncondRef true x (Some uncond_ref_latents);
         EvDisableTiling].
Proof.
  intros Hrun. unfold_driver. simpl in Hrun.
  split_paths; try discriminate.
  all: subst.
  all: eexists; split; [reflexivity|]; split; [reflexivity|].
  - do 4 eexists. repeat split; try eassumption.
    unfold appends. simpl. now rewrite <- !app_assoc.
  - split; [reflexivity|]. unfold appends. simpl. now rewrite <- !app_assoc.
Qed.

Lemma rearrange_needs_4d (x : Shape) :
  length x <> 4 -> rearrange_bchw_bc1hw x = None.
Proof.
  destruct x as [|b [|c [|h [|w [|]]]]]; simpl; intros Hlen;
    try reflexivity; lia.
Qed.

(** What latent preparation can raise. *)
Lemma prepare_latents_raises (batch : Batch) (s s' : State)
    (r : Outcome (Shape * Shape * option Shape)) :
  prepare_latents batch s = (r, s') ->
  match r with
  | Ok _ => True
  | Raise e =>
      e = EinopsError \/ e = EncodeRaised \/
      video_condition (st_args s) = true /\
      (e = KeyError "pixel_value_bg" \/ e = KeyError "pixel_value_mask" \/
       e = CatRuntimeError \/ e = UnpackValueError)
  end.
Proof.
  intros Hrun. unfold_driver. simpl in Hrun.
  split_paths; auto 10.
Qed.

Lemma prepare_latents_missing_bg (batch : Batch) (s s' : State)
    (r : Outcome (Shape * Shape * option Shape)) :
  video_condition (st_args s) = true ->
  pixel_value_bg batch = None ->
  prepare_latents batch s = (r, s') ->
  exists evs,
    appends s s' evs /\
    encoded EncBg evs = [] /\ encoded EncMask evs = [] /\
    (r = Raise EinopsError \/ r = Raise EncodeRaised \/
     r = Raise (KeyError "pixel_value_bg") /\ vae_tiling s' = true /\
     exists rl ul,
       encoded EncRef evs = [Some rl] /\ encoded EncUncondRef evs = [Some ul]).
Proof.
  intros Hvideo Hbg Hrun. unfold_driver. simpl in Hrun.
  split_paths; subst; try congruence; give_events; simpl; repeat split; eauto 10.
Qed.

Lemma prepare_latents_missing_mask (batch : Batch) (s s' : State)
    (r : Outcome (Shape * Shape * option Shape)) (bg : Shape) :
  video_condition (st_args s) = true ->
  pixel_value_bg batch = Some bg ->
  pixel_value_mask batch = None ->
  prepare_latents batch s = (r, s') ->
  exists evs,
    appends s s' evs /\
    encoded EncMask evs = [] /\
    (r = Raise EinopsError \/ r = Raise EncodeRaised \/
     r = Raise (KeyError "pixel_value_mask") /\ vae_tiling s' = true /\
     exists bgl, encoded EncBg evs = [Some bgl]).
Proof.
  intros Hvideo Hbg Hmask Hrun. unfold_driver. simpl in Hrun.
  split_paths; subst; try congruence; give_events; simpl; repeat split; eauto 10.
Qed.

Lemma loop_body_raise_in_preparation (save_dir : string) (rank : Z)
    (batch : Batch) (s s' : State) (e : Exn) :
  prepare_latents batch s = (Raise e, s') ->
  loop_body save_dir rank batch s = (Raise e, s').
Proof. intros Hprep. now rewrite loop_body_unfold, Hprep. Qed.

(** X2. Under [args.video_condition] a record without the key
    ['pixel_value_bg'] never reaches the sampler: unless the reference
    tensor or a reference encode fails first, the two reference encodes are
    made and line 70 raises the [KeyError], which leaves with tiling on.
    The same holds for a record that has the background but not
    ['pixel_value_mask'], after the background has been encoded. *)
Theorem missing_background_key_raises (save_dir : string) (rank : Z)
    (batch : Batch) (s s' : State) (r : Outcome unit) (evs : list Event) :
  video_condition (st_args s) = true ->
  pixel_value_bg batch = None \/ pixel_value_mask batch = None ->
  loop_body save_dir rank batch s = (r, s') ->
  appends s s' evs ->
  predict_calls evs = [] /\ List.filter is_write evs = [] /\
  encoded EncMask evs = [] /\
  (r = Raise EinopsError \/ r = Raise EncodeRaised \/
   vae_tiling s' = true /\
   (pixel_value_bg batch = None /\ r = Raise (KeyError "pixel_value_bg") /\
    encoded EncBg evs = [] /\
    (exists rl ul,
       encoded EncRef evs = [Some rl] /\ encoded EncUncondRef evs = [Some ul])
    \/
    pixel_value_mask batch = None /\ r = Raise (KeyError "pixel_value_mask") /\
    exists bgl, encoded EncBg evs = [Some bgl])).
Proof.
  intros Hvideo Hmissing Hrun Happ.
  destruct (prepare_latents batch s) as [rp s1] eqn:Hprep.
  destruct (prepare_latents_spec _ _ _ _ Hprep) as (_ & prep & Happ1 & Hcodec & _).
  destruct (codec_events_quiet _ Hcodec) as [Hnocall Hnowrite].
  assert (exists e, rp = Raise e /\
            encoded EncMask prep = [] /\
            (e = EinopsError \/ e = EncodeRaised \/
             vae_tiling s1 = true /\
             (pixel_value_bg batch = None /\ e = KeyError "pixel_value_bg" /\
              encoded EncBg prep = [] /\
              (exists rl ul, encoded EncRef prep = [Some rl] /\
                             encoded EncUncondRef prep = [Some ul])
              \/
              pixel_value_mask batch = None /\ e = KeyError "pixel_value_mask" /\
              exists bgl, encoded EncBg prep = [Some bgl])))
    as (e & -> & Hmask & He).
  { destruct (pixel_value_bg batch) as [bg|] eqn:Hbg.
    - destruct Hmissing as [[=]|Hm].
      destruct (prepare_latents_missing_mask _ _ _ _ _ Hvideo Hbg Hm Hprep)
        as (evs' & Happ' & Hmask & Hr).
      rewrite <- (appends_inj _ _ _ _ Happ1 Happ') in *.
      destruct Hr as [->|[->|(-> & Ht & Hbgl)]]; eexists; eauto 10.
    - destruct (prepare_latents_missing_bg _ _ _ _ Hvideo Hbg Hprep)
        as (evs' & Happ' & Hnobg & Hmask & Hr).
      rewrite <- (appends_inj _ _ _ _ Happ1 Happ') in *.
      destruct Hr as [->|[->|(-> & Ht & Href)]]; eexists; eauto 10. }
  rewrite (loop_body_raise_in_preparation _ _ _ _ _ _ Hprep) in Hrun.
  injection Hrun as <- <-.
  rewrite (appends_inj _ _ _ _ Happ Happ1).
  repeat split; try assumption.
  destruct He as [->|[->|(Ht & He)]]; auto.
  right. right. split; [exact Ht|].
  destruct He as [(? & -> & ?)|(? & -> & ?)]; auto.
Qed.

(** X3. A reference tensor that is not 4-dimensional makes line 64 raise
    before anything else happens: the codec is not touched, tiling keeps
    its state, nothing is logged or written. *)
Theorem reference_not_4d_raises_untouched (save_dir : string) (rank : Z)
    (batch : Batch) (s : State) :
  length (pixel_value_ref batch) <> 4 ->
  loop_body save_dir rank batch s = (Raise EinopsError, s).
Proof.
  intros Hlen. apply loop_body_raise_in_preparation.
  unfold prepare_latents, bind, raise.
  now rewrite (rearrange_needs_4d _ Hlen).
Qed.

(** ** More on one iteration *)

(** An iteration that ends with the error of [predict] has not written. *)
Lemma loop_body_predict_raise_fs (save_dir : string) (rank : Z) (batch : Batch)
    (s s' : State) :
  loop_body save_dir rank batch s = (Raise PredictRaised, s') -> fs s' = fs s.
Proof.
  rewrite loop_body_unfold. intros Hrun.
  destruct (prepare_latents batch s) as [[latents|e0] s1] eqn:Hprep;
    destruct (prepare_latents_spec _ _ _ _ Hprep) as (Hfs & _).
  2: { now injection Hrun as _ <-. }
  remember (build_request (st_args s1) batch latents) as req eqn:Hreq.
  destruct (predict_spec req s1) as (w & o & _ & Hpred).
  rewrite Hpred in Hrun. destruct o as [samples|].
  - exfalso. destruct (Z.eqb rank 0); [|discriminate].
    destruct (emit_spec _ _ _ _ _ _ Hrun) as (_ & _ & _ & _ & _ & Hr).
    unfold emission_error in Hr. destruct Hr as [[=]|[[=]|[=]]].
  - injection Hrun as <-. exact Hfs.
Qed.

(** X4. When [predict] raises, the codec's tiling has already been switched
    off, the record's one request has been made, and nothing has been
    written: the file system is as the iteration found it. *)
Theorem predict_failure_leaves_no_output (save_dir : string) (rank : Z)
    (batch : Batch) (s s' : State) (evs : list Event) :
  loop_body save_dir rank batch s = (Raise PredictRaised, s') ->
  appends s s' evs ->
  vae_tiling s' = false /\
  fs s' = fs s /\
  List.filter is_write evs = [] /\
  exists latents, predict_calls evs = [build_request (st_args s') batch latents].
Proof.
  intros Hrun Happ.
  pose proof (loop_body_predict_raise_fs _ _ _ _ _ Hrun) as Hfs.
  apply loop_body_trace in Hrun
    as (rp & s1 & prep & calls & writes & Hprep & _ & Hcodec & Happ' & _ & _
        & Ha & Ht & Hout).
  rewrite (appends_inj _ _ _ _ Happ Happ'). clear Happ.
  destruct (codec_events_quiet _ Hcodec) as [Hnocall Hnowrite].
  pose proof (prepare_latents_raises _ _ _ _ Hprep) as Hraise.
  destruct (prepare_latents_spec _ _ _ _ Hprep) as (_ & prep' & _ & _ & Hspec).
  destruct rp as [[[rl ul] obg]|e].
  - destruct Hspec as (Htile & _).
    unfold emission_error in Hout.
    destruct Hout as [-> [[=]|[[_ ->]|[_ [[=]|[=]]]]]].
    rewrite Ht, Ha, predict_calls_app, Hnocall, !List.filter_app, Hnowrite.
    split; [exact Htile|]. split; [exact Hfs|]. split; [reflexivity|].
    now exists (rl, ul, obg).
  - exfalso. destruct Hout as ([= He] & _). rewrite <- He in Hraise.
    destruct Hraise as [[=]|[[=]|[_ [[=]|[[=]|[[=]|[=]]]]]]].
Qed.

(** After the sampler has returned, an iteration can only write; it returns
    unless, on rank 0, the emission raises. *)
Lemma loop_body_after_predict (save_dir : string) (rank : Z) (batch : Batch)
    (samples : list Shape) (s2 so : State) (r : Outcome unit) :
  (if Z.eqb rank 0 then for_each samples (emit_sample save_dir batch) s2
   else (Ok tt, s2)) = (r, so) ->
  (r = Ok tt \/ rank = 0%Z /\ emission_error r) /\
  (rank <> 0%Z -> so = s2) /\
  st_args so = st_args s2 /\ vae_tiling so = vae_tiling s2 /\
  exists writes, appends s2 so writes /\ Forall (fun e => is_write e = true) writes.
Proof.
  destruct (Z.eqb rank 0) eqn:Hrank.
  - apply Z.eqb_eq in Hrank. intros Hrun.
    destruct (emit_spec _ _ _ _ _ _ Hrun) as (ws & Happ & Hw & Ha & Ht & Hr).
    split; [tauto|]. split; [contradiction|]. eauto 10.
  - intros [= <- <-]. split; [now left|]. repeat split; auto.
    exists []. split; [apply appends_refl | constructor].
Qed.

(** X5. What an iteration asks of the codec and of the sampler does not
    depend on the rank: from the same state, two ranks end with the same
    [args] and tiling flag and the same events apart from the writes of the
    emission.  Their outcomes are the same unless one of them is the rank 0
    and its emission raised, the other rank then returning; two ranks other
    than 0 end in the same state. *)
Theorem iteration_independent_of_rank (save_dir : string) (rank1 rank2 : Z)
    (batch : Batch) (s s1 s2 : State) (r1 r2 : Outcome unit)
    (evs1 evs2 : list Event) :
  loop_body save_dir rank1 batch s = (r1, s1) ->
  loop_body save_dir rank2 batch s = (r2, s2) ->
  appends s s1 evs1 ->
  appends s s2 evs2 ->
  st_args s1 = st_args s2 /\
  vae_tiling s1 = vae_tiling s2 /\
  List.filter (fun e => negb (is_write e)) evs1 =
  List.filter (fun e => negb (is_write e)) evs2 /\
  (r1 = r2 \/
   rank1 = 0%Z /\ emission_error r1 /\ r2 = Ok tt \/
   rank2 = 0%Z /\ emission_error r2 /\ r1 = Ok tt) /\
  (rank1 <> 0%Z -> rank2 <> 0%Z -> r1 = r2 /\ s1 = s2).
Proof.
  rewrite !loop_body_unfold. intros Hrun1 Hrun2 Happ1 Happ2.
  assert (forall ws, Forall (fun e => is_write e = true) ws ->
            List.filter (fun e => negb (is_write e)) ws = []) as Hdrop.
  { induction 1 as [|e ws He _ IH]; [reflexivity|]. simpl. now rewrite He. }
  destruct (prepare_latents batch s) as [[latents|e] sp] eqn:Hprep.
  2: { injection Hrun1 as <- <-. injection Hrun2 as <- <-.
       rewrite (appends_inj _ _ _ _ Happ1 Happ2). auto 10. }
  destruct (predict _ sp) as [[samples|e] sm] eqn:Hpred.
  2: { injection Hrun1 as <- <-. injection Hrun2 as <- <-.
       rewrite (appends_inj _ _ _ _ Happ1 Happ2). auto 10. }
  pose proof Hrun1 as Hsame1. pose proof Hrun2 as Hsame2.
  apply loop_body_after_predict in Hrun1 as (Hr1 & Hs1 & Ha1 & Ht1 & w1 & Hw1 & Hall1).
  apply loop_body_after_predict in Hrun2 as (Hr2 & Hs2 & Ha2 & Ht2 & w2 & Hw2 & Hall2).
  split; [congruence|]. split; [congruence|]. split; [|split].
  - unfold appends in *.
    assert (exists base, events sm = events s ++ base) as [base Hbase].
    { destruct (prepare_latents_spec _ _ _ _ Hprep) as (_ & prep & Hp & _).
      destruct (predict_spec (build_request (st_args sp) batch latents) sp)
        as (w & o & _ & Hpred').
      rewrite Hpred in Hpred'. injection Hpred' as _ ->. simpl.
      unfold appends in Hp. rewrite Hp, <- app_assoc. eauto. }
    rewrite Hw1, Hbase, <- app_assoc in Happ1. apply app_inv_head in Happ1 as <-.
    rewrite Hw2, Hbase, <- app_assoc in Happ2. apply app_inv_head in Happ2 as <-.
    now rewrite !List.filter_app, (Hdrop _ Hall1), (Hdrop _ Hall2).
  - destruct Hr1 as [->|[-> Hr1]], Hr2 as [->|[-> Hr2]]; auto.
    left. rewrite Hsame1 in Hsame2. now injection Hsame2.
  - intros Hne1 Hne2. rewrite (Hs1 Hne1), (Hs2 Hne2). split; [|reflexivity].
    destruct Hr1 as [->|[? _]], Hr2 as [->|[? _]]; auto; contradiction.
Qed.

(** ** More on emission *)

(** One pass of the emission loop, event by event. *)
Lemma emit_sample_events (save_dir : string) (batch : Batch) (sample : Shape)
    (s s1 : State) (r : Outcome unit) :
  emit_sample save_dir batch sample s = (r, s1) ->
  st_args s1 = st_args s /\
  (shell_literal save_dir = true -> shell_literal (data_name batch) = true ->
   (forall audio, audio_path batch = Some audio -> shell_literal audio = true) ->
   forall p, p <> silent_path save_dir batch ->
             p <> muxed_path save_dir batch -> p ∈ fs s1 <-> p ∈ fs s) /\
  match audio_condition (st_args s), audio_path batch with
  | true, Some audio =>
      r = Raise SaveRaised /\
      appends s s1 [EvSaveVideo (silent_path save_dir batch)] \/
      (r = Ok tt \/ r = Raise OsSystemValueError) /\
      appends s s1
        [EvSaveVideo (silent_path save_dir batch);
         EvOsSystem (mux_command (silent_path save_dir batch) audio
                       (muxed_path save_dir batch))]
  | _, _ =>
      appends s s1 [EvSaveVideo (silent_path save_dir batch)] /\
      (r = Ok tt /\ fs s1 = {[ silent_path save_dir batch ]} ∪ fs s \/
       r = Raise SaveRaised)
  end.
Proof.
  unfold emit_sample. unfold_driver. cbn [st_args fs events vae_tiling world].
  intros Hrun. split_paths.
  all: split; [reflexivity|].
  all: split;
    [ intros Hdir Hname Haudio p Hp1 Hp2; cbn [fs]
    | repeat match goal with
        | H : audio_condition _ = _ |- _ => rewrite H; clear H
        | H : audio_path _ = _ |- _ => rewrite H; clear H
        end;
      try (destruct (audio_condition (st_args s)); [destruct (audio_path batch)|]);
      unfold appends; cbn [events]; rewrite <- ?app_assoc; simpl; auto 10 ].
  all: try (rewrite ?elem_of_difference, ?elem_of_union, ?elem_of_singleton; tauto).
  exfalso.
  match goal with
  | Hlit : shell_literal _ && shell_literal _ && shell_literal _ = false |- _ =>
      unfold silent_path, muxed_path in Hlit;
      rewrite !shell_literal_append, Hdir, Hname, (Haudio _ eq_refl) in Hlit;
      discriminate Hlit
  end.
Qed.

Lemma saved_paths_app (e1 e2 : list Event) :
  saved_paths (e1 ++ e2) = saved_paths e1 ++ saved_paths e2.
Proof. apply omap_app. Qed.

Lemma shell_commands_app (e1 e2 : list Event) :
  shell_commands (e1 ++ e2) = shell_commands e1 ++ shell_commands e2.
Proof. apply omap_app. Qed.

(** The writes of the emission loop of a record, counted. *)
Lemma emission_counts (save_dir : string) (batch : Batch)
    (samples : list Shape) (s s' : State) (r : Outcome unit) (evs : list Event) :
  for_each samples (emit_sample save_dir batch) s = (r, s') ->
  appends s s' evs ->
  exists k j,
    k <= length samples /\ (r = Ok tt -> k = length samples) /\
    saved_paths evs = repeat (silent_path save_dir batch) k /\
    (r = Raise SaveRaised -> k = S j) /\ (r <> Raise SaveRaised -> k = j) /\
    match audio_condition (st_args s), audio_path batch with
    | true, Some audio =>
        shell_commands evs =
          repeat (mux_command (silent_path save_dir batch) audio
                    (muxed_path save_dir batch)) j
    | _, _ =>
        shell_commands evs = [] /\ r <> Raise OsSystemValueError /\
        (r = Ok tt ->
         fs s' = match samples with
                 | [] => fs s
                 | _ :: _ => {[ silent_path save_dir batch ]} ∪ fs s
                 end)
    end.
Proof.
  revert s evs. induction samples as [|x samples IH]; intros s evs Hrun Happ.
  - injection Hrun as <- <-. rewrite (appends_inj _ _ _ _ Happ (appends_refl s)).
    exists 0, 0. repeat split; try reflexivity; try discriminate.
    destruct (audio_condition (st_args s)); [destruct (audio_path batch)|];
      repeat split; auto; discriminate.
  - simpl in Hrun. unfold bind in Hrun.
    destruct (emit_sample save_dir batch x s) as [r1 s1] eqn:Hone.
    destruct (emit_sample_events _ _ _ _ _ _ Hone) as (Ha & _ & Hev).
    destruct r1 as [[]|e1].
    + assert (exists rest, appends s1 s' rest) as [rest Hrest].
      { destruct (emit_spec _ _ _ _ _ _ Hrun) as (ws & Hws & _). eauto. }
      destruct (IH _ _ Hrun Hrest)
        as (k & j & Hk & Hdone & Hsaved & Hkj1 & Hkj2 & Hshell).
      rewrite Ha in Hshell. exists (S k), (S j).
      split; [simpl; lia|]. split; [intros Hok; simpl; now rewrite (Hdone Hok)|].
      destruct (audio_condition (st_args s)); [destruct (audio_path batch) as [audio|]|].
      * destruct Hev as [[[=] _]|[_ Hev]].
        rewrite (appends_inj _ _ _ _ Happ (appends_trans _ _ _ _ _ Hev Hrest)).
        rewrite saved_paths_app, shell_commands_app, Hsaved, Hshell.
        split; [reflexivity|]. split; [intros Hx; now rewrite (Hkj1 Hx)|].
        split; [intros Hx; now rewrite (Hkj2 Hx)|]. reflexivity.
      * destruct Hev as [Hev [[_ Hfs]|[=]]]. destruct Hshell as (Hshell & Hnul & Hfs').
        rewrite (appends_inj _ _ _ _ Happ (appends_trans _ _ _ _ _ Hev Hrest)).
        rewrite saved_paths_app, shell_commands_app, Hsaved, Hshell.
        split; [reflexivity|]. split; [intros Hx; now rewrite (Hkj1 Hx)|].
        split; [intros Hx; now rewrite (Hkj2 Hx)|].
        split; [reflexivity|]. split; [exact Hnul|].
        intros Hok. rewrite (Hfs' Hok). destruct samples; [exact Hfs|].
        rewrite Hfs. now rewrite (assoc_L (∪)), (idemp_L (∪)).
      * destruct Hev as [Hev [[_ Hfs]|[=]]]. destruct Hshell as (Hshell & Hnul & Hfs').
        rewrite (appends_inj _ _ _ _ Happ (appends_trans _ _ _ _ _ Hev Hrest)).
        rewrite saved_paths_app, shell_commands_app, Hsaved, Hshell.
        split; [reflexivity|]. split; [intros Hx; now rewrite (Hkj1 Hx)|].
        split; [intros Hx; now rewrite (Hkj2 Hx)|].
        split; [reflexivity|]. split; [exact Hnul|].
        intros Hok. rewrite (Hfs' Hok). destruct samples; [exact Hfs|].
        rewrite Hfs. now rewrite (assoc_L (∪)), (idemp_L (∪)).
    + injection Hrun as <- <-.
      destruct (audio_condition (st_args s)); [destruct (audio_path batch) as [audio|]|].
      * destruct Hev as [[[= ->] Hev]|[[[=]|[= ->]] Hev]];
          rewrite (appends_inj _ _ _ _ Happ Hev).
        -- exists 1, 0. simpl. repeat split; auto; try lia; try discriminate.
           intros Hx. now contradiction Hx.
        -- exists 1, 1. simpl. repeat split; auto; try lia; discriminate.
      * destruct Hev as [Hev [[[=] _]|[= ->]]]. rewrite (appends_inj _ _ _ _ Happ Hev).
        exists 1, 0. simpl. repeat split; auto; try lia; try discriminate.
        intros Hx. now contradiction Hx.
      * destruct Hev as [Hev [[[=] _]|[= ->]]]. rewrite (appends_inj _ _ _ _ Happ Hev).
        exists 1, 0. simpl. repeat split; auto; try lia; try discriminate.
        intros Hx. now contradiction Hx.
Qed.

(** X6. The emission loop of a record writes every sample to the one path
    [save_path/data_name.mp4]: [k] samples have been handed to the writer,
    all at that path, and [k] is the number of samples when the loop
    returns.  The loop returns unless the writer or [os.system] raises.
    For an audio-conditioned record with an audio path the one mux command
    has been run once for every sample written ([j] times, one less than
    [k] when the writer raised); otherwise the shell is never called, and
    when the loop returns the silent file exists as soon as there is a
    sample. *)
Theorem emission_reuses_one_path (save_dir : string) (batch : Batch)
    (samples : list Shape) (s s' : State) (r : Outcome unit) (evs : list Event) :
  for_each samples (emit_sample save_dir batch) s = (r, s') ->
  appends s s' evs ->
  (r = Ok tt \/ emission_error r) /\
  exists k j,
    k <= length samples /\ (r = Ok tt -> k = length samples) /\
    saved_paths evs = repeat (silent_path save_dir batch) k /\
    (r = Raise SaveRaised -> k = S j) /\ (r <> Raise SaveRaised -> k = j) /\
    match audio_condition (st_args s), audio_path batch with
    | true, Some audio =>
        shell_commands evs =
          repeat (mux_command (silent_path save_dir batch) audio
                    (muxed_path save_dir batch)) j
    | _, _ =>
        shell_commands evs = [] /\ r <> Raise OsSystemValueError /\
        (r = Ok tt ->
         fs s' = match samples with
                 | [] => fs s
                 | _ :: _ => {[ silent_path save_dir batch ]} ∪ fs s
                 end)
    end.
Proof.
  intros Hrun Happ. split.
  - now destruct (emit_spec _ _ _ _ _ _ Hrun) as (_ & _ & _ & _ & _ & Hr).
  - eapply emission_counts; eassumption.
Qed.




Lemma has_nul_append (a b : string) : has_nul (a +:+ b) = has_nul a || has_nul b.
Proof. unfold has_nul. now rewrite list_ascii_of_append, existsb_app. Qed.

(** The command line holds a null character exactly when one of the three
    paths does. *)
Lemma has_nul_mux_command (out_path audio out_audio_path : string) :
  has_nul (mux_command out_path audio out_audio_path) =
  has_nul out_path || has_nul audio || has_nul out_audio_path.
Proof.
  unfold mux_command. rewrite !has_nul_append.
  change (has_nul "ffmpeg -i '") with false.
  change (has_nul "' -i '") with false.
  change (has_nul "' -shortest '") with false.
  change (has_nul "' -y -loglevel quiet; rm '") with false.
  change (has_nul "'") with false.
  destruct (has_nul out_path), (has_nul audio), (has_nul out_audio_path); reflexivity.
Qed.

(** X14. A null character in the directory, in [data_name] or in the audio
    path of an audio-conditioned record makes [os.system] raise before any
    shell runs: unless the writer has failed first, the pass of the emission
    loop ends with that [ValueError], after the two calls, and the silent
    file that was just written stays. *)
Theorem null_character_stops_the_mux (save_dir : string) (batch : Batch)
    (sample : Shape) (audio : string) (s s' : State) (r : Outcome unit) :
  audio_condition (st_args s) = true ->
  audio_path batch = Some audio ->
  has_nul save_dir || has_nul (data_name batch) || has_nul audio = true ->
  emit_sample save_dir batch sample s = (r, s') ->
  r = Raise SaveRaised \/
  r = Raise OsSystemValueError /\
  fs s' = {[ silent_path save_dir batch ]} ∪ fs s /\
  appends s s'
    [EvSaveVideo (silent_path save_dir batch);
     EvOsSystem (mux_command (silent_path save_dir batch) audio
                   (muxed_path save_dir batch))].
Proof.
  intros Haudio Hpath Hnul.
  assert (has_nul (mux_command (silent_path save_dir batch) audio
                     (muxed_path save_dir batch)) = true) as Hcmd.
  { rewrite has_nul_mux_command. unfold silent_path, muxed_path.
    rewrite !has_nul_append.
    destruct (has_nul save_dir), (has_nul (data_name batch)), (has_nul audio);
      try discriminate Hnul; reflexivity. }
  unfold emit_sample. unfold_driver. cbn [st_args fs events vae_tiling world].
  destruct (video_writer _ _ _) as [w [|partial]];
    cbn [st_args fs events vae_tiling world].
  - rewrite Haudio, Hpath. cbn [st_args fs events vae_tiling world].
    rewrite Hcmd. intros [= <- <-]. right. split; [reflexivity|].
    split; [reflexivity|]. unfold appends. simpl. now rewrite <- app_assoc.
  - intros [= <- <-]. now left.
Qed.

(** X15. When the output directory begins with a dash, [rm] takes the path
    for an option and removes nothing: after a pass of the emission loop
    that returns, the silent file of an audio-conditioned record is still
    there. *)
Theorem dash_directory_keeps_silent_file (save_dir : string) (batch : Batch)
    (sample : Shape) (audio : string) (s s' : State) :
  audio_condition (st_args s) = true ->
  audio_path batch = Some audio ->
  shell_literal save_dir = true ->
  shell_literal (data_name batch) = true ->
  shell_literal audio = true ->
  starts_with_dash save_dir = true ->
  emit_sample save_dir batch sample s = (Ok tt, s') ->
  silent_path save_dir batch ∈ fs s'.
Proof.
  intros Haudio Hpath Hdir Hname Hwav Hdash.
  unfold emit_sample. unfold_driver.
  cbn [st_args fs events vae_tiling world].
  destruct (video_writer _ _ _) as [w0 [|partial]];
    cbn [st_args fs events vae_tiling world fst]; [|discriminate].
  rewrite Haudio, Hpath. cbn [st_args fs events vae_tiling world].
  destruct (has_nul _); [discriminate|].
  assert (shell_literal (silent_path save_dir batch) = true) as ->.
  { unfold silent_path. rewrite !shell_literal_append, Hdir, Hname. reflexivity. }
  assert (shell_literal (muxed_path save_dir batch) = true) as ->.
  { unfold muxed_path. rewrite !shell_literal_append, Hdir, Hname. reflexivity. }
  assert (starts_with_dash (silent_path save_dir batch) = true) as ->.
  { unfold silent_path. now rewrite starts_with_dash_path. }
  rewrite Hwav. simpl.
  destruct (ffmpeg _ _ _ _) as [w muxed]. intros [= <-]. simpl.
  destruct muxed; rewrite ?elem_of_union, !elem_of_singleton; auto.
Qed.

(** ** More on the request *)

Lemma cat_dim1_5d (b c1 t h w : Z) (maskl cat : Shape) :
  Torch.cat_dim1 [b; c1; t; h; w] maskl = Some cat ->
  length maskl = 5 ->
  exists c2, maskl = [b; c2; t; h; w] /\ cat = [b; (c1 + c2)%Z; t; h; w].
Proof.
  intros Hcat Hlen.
  destruct maskl as [|m [|c2 [|t2 [|h2 [|w2 [|]]]]]]; try discriminate Hlen.
  unfold Torch.cat_dim1, Torch.cat_dim1_checked in Hcat. simpl in Hcat.
  destruct (Z.eqb b m) eqn:Hb; [|discriminate].
  destruct (bool_decide _) eqn:Hrest; [|discriminate].
  apply Z.eqb_eq in Hb as <-. apply bool_decide_eq_true_1 in Hrest.
  injection Hrest as <- <- <-. injection Hcat as <-. eauto.
Qed.

(** X8. With a background latent [(b, c1, t, h, w)] and a 5-dimensional
    mask latent, a request is made only if the mask latent agrees on every
    axis but the channels; the background latents of the request then have
    [c1 + c2] channels. *)
Theorem request_background_channels_add (save_dir : string) (rank : Z)
    (batch : Batch) (s s' : State) (r : Outcome unit) (evs : list Event)
    (b c1 t h w : Z) (maskl : Shape) :
  loop_body save_dir rank batch s = (r, s') ->
  appends s s' evs ->
  encoded EncBg evs = [Some [b; c1; t; h; w]] ->
  encoded EncMask evs = [Some maskl] ->
  length maskl = 5 ->
  forall req, In req (predict_calls evs) ->
  exists c2,
    maskl = [b; c2; t; h; w] /\
    req_bg_latents req = Some [b; (c1 + c2)%Z; t; h; w].
Proof.
  intros Hrun Happ Hbg Hmask Hlen req Hreq.
  apply loop_body_trace in Hrun
    as (rp & s1 & prep & calls & writes & Hprep & Happ1 & Hcodec & Happ' & Hw
        & _ & _ & _ & Hout).
  rewrite (appends_inj _ _ _ _ Happ Happ') in *. clear Happ.
  destruct (prepare_latents_spec _ _ _ _ Hprep) as (_ & prep' & Happ2 & _ & Hspec).
  rewrite <- (appends_inj _ _ _ _ Happ1 Happ2) in Hspec. clear Happ2 prep'.
  destruct (codec_events_quiet _ Hcodec) as [Hnocall _].
  destruct (write_events_quiet EncBg _ Hw) as [Hnocall' Hnobg].
  destruct (write_events_quiet EncMask _ Hw) as [_ Hnomask].
  rewrite !predict_calls_app, Hnocall, Hnocall', app_nil_r in Hreq. simpl in Hreq.
  destruct rp as [[[rl ul] obg]|e].
  2: { destruct Hout as (_ & -> & _). destruct Hreq. }
  destruct Hout as [-> _]. destruct Hreq as [<-|[]].
  rewrite !encoded_app, Hnobg in Hbg. rewrite !encoded_app, Hnomask in Hmask.
  simpl in Hbg, Hmask. rewrite !app_nil_r in Hbg, Hmask.
  destruct Hspec as (_ & _ & Hgeo).
  destruct (video_condition (st_args s)).
  - destruct Hgeo as (bgl & maskl' & b0 & c0 & t0 & h0 & w0 & Hbg' & Hmask' & Hcat & -> & _).
    rewrite Hbg' in Hbg. rewrite Hmask' in Hmask.
    injection Hbg as ->. injection Hmask as ->.
    destruct (cat_dim1_5d _ _ _ _ _ _ _ Hcat Hlen) as (c2 & -> & Heq).
    exists c2. split; [reflexivity|]. simpl. now rewrite Heq.
  - destruct Hgeo as (Hnone & _). congruence.
Qed.

Lemma forget_geometry_set (a : Args) (size : list Z) (frames : Z) :
  forget_geometry (set_geometry a size frames) = forget_geometry a.
Proof. reflexivity. Qed.

(** An iteration changes nothing in [args] but the geometry. *)
Lemma loop_body_settings (save_dir : string) (rank : Z) (batch : Batch)
    (s s' : State) (r : Outcome unit) :
  loop_body save_dir rank batch s = (r, s') ->
  forget_geometry (st_args s') = forget_geometry (st_args s).
Proof.
  intros Hrun. apply loop_body_trace in Hrun
    as (rp & s1 & prep & calls & writes & Hprep & _ & _ & _ & _ & _ & Ha & _ & _).
  destruct (prepare_latents_spec _ _ _ _ Hprep) as (_ & prep' & _ & _ & Hspec).
  rewrite Ha. destruct rp as [[[rl ul] obg]|e].
  - destruct Hspec as (_ & _ & Hgeo). destruct (video_condition (st_args s)).
    + destruct Hgeo as (? & ? & ? & ? & ? & ? & ? & _ & _ & _ & _ & ->).
      apply forget_geometry_set.
    + now destruct Hgeo as (_ & _ & ->).
  - now destruct Hspec as (-> & _).
Qed.

Lemma request_carries_build (cfg a : Args) (batch : Batch)
    (latents : Shape * Shape * option Shape) :
  forget_geometry a = forget_geometry cfg ->
  request_carries cfg (build_request a batch latents) batch.
Proof.
  intros Heq. destruct latents as [[rl ul] obg]. unfold request_carries. simpl.
  pose proof (f_equal add_pos_prompt Heq). pose proof (f_equal add_neg_prompt Heq).
  pose proof (f_equal audio_strength Heq). pose proof (f_equal cfg_scale Heq).
  pose proof (f_equal num_images Heq). pose proof (f_equal infer_steps Heq).
  pose proof (f_equal flow_shift_eval_video Heq).
  pose proof (f_equal use_linear_quadratic_schedule Heq).
  pose proof (f_equal linear_schedule_end Heq).
  pose proof (f_equal use_deepcache Heq).
  simpl in *. repeat split; congruence.
Qed.

Lemma for_each_requests (save_dir : string) (rank : Z) (loader : list Batch)
    (s s' : State) (r : Outcome unit) :
  for_each loader (loop_body save_dir rank) s = (r, s') ->
  forget_geometry (st_args s') = forget_geometry (st_args s) /\
  exists evs,
    appends s s' evs /\
    exists reached,
      reached `prefix_of` loader /\
      Forall2 (request_carries (st_args s)) (predict_calls evs) reached /\
      (r = Ok tt -> reached = loader).
Proof.
  revert s. induction loader as [|batch loader IH]; intros s Hrun.
  - injection Hrun as <- <-. split; [reflexivity|]. exists [].
    split; [apply appends_refl|]. exists [].
    split; [apply prefix_nil|]. split; [constructor | reflexivity].
  - simpl in Hrun. unfold bind in Hrun.
    destruct (loop_body save_dir rank batch s) as [ro s1] eqn:Hbody.
    pose proof (loop_body_settings _ _ _ _ _ _ Hbody) as Hset.
    destruct (loop_body_trace _ _ _ _ _ _ Hbody)
      as (_ & _ & prep & calls & writes & _ & _ & _ & Happ & _).
    destruct (loop_body_calls _ _ _ _ _ _ _ Hbody Happ) as (_ & Hcall & Hok).
    assert (forall latents,
              request_carries (st_args s) (build_request (st_args s1) batch latents)
                batch) as Hreq
      by (intros; now apply request_carries_build).
    destruct ro as [[]|e].
    + destruct (Hok eq_refl) as [latents Hone].
      destruct (IH _ Hrun) as (Hset2 & evs & Happ2 & reached & Hpre & Hall & Hdone).
      split; [congruence|]. exists ((prep ++ calls ++ writes) ++ evs).
      split; [eauto using appends_trans|]. exists (batch :: reached).
      split; [now apply prefix_cons|]. rewrite predict_calls_app, Hone. split.
      * constructor; [apply Hreq|].
        eapply Forall2_impl; [exact Hall|]. intros req b0 Hc.
        unfold request_carries in *.
        pose proof (f_equal add_pos_prompt Hset). pose proof (f_equal add_neg_prompt Hset).
        pose proof (f_equal audio_strength Hset). pose proof (f_equal cfg_scale Hset).
        pose proof (f_equal num_images Hset). pose proof (f_equal infer_steps Hset).
        pose proof (f_equal flow_shift_eval_video Hset).
        pose proof (f_equal use_linear_quadratic_schedule Hset).
        pose proof (f_equal linear_schedule_end Hset).
        pose proof (f_equal use_deepcache Hset).
        simpl in *. intuition congruence.
      * intros Hr. now rewrite Hdone.
    + injection Hrun as <- <-. split; [exact Hset|].
      exists (prep ++ calls ++ writes). split; [exact Happ|].
      destruct Hcall as [[_ Hnone]|[latents Hone]].
      * exists []. rewrite Hnone.
        split; [apply prefix_nil|]. split; [constructor | discriminate].
      * exists [batch]. rewrite Hone. split; [apply prefix_cons, prefix_nil|].
        split; [|discriminate]. constructor; [apply Hreq | constructor].
Qed.

(** X9. Throughout a run every request carries the record's own prompt,
    negative prompt, name, seed, image tensors and audio prompts, with the
    two prompt prefixes put in front, and the run parameters of the [args]
    the sampler handed back on line 41, unchanged: the loop assigns nothing
    in [args] but [video_size] and [sample_n_frames], also under background
    conditioning.  When the set-up raises, [args] is still the one parsed
    from the command line. *)
Theorem run_requests_carry_settings (ckpt_exists : bool) (sp_size dist_rank : Z)
    (s s' : State) (r : Outcome unit) (evs : list Event) :
  main ckpt_exists sp_size dist_rank s = (r, s') ->
  appends s s' evs ->
  match main_setup ckpt_exists sp_size dist_rank s with
  | (Ok _, _) =>
      forget_geometry (st_args s') = forget_geometry (sampler_args (st_args s))
  | (Raise _, _) => st_args s' = st_args s
  end /\
  exists reached,
    reached `prefix_of`
      dataset_items (select_modality (sampler_args (st_args s)))
        (sampler_args (st_args s)) /\
    Forall2 (request_carries (sampler_args (st_args s))) (predict_calls evs) reached /\
    (r = Ok tt ->
     reached = dataset_items (select_modality (sampler_args (st_args s)))
                 (sampler_args (st_args s))).
Proof.
  unfold main, bind. intros Hrun Happ.
  destruct (main_setup ckpt_exists sp_size dist_rank s)
    as [[[[save_dir rank] loader]|e] s1] eqn:Hsetup.
  - destruct (main_setup_spec _ _ _ _ _ _ Hsetup)
      as (evs0 & Happ0 & Hcalls0 & _ & -> & -> & Hargs & ->).
    destruct (for_each_requests _ _ _ _ _ _ Hrun)
      as (Hset & evs1 & Happ1 & reached & Hpre & Hall & Hdone).
    rewrite (appends_inj _ _ _ _ Happ (appends_trans _ _ _ _ _ Happ0 Happ1)).
    rewrite predict_calls_app, Hcalls0. simpl. rewrite Hargs in *.
    split; [exact Hset | eauto].
  - injection Hrun as <- <-.
    destruct (main_setup_spec _ _ _ _ _ _ Hsetup)
      as (evs0 & Happ0 & Hcalls0 & _ & Hargs & _).
    rewrite (appends_inj _ _ _ _ Happ Happ0), Hcalls0.
    split; [exact Hargs|].
    exists []. split; [apply prefix_nil|]. split; [constructor | discriminate].
Qed.

(** ** More on the whole run *)




Lemma encode_count_app (e1 e2 : list Event) :
  encode_count (e1 ++ e2) = encode_count e1 + encode_count e2.
Proof. unfold encode_count. now rewrite List.filter_app, length_app. Qed.

Lemma tiling_switches_app (on : bool) (e1 e2 : list Event) :
  tiling_switches on (e1 ++ e2) = tiling_switches on e1 + tiling_switches on e2.
Proof. unfold tiling_switches. now rewrite List.filter_app, length_app. Qed.

Lemma write_events_no_codec (on : bool) (evs : list Event) :
  Forall (fun e => is_write e = true) evs ->
  encode_count evs = 0 /\ tiling_switches on evs = 0.
Proof.
  induction 1 as [|e evs He _ [IH1 IH2]]; [split; reflexivity|].
  destruct e; try discriminate He; split; assumption.
Qed.

(** The codec calls of a latent preparation that returns. *)
Lemma prepare_latents_codec_calls (batch : Batch) (s s' : State)
    (latents : Shape * Shape * option Shape) (evs : list Event) :
  prepare_latents batch s = (Ok latents, s') ->
  appends s s' evs ->
  encode_count evs = (if video_condition (st_args s) then 4 else 2) /\
  tiling_switches true evs = 1 /\ tiling_switches false evs = 1.
Proof.
  intros Hrun Happ. unfold_driver. simpl in Hrun.
  split_paths; try discriminate; subst.
  all: match type of Happ with appends _ ?s2 _ =>
         assert (exists evs', appends s s2 evs' /\
                   encode_count evs' = (if video_condition (st_args s) then 4 else 2) /\
                   tiling_switches true evs' = 1 /\ tiling_switches false evs' = 1)
           as (evs' & Happ' & Hcount)
       end.
  1,3: give_events; match goal with H : video_condition _ = _ |- _ => rewrite H end;
       repeat split; reflexivity.
  all: rewrite (appends_inj _ _ _ _ Happ Happ');
    match goal with H : video_condition _ = _ |- _ => rewrite H in Hcount end;
    exact Hcount.
Qed.

Lemma loop_body_codec_calls (save_dir : string) (rank : Z) (batch : Batch)
    (s s' : State) (evs : list Event) :
  loop_body save_dir rank batch s = (Ok tt, s') ->
  appends s s' evs ->
  encode_count evs = (if video_condition (st_args s) then 4 else 2) /\
  tiling_switches true evs = 1 /\ tiling_switches false evs = 1.
Proof.
  intros Hrun Happ. apply loop_body_trace in Hrun
    as (rp & s1 & prep & calls & writes & Hprep & Happ1 & _ & Happ' & Hw & _ & _
        & _ & Hout).
  rewrite (appends_inj _ _ _ _ Happ Happ').
  destruct rp as [latents|e]; [|now destruct Hout as [[=] _]].
  destruct Hout as [-> _].
  destruct (prepare_latents_codec_calls _ _ _ _ _ Hprep Happ1) as (Hn & Hon & Hoff).
  destruct (write_events_no_codec true _ Hw) as [Hn' Hon'].
  destruct (write_events_no_codec false _ Hw) as [_ Hoff'].
  rewrite !encode_count_app, !tiling_switches_app, Hn, Hon, Hoff, Hn', Hon', Hoff'.
  simpl. repeat split; lia.
Qed.

Lemma for_each_codec_calls (save_dir : string) (rank : Z) (loader : list Batch)
    (s s' : State) :
  for_each loader (loop_body save_dir rank) s = (Ok tt, s') ->
  exists evs,
    appends s s' evs /\
    encode_count evs =
      (if video_condition (st_args s) then 4 else 2) * length loader /\
    tiling_switches true evs = length loader /\
    tiling_switches false evs = length loader.
Proof.
  revert s. induction loader as [|batch loader IH]; intros s Hrun.
  - injection Hrun as <-. exists []. split; [apply appends_refl|].
    simpl. rewrite Nat.mul_0_r. repeat split; reflexivity.
  - simpl in Hrun. unfold bind in Hrun.
    destruct (loop_body save_dir rank batch s) as [[[]|e] s1] eqn:Hbody; [|discriminate].
    destruct (loop_body_trace _ _ _ _ _ _ Hbody)
      as (_ & _ & prep & calls & writes & _ & _ & _ & Happ & _).
    destruct (loop_body_codec_calls _ _ _ _ _ _ Hbody Happ) as (Hn & Hon & Hoff).
    destruct (loop_body_frame _ _ _ _ _ _ Hbody) as (Hv & _).
    destruct (IH _ Hrun) as (evs & Happ2 & Hn2 & Hon2 & Hoff2).
    exists ((prep ++ calls ++ writes) ++ evs).
    split; [eauto using appends_trans|].
    rewrite (encode_count_app (prep ++ calls ++ writes) evs),
      (tiling_switches_app true (prep ++ calls ++ writes) evs),
      (tiling_switches_app false (prep ++ calls ++ writes) evs),
      Hn, Hon, Hoff, Hn2, Hon2, Hoff2, Hv.
    simpl. destruct (video_condition (st_args s)); repeat split; lia.
Qed.

(** X11. A run that returns has called the encoder exactly twice per record,
    four times per record under [args.video_condition], and has switched
    tiling on once and off once per record; on an empty dataset neither the
    codec nor the sampler is called. *)
Theorem run_codec_call_count (ckpt_exists : bool) (sp_size dist_rank : Z)
    (s s' : State) (evs : list Event) :
  main ckpt_exists sp_size dist_rank s = (Ok tt, s') ->
  appends s s' evs ->
  let cfg := sampler_args (st_args s) in
  let n := length (dataset_items (select_modality cfg) cfg) in
  encode_count evs = (if video_condition cfg then 4 else 2) * n /\
  tiling_switches true evs = n /\
  tiling_switches false evs = n /\
  length (predict_calls evs) = n.
Proof.
  unfold main, bind. intros Hrun Happ.
  destruct (main_setup ckpt_exists sp_size dist_rank s)
    as [[[[save_dir rank] loader]|e] s1] eqn:Hsetup; [|discriminate].
  assert (exists evs0, appends s s1 evs0 /\ encode_count evs0 = 0 /\
            tiling_switches true evs0 = 0 /\ tiling_switches false evs0 = 0)
    as (evs0 & Happ0 & Hn0 & Hon0 & Hoff0).
  { destruct (main_setup_events _ _ _ _ _ _ Hsetup) as [Hnone|Hone];
      eexists; (split; [eassumption|]); auto. }
  destruct (main_setup_spec _ _ _ _ _ _ Hsetup)
    as (evs0' & Happ0' & Hcalls0 & _ & _ & _ & Hargs & ->).
  rewrite <- (appends_inj _ _ _ _ Happ0 Happ0') in Hcalls0. clear Happ0' evs0'.
  destruct (for_each_codec_calls _ _ _ _ _ Hrun) as (evs1 & Happ1 & Hn & Hon & Hoff).
  destruct (for_each_calls _ _ _ _ _ _ Hrun)
    as (evs1' & Happ1' & _ & reached & _ & Hall & Hdone).
  rewrite <- (appends_inj _ _ _ _ Happ1 Happ1') in Hall. clear Happ1' evs1'.
  rewrite (Hdone eq_refl) in Hall. apply Forall2_length in Hall.
  rewrite (appends_inj _ _ _ _ Happ (appends_trans _ _ _ _ _ Happ0 Happ1)).
  rewrite encode_count_app, !tiling_switches_app, predict_calls_app, length_app.
  rewrite Hn0, Hon0, Hoff0, Hcalls0, Hn, Hon, Hoff, Hall, Hargs. simpl.
  repeat split; reflexivity.
Qed.

(** X12. The set-up never removes a path.  It leaves behind the directory
    that the samples go to whenever the base path was absent or no suffix
    is configured; when the base path exists it changes nothing. *)
Theorem setup_directory (ckpt_exists : bool) (sp_size dist_rank : Z)
    (s s1 : State) (v : string * Z * list Batch) :
  main_setup ckpt_exists sp_size dist_rank s = (Ok v, s1) ->
  fst (fst v) = resolve_save_path (st_args s) /\
  fs s ⊆ fs s1 /\
  (save_path (st_args s) ∈ fs s -> fs s1 = fs s) /\
  (save_path (st_args s) ∉ fs s \/ save_path_suffix (st_args s) = "" ->
   resolve_save_path (st_args s) ∈ fs s1).
Proof.
  intros Hsetup. pose proof (main_setup_directory _ _ _ _ _ _ Hsetup) as Hfs.
  destruct (main_setup_spec _ _ _ _ _ _ Hsetup) as (_ & _ & _ & _ & Hv).
  destruct v as [[save_dir rank] loader]. destruct Hv as (-> & _).
  split; [reflexivity|].
  destruct (bool_decide (save_path (st_args s) ∈ fs s)) eqn:Hbase.
  - apply bool_decide_eq_true_1 in Hbase. rewrite Hfs.
    split; [reflexivity|]. split; [reflexivity|].
    intros [Habsent|Hsuffix]; [contradiction|].
    unfold resolve_save_path. now rewrite Hsuffix.
  - apply bool_decide_eq_false_1 in Hbase. destruct Hfs as [created ->].
    split; [apply union_subseteq_r|].
    split; [contradiction|]. intros _.
    rewrite !elem_of_union, elem_of_singleton. auto.
Qed.

(** ** The output paths *)





End Properties.

(** ** Replicas and the data loader *)

(** C2 (as stated) fails: with two cooperating processes and a dataset of one
    record, both processes are handed record 0, and both call [predict] for
    it. *)
Lemma c2_two_processes_share_a_record :
  let C := Demo.collaborators [Demo.image_item "x"] None true in
  let s := Demo.initial C 0 (Demo.make_args "out" "" false false) ∅ in
  replica_share 1 2 0 = [0] /\ replica_share 1 2 1 = [0] /\
  map req_name (predict_calls (events (snd (@main C true 2 0 s)))) = ["x"] /\
  map req_name (predict_calls (events (snd (@main C true 2 1 s)))) = ["x"] /\
  ~ disjoint_cover 1 2 (replica_share 1 2).
Proof.
  do 4 (split; [vm_compute; reflexivity|]).
  intros (_ & Hdisj & _).
  apply (Hdisj 0 1 0); [lia | lia | lia | |]; vm_compute; auto.
Qed.

Lemma single_share_cover (len world_size : nat) :
  disjoint_cover len world_size (fun _ => seq 0 len) <-> world_size = 1 \/ len = 0.
Proof.
  unfold disjoint_cover. split.
  - intros (_ & Hdisj & Hcover).
    destruct len as [|len]; [now right|left].
    assert (In 0 (seq 0 (S len))) as H0 by (apply in_seq; lia).
    destruct (proj1 (Hcover 0)) as (r & Hr & _); [lia|].
    destruct world_size as [|[|n]]; [lia | reflexivity | exfalso].
    apply (Hdisj 0 1 0); auto; lia.
  - intros [->| ->].
    + split; [intros; apply NoDup_seq|]. split; [intros; lia|].
      intros i. split.
      * intros Hi. exists 0. split; [lia|]. apply in_seq. lia.
      * intros (r & _ & Hi). apply in_seq in Hi. lia.
    + simpl. split; [intros; constructor|]. split; [intros ? ? ? ? ? ? []|].
      intros i. split; [lia|]. intros (r & _ & []).
Qed.

(** C2 (amended). Whatever the number of cooperating processes and the rank,
    the loader of a process yields the whole dataset, every record once, in
    index order: the sampler is built for a single replica.  The shares of
    the processes are a disjoint cover exactly when there is a single
    process or the dataset is empty. *)
Theorem c2_every_process_gets_whole_dataset {C : Collaborators}
    (ckpt_exists : bool) (sp_size dist_rank : Z) (s s1 : State)
    (save_dir : string) (rank : Z) (loader : list Batch) :
  main_setup ckpt_exists sp_size dist_rank s = (Ok (save_dir, rank, loader), s1) ->
  let items := dataset_items (select_modality (sampler_args (st_args s)))
                 (sampler_args (st_args s)) in
  loader = items /\
  (forall world_size r,
     replica_indices (length items) world_size r = Some (seq 0 (length items))) /\
  (forall world_size,
     disjoint_cover (length items) world_size
       (replica_share (length items) world_size)
     <-> world_size = 1 \/ items = []).
Proof.
  intros Hsetup items.
  destruct (main_setup_spec _ _ _ _ _ _ Hsetup) as (_ & _ & _ & _ & _ & _ & Hargs & ->).
  split; [subst items; now rewrite Hargs|].
  split; [intros; apply DistributedSampler_single|].
  intros world_size. unfold replica_share, replica_indices.
  rewrite DistributedSampler_single. simpl. rewrite single_share_cover.
  now rewrite length_zero_iff_nil.
Qed.

(** ** Runs on concrete collaborators *)

(** C4 (as stated) fails: when the first [vae.encode] of a record raises,
    the exception leaves [main] with tiling still switched on. *)
Lemma c4_tiling_left_on_when_encode_raises :
  let C := Demo.collaborators [Demo.image_item "x"] (Some 0) true in
  let s := Demo.initial C 0 (Demo.make_args "out" "" false false) ∅ in
  let out := @main C true 1 0 s in
  vae_tiling s = false /\
  fst out = Raise EncodeRaised /\
  vae_tiling (snd out) = true /\
  events (snd out) =
    [EvMakedirs "out"; EvEnableTiling;
     EvEncode EncRef true [1; 3; 1; 256; 256]%Z None].
Proof. vm_compute. repeat split. Qed.

(** C5 (as stated) fails: after a failed mux the silent intermediate is gone
    all the same, and no muxed file exists either. *)
Lemma c5_silent_removed_after_failed_mux :
  let C := Demo.collaborators [Demo.audio_item "a1"] None false in
  let s := Demo.initial C 0 (Demo.make_args "out" "" false true) ∅ in
  let out := @main C true 1 0 s in
  fst out = Ok tt /\
  In (EvSaveVideo "out/a1.mp4") (events (snd out)) /\
  snd (@ffmpeg C 3 "out/a1.mp4" "a.wav" "out/a1_audio.mp4") = false /\
  bool_decide ("out/a1.mp4" ∈ fs (snd out)) = false /\
  bool_decide ("out/a1_audio.mp4" ∈ fs (snd out)) = false.
Proof. vm_compute. repeat split. right. right. right. right. right. right. left. reflexivity. Qed.

(** C8 (as stated) fails: latents whose channel counts differ (12 for the
    background clip, 4 for the mask) are concatenated, the request is built
    with the 16 channels and [predict] is called; and a mask latent that is
    an empty 1-dimensional tensor is dropped by [torch.cat] without an
    error, the request carrying the background latents alone. *)
Lemma c8_channel_mismatch_is_concatenated :
  let batch := Demo.video_item "v1" Demo.clip DemoMore.mask_clip in
  let args := Demo.make_args "out" "" true false in
  let C1 := DemoMore.with_codec DemoMore.four_per_channel in
  let out1 := @loop_body C1 "out" 0 batch (Demo.initial C1 0 args ∅) in
  let C2 := DemoMore.with_codec DemoMore.empty_for_one_channel in
  let out2 := @loop_body C2 "out" 0 batch (Demo.initial C2 0 args ∅) in
  (encoded EncBg (events (snd out1)) = [Some [1; 12; 9; 32; 48]%Z] /\
   encoded EncMask (events (snd out1)) = [Some [1; 4; 9; 32; 48]%Z] /\
   fst out1 = Ok tt /\
   map req_bg_latents (predict_calls (events (snd out1))) =
     [Some [1; 16; 9; 32; 48]%Z]) /\
  (encoded EncBg (events (snd out2)) = [Some [1; 16; 9; 32; 48]%Z] /\
   encoded EncMask (events (snd out2)) = [Some [0]%Z] /\
   fst out2 = Ok tt /\
   map req_bg_latents (predict_calls (events (snd out2))) =
     [Some [1; 16; 9; 32; 48]%Z]).
Proof. vm_compute. repeat split. Qed.

(** C6: the set-up tests the base path and creates the suffixed one.  With
    the base directory present and a suffix configured, the directory of the
    samples is not created, and the sample is written under it. *)
Theorem c6_suffixed_directory_not_created :
  let C := Demo.collaborators [Demo.image_item "x"] None true in
  let s := Demo.initial C 0 (Demo.make_args "out" "v2" false false) {[ "out" ]} in
  let out := @main C true 1 0 s in
  resolve_save_path (st_args s) = "out_v2" /\
  bool_decide ("out_v2" ∈ fs s) = false /\
  fst out = Ok tt /\
  bool_decide ("out_v2" ∈ fs (snd out)) = false /\
  List.filter (fun e => match e with
                        | EvMakedirs _ | EvSaveVideo _ => true
                        | _ => false
                        end) (events (snd out)) =
    [EvSaveVideo "out_v2/x.mp4"].
Proof. vm_compute. repeat split. Qed.

(** ** The theorems at concrete runs *)

(** C1 on a background-conditioned record: a clip of 33 frames of 256x384
    gives latents [(1, 32, 9, 32, 48)], hence size [(256, 384)] and 33
    frames, although [args] was configured for 129 frames of 720x1280. *)
Lemma c1_background_geometry_overrides_witness :
  let C := Demo.collaborators [] None true in
  let s := Demo.initial C 0 (Demo.make_args "out" "" true false) ∅ in
  let batch := Demo.video_item "v1" Demo.clip Demo.clip in
  let out := @loop_body C "out" 0 batch s in
  video_condition (st_args s) = true /\
  video_size (st_args s) = [720; 1280]%Z /\
  sample_n_frames (st_args s) = 129%Z /\
  exists req,
    predict_calls (events (snd out)) = [req] /\
    req_bg_latents req = Some [1; 32; 9; 32; 48]%Z /\
    req_size req = [256; 384]%Z /\
    req_video_length req = 33%Z.
Proof.
  intros C s batch out. do 3 (split; [reflexivity|]).
  eexists. split; [vm_compute; reflexivity|].
  assert (@loop_body C "out" 0%Z batch s = (fst out, snd out)) as Hrun
    by (vm_compute; reflexivity).
  assert (appends s (snd out) (events (snd out))) as Happ
    by (vm_compute; reflexivity).
  match goal with |- req_bg_latents ?req = _ /\ _ =>
    assert (In req (predict_calls (events (snd out)))) as Hin
      by (vm_compute; left; reflexivity);
    destruct (@c1_background_geometry_overrides C "out" 0%Z batch s (snd out)
                (fst out) (events (snd out)) eq_refl Hrun Happ req Hin)
      as (bgl & maskl & b0 & c0 & t & h & w & _ & _ & _ & Hbg & Hsize & Hlen & _)
  end.
  rewrite Hsize, Hlen. vm_compute in Hbg. injection Hbg as _ _ <- <- <-.
  repeat split; reflexivity.
Defined.

(** C8 on a record whose mask is half as high as its background clip. *)
Lemma c8_cat_raises_off_the_channel_axis_witness :
  let C := Demo.collaborators [] None true in
  let s := Demo.initial C 0 (Demo.make_args "out" "" true false) ∅ in
  let batch := Demo.video_item "v1" Demo.clip Demo.small_clip in
  let out := @loop_body C "out" 0 batch s in
  (1, 9, 32, 48)%Z <> (1, 9, 16, 48)%Z /\
  fst out = Raise CatRuntimeError /\
  predict_calls (events (snd out)) = [] /\
  List.filter is_write (events (snd out)) = [] /\
  st_args (snd out) = st_args s.
Proof.
  intros C s batch out. split; [discriminate|].
  apply (proj1 (@c8_cat_raises_off_the_channel_axis C "out" 0%Z batch s (snd out)
                  (fst out) (events (snd out))
                  1%Z 16%Z 9%Z 32%Z 48%Z 1%Z 16%Z 9%Z 16%Z 48%Z
                  ltac:(vm_compute; reflexivity) ltac:(vm_compute; reflexivity)
                  ltac:(vm_compute; reflexivity) ltac:(vm_compute; reflexivity))).
  discriminate.
Defined.

(** C10 on a run over two background-conditioned records: after the first
    record, [args] holds its geometry (256x384, 33 frames) in place of the
    configured one, and the run goes on with the second record from there. *)
Lemma c10_geometry_written_to_args_witness :
  let v1 := Demo.video_item "v1" Demo.clip Demo.clip in
  let v2 := Demo.video_item "v2" Demo.small_clip Demo.small_clip in
  let C := Demo.collaborators [v1; v2] None true in
  let s := Demo.initial C 0 (Demo.make_args "out" "" true false) ∅ in
  let s0 := snd (@main_setup C true 1 0 s) in
  let s1 := snd (@loop_body C "out" 0 v1 s0) in
  video_size (st_args s0) = [720; 1280]%Z /\
  video_size (st_args s1) = [256; 384]%Z /\
  sample_n_frames (st_args s1) = 33%Z /\
  @main C true 1 0 s = for_each [v2] (@loop_body C "out" 0) s1.
Proof.
  intros v1 v2 C s s0 s1. split; [reflexivity|].
  destruct (@c10_geometry_written_to_args C true 1%Z 0%Z "out" 0%Z [] [v2] v1
              s s0 s0 s1)
    as [(req & b0 & c0 & t & h & w & Hlast & _ & Hbg & _ & Hsize & Hframes)
        [Hmain _]].
  - reflexivity.
  - vm_compute. reflexivity.
  - reflexivity.
  - vm_compute. reflexivity.
  - vm_compute in Hlast. injection Hlast as <-. vm_compute in Hbg.
    injection Hbg as _ _ <- <- <-.
    split; [exact Hsize|]. split; [exact Hframes | exact Hmain].
Defined.

(** C3 on a process of rank 2 among 4: two records, two sampler calls, no
    write. *)
Lemma c3_rank_gates_writes_only_witness :
  let items := [Demo.image_item "x"; Demo.image_item "y"] in
  let C := Demo.collaborators items None true in
  let s := Demo.initial C 0 (Demo.make_args "out" "" false false) ∅ in
  let out := @main C true 4 2 s in
  resolve_rank 4 2 <> 0%Z /\
  fst out = Ok tt /\
  List.filter is_write (events (snd out)) = [] /\
  exists reached,
    reached `prefix_of` items /\
    Forall2 request_of (predict_calls (events (snd out))) reached /\
    (fst out = Ok tt -> reached = items).
Proof.
  intros items C s out. split; [discriminate|]. split; [vm_compute; reflexivity|].
  destruct (@c3_rank_gates_writes_only C true 4%Z 2%Z s (snd out) (fst out)
              (events (snd out))) as [Hw Hcalls].
  - vm_compute. reflexivity.
  - vm_compute. reflexivity.
  - split; [apply Hw; discriminate | exact Hcalls].
Defined.

(** C7 on an image-conditioned run. *)
Lemma c7_configured_geometry_kept_witness :
  let items := [Demo.image_item "x"; Demo.image_item "y"] in
  let C := Demo.collaborators items None true in
  let s := Demo.initial C 0 (Demo.make_args "out" "" false false) ∅ in
  let out := @main C true 1 0 s in
  length (predict_calls (events (snd out))) = 2 /\
  Forall (fun req => req_size req = [720; 1280]%Z /\ req_video_length req = 129%Z)
         (predict_calls (events (snd out))).
Proof.
  intros items C s out. split; [vm_compute; reflexivity|].
  apply (@c7_configured_geometry_kept C true 1%Z 0%Z s (snd out) (fst out)
           (events (snd out))).
  - reflexivity.
  - vm_compute. reflexivity.
  - vm_compute. reflexivity.
Defined.

(** C5 on an audio-conditioned record whose mux succeeds. *)
Lemma c5_silent_removed_muxed_kept_witness :
  let C := Demo.collaborators [] None true in
  let s := Demo.initial C 0 (Demo.make_args "out" "" false true) ∅ in
  let batch := Demo.audio_item "a1" in
  let out := @emit_sample C "out" batch [3; 129; 720; 1280]%Z s in
  fst out = Ok tt /\
  ("out/a1.mp4" ∉ fs (snd out)) /\
  (snd (@ffmpeg C 0 "out/a1.mp4" "a.wav" "out/a1_audio.mp4") = true ->
   "out/a1_audio.mp4" ∈ fs (snd out)).
Proof.
  intros C s batch out. split; [vm_compute; reflexivity|].
  apply (@c5_silent_removed_muxed_kept C "out" batch [3; 129; 720; 1280]%Z "a.wav"
           s (snd out)).
  - reflexivity.
  - reflexivity.
  - vm_compute. reflexivity.
  - vm_compute. reflexivity.
  - vm_compute. reflexivity.
  - reflexivity.
  - vm_compute. reflexivity.
Defined.

(** C4 on an image-conditioned record: latent preparation returns with
    tiling off, both encodes having run with tiling on. *)
Lemma c4_tiling_released_on_return_witness :
  let C := Demo.collaborators [] None true in
  let s := Demo.initial C 0 (Demo.make_args "out" "" false false) ∅ in
  let out := @prepare_latents C (Demo.image_item "x") s in
  exists evs,
    appends s (snd out) evs /\
    Forall (fun e => tiled_codec_event e = true) evs /\
    hd_error evs = Some EvEnableTiling /\ vae_tiling (snd out) = false.
Proof.
  intros C s out.
  destruct (proj1 (@c4_tiling_released_on_return C) (Demo.image_item "x") s (snd out)
              (fst out)) as (evs & Happ & Hcodec & Hout).
  - vm_compute. reflexivity.
  - exists evs. split; [exact Happ|]. split; [exact Hcodec|]. exact Hout.
Defined.

(** C2 on the process of rank 1 among 2: its loader holds both records. *)
Lemma c2_every_process_gets_whole_dataset_witness :
  let items := [Demo.image_item "x"; Demo.image_item "y"] in
  let C := Demo.collaborators items None true in
  let s := Demo.initial C 0 (Demo.make_args "out" "" false false) ∅ in
  let out := @main_setup C true 2 1 s in
  fst out = Ok ("out", 1%Z, items) /\
  (forall world_size r, replica_indices 2 world_size r = Some [0; 1]) /\
  (forall world_size,
     disjoint_cover 2 world_size (replica_share 2 world_size)
     <-> world_size = 1 \/ items = []).
Proof.
  intros items C s out. split; [vm_compute; reflexivity|].
  assert (@main_setup C true 2%Z 1%Z s = (Ok ("out", 1%Z, items), snd out)) as Hsetup
    by (vm_compute; reflexivity).
  destruct (@c2_every_process_gets_whole_dataset C true 2%Z 1%Z s (snd out)
              "out" 1%Z items Hsetup) as (_ & Hidx & Hcover).
  split; [exact Hidx | exact Hcover].
Defined.

(** ** The further properties at concrete runs *)

(** X1 on an image-conditioned record. *)
Lemma prepare_latents_return_trace_witness :
  let C := Demo.collaborators [] None true in
  let s := Demo.initial C 0 (Demo.make_args "out" "" false false) ∅ in
  let out := @prepare_latents C (Demo.image_item "x") s in
  exists x,
    rearrange_bchw_bc1hw Demo.png = Some x /\
    fs (snd out) = fs s /\
    None = (None : option Shape) /\
    appends s (snd out)
      [EvEnableTiling;
       EvEncode EncRef true x (Some [1; 16; 1; 32; 32]%Z);
       EvEncode EncUncondRef true x (Some [1; 16; 1; 32; 32]%Z);
       EvDisableTiling].
Proof.
  intros C s out.
  apply (@prepare_latents_return_trace C (Demo.image_item "x") s (snd out)
           [1; 16; 1; 32; 32]%Z [1; 16; 1; 32; 32]%Z None).
  vm_compute. reflexivity.
Defined.

(** X2 on a background-conditioned run whose record has no background. *)
Lemma missing_background_key_raises_witness :
  let C := Demo.collaborators [] None true in
  let s := Demo.initial C 0 (Demo.make_args "out" "" true false) ∅ in
  let batch := Demo.image_item "x" in
  let out := @loop_body C "out" 0 batch s in
  fst out = Raise (KeyError "pixel_value_bg") /\
  predict_calls (events (snd out)) = [] /\
  List.filter is_write (events (snd out)) = [] /\
  encoded EncMask (events (snd out)) = [] /\
  vae_tiling (snd out) = true.
Proof.
  intros C s batch out.
  destruct (@missing_background_key_raises C "out" 0%Z batch s (snd out) (fst out)
              (events (snd out))) as (Hcalls & Hwrites & Hmask & _).
  - reflexivity.
  - left. reflexivity.
  - vm_compute. reflexivity.
  - vm_compute. reflexivity.
  - split; [vm_compute; reflexivity|]. split; [exact Hcalls|].
    split; [exact Hwrites|]. split; [exact Hmask|]. vm_compute. reflexivity.
Defined.

(** X3 on a reference tensor of three axes. *)
Lemma reference_not_4d_raises_untouched_witness :
  let C := Demo.collaborators [] None true in
  let s := Demo.initial C 0 (Demo.make_args "out" "" false false) ∅ in
  length (pixel_value_ref (DemoMore.flat_reference_item "x")) = 3 /\
  @loop_body C "out" 0 (DemoMore.flat_reference_item "x") s = (Raise EinopsError, s).
Proof.
  intros C s. split; [reflexivity|].
  apply (@reference_not_4d_raises_untouched C "out" 0%Z
           (DemoMore.flat_reference_item "x") s).
  simpl. lia.
Defined.

(** X4 on a sampler that raises. *)
Lemma predict_failure_leaves_no_output_witness :
  let C := DemoMore.failing_sampler [] in
  let s := Demo.initial C 0 (Demo.make_args "out" "" false false) {[ "out" ]} in
  let out := @loop_body C "out" 0 (Demo.image_item "x") s in
  fst out = Raise PredictRaised /\
  vae_tiling (snd out) = false /\
  fs (snd out) = fs s /\
  List.filter is_write (events (snd out)) = [] /\
  exists latents,
    predict_calls (events (snd out)) =
      [build_request (st_args (snd out)) (Demo.image_item "x") latents].
Proof.
  intros C s out. split; [vm_compute; reflexivity|].
  apply (@predict_failure_leaves_no_output C "out" 0%Z (Demo.image_item "x") s
           (snd out) (events (snd out))).
  - vm_compute. reflexivity.
  - vm_compute. reflexivity.
Defined.

(** X5 on the ranks 0 and 2, with a video writer that fails: the rank 0
    ends with the writer's error, the rank 2 returns. *)
Lemma iteration_independent_of_rank_witness :
  let C := DemoMore.failing_writer in
  let s := Demo.initial C 0 (Demo.make_args "out" "" false false) ∅ in
  let out0 := @loop_body C "out" 0 (Demo.image_item "x") s in
  let out2 := @loop_body C "out" 2 (Demo.image_item "x") s in
  fst out0 = Raise SaveRaised /\ fst out2 = Ok tt /\
  st_args (snd out0) = st_args (snd out2) /\
  vae_tiling (snd out0) = vae_tiling (snd out2) /\
  List.filter (fun e => negb (is_write e)) (events (snd out0)) =
  List.filter (fun e => negb (is_write e)) (events (snd out2)).
Proof.
  intros C s out0 out2.
  split; [vm_compute; reflexivity|]. split; [vm_compute; reflexivity|].
  destruct (@iteration_independent_of_rank C "out" 0%Z 2%Z (Demo.image_item "x") s
              (snd out0) (snd out2) (fst out0) (fst out2)
              (events (snd out0)) (events (snd out2)))
    as (Ha & Ht & Hev & _); try (vm_compute; reflexivity).
  split; [exact Ha|]. split; [exact Ht | exact Hev].
Defined.

(** X6 on two samples of an image-conditioned record. *)
Lemma emission_reuses_one_path_witness :
  let C := Demo.collaborators [] None true in
  let s := Demo.initial C 0 (Demo.make_args "out" "" false false) ∅ in
  let samples := [[3; 129; 720; 1280]; [3; 129; 720; 1280]]%Z in
  let out := for_each samples (@emit_sample C "out" (Demo.image_item "x")) s in
  fst out = Ok tt /\
  saved_paths (events (snd out)) = ["out/x.mp4"; "out/x.mp4"] /\
  exists k j,
    k <= 2 /\ (fst out = Ok tt -> k = 2) /\
    saved_paths (events (snd out)) = repeat "out/x.mp4" k /\
    (fst out = Raise SaveRaised -> k = S j) /\
    (fst out <> Raise SaveRaised -> k = j) /\
    shell_commands (events (snd out)) = [] /\
    fst out <> Raise OsSystemValueError /\
    (fst out = Ok tt -> fs (snd out) = {[ "out/x.mp4" ]} ∪ fs s).
Proof.
  intros C s samples out.
  split; [vm_compute; reflexivity|]. split; [vm_compute; reflexivity|].
  apply (@emission_reuses_one_path C "out" (Demo.image_item "x") samples s (snd out)
           (fst out) (events (snd out))).
  - vm_compute. reflexivity.
  - vm_compute. reflexivity.
Defined.


(** X8 on a background clip and a mask of the same size. *)
Lemma request_background_channels_add_witness :
  let C := Demo.collaborators [] None true in
  let s := Demo.initial C 0 (Demo.make_args "out" "" true false) ∅ in
  let batch := Demo.video_item "v1" Demo.clip Demo.clip in
  let out := @loop_body C "out" 0 batch s in
  length (predict_calls (events (snd out))) = 1 /\
  forall req, In req (predict_calls (events (snd out))) ->
  exists c2,
    [1; 16; 9; 32; 48]%Z = [1; c2; 9; 32; 48]%Z /\
    req_bg_latents req = Some [1; (16 + c2)%Z; 9; 32; 48]%Z.
Proof.
  intros C s batch out. split; [vm_compute; reflexivity|].
  apply (@request_background_channels_add C "out" 0%Z batch s (snd out) (fst out)
           (events (snd out)) 1%Z 16%Z 9%Z 32%Z 48%Z [1; 16; 9; 32; 48]%Z).
  - vm_compute. reflexivity.
  - vm_compute. reflexivity.
  - vm_compute. reflexivity.
  - vm_compute. reflexivity.
  - reflexivity.
Defined.

(** X9 on a run over two background-conditioned records. *)
Lemma run_requests_carry_settings_witness :
  let items := [Demo.video_item "v1" Demo.clip Demo.clip;
                Demo.video_item "v2" Demo.small_clip Demo.small_clip] in
  let C := Demo.collaborators items None true in
  let s := Demo.initial C 0 (Demo.make_args "out" "" true false) ∅ in
  let out := @main C true 1 0 s in
  st_args (snd out) <> st_args s /\
  forget_geometry (st_args (snd out)) = forget_geometry (st_args s) /\
  exists reached,
    reached `prefix_of` items /\
    Forall2 (request_carries (st_args s)) (predict_calls (events (snd out))) reached /\
    (fst out = Ok tt -> reached = items).
Proof.
  intros items C s out. split.
  - intros Heq. apply (f_equal sample_n_frames) in Heq. vm_compute in Heq. discriminate.
  - apply (@run_requests_carry_settings C true 1%Z 0%Z s (snd out) (fst out)
             (events (snd out))); vm_compute; reflexivity.
Defined.


(** X11 on a run over two background-conditioned records. *)
Lemma run_codec_call_count_witness :
  let items := [Demo.video_item "v1" Demo.clip Demo.clip;
                Demo.video_item "v2" Demo.small_clip Demo.small_clip] in
  let C := Demo.collaborators items None true in
  let s := Demo.initial C 0 (Demo.make_args "out" "" true false) ∅ in
  let out := @main C true 1 0 s in
  encode_count (events (snd out)) = 8 /\
  tiling_switches true (events (snd out)) = 2 /\
  tiling_switches false (events (snd out)) = 2 /\
  length (predict_calls (events (snd out))) = 2.
Proof.
  intros items C s out.
  apply (@run_codec_call_count C true 1%Z 0%Z s (snd out) (events (snd out))).
  - vm_compute. reflexivity.
  - vm_compute. reflexivity.
Defined.

(** X12 on a first run with a suffix: the suffixed directory is created. *)
Lemma setup_directory_witness :
  let C := Demo.collaborators [] None true in
  let s := Demo.initial C 0 (Demo.make_args "out" "v2" false false) ∅ in
  let out := @main_setup C true 1 0 s in
  "out_v2" ∈ fs (snd out).
Proof.
  intros C s out.
  apply (@setup_directory C true 1%Z 0%Z s (snd out) ("out_v2", 0%Z, [])).
  - vm_compute. reflexivity.
  - left. simpl. apply not_elem_of_empty.
Defined.

(** X14 on a record whose [data_name] holds a null character. *)
Lemma null_character_stops_the_mux_witness :
  let C := Demo.collaborators [] None true in
  let s := Demo.initial C 0 (Demo.make_args "out" "" false true) ∅ in
  let batch := Demo.audio_item (String Ascii.zero "a1") in
  let out := @emit_sample C "out" batch [3; 129; 720; 1280]%Z s in
  fst out = Raise OsSystemValueError /\
  fs (snd out) = {[ silent_path "out" batch ]} ∪ fs s.
Proof.
  intros C s batch out.
  destruct (@null_character_stops_the_mux C "out" batch [3; 129; 720; 1280]%Z "a.wav"
              s (snd out) (fst out)) as [Hsave|(Hr & Hfs & _)].
  - reflexivity.
  - reflexivity.
  - vm_compute. reflexivity.
  - vm_compute. reflexivity.
  - vm_compute in Hsave. discriminate Hsave.
  - split; [exact Hr | exact Hfs].
Defined.

(** X15 on the directory ["-o"]. *)
Lemma dash_directory_keeps_silent_file_witness :
  let C := Demo.collaborators [] None true in
  let s := Demo.initial C 0 (Demo.make_args "-o" "" false true) ∅ in
  let batch := Demo.audio_item "a1" in
  let out := @emit_sample C "-o" batch [3; 129; 720; 1280]%Z s in
  fst out = Ok tt /\ "-o/a1.mp4" ∈ fs (snd out).
Proof.
  intros C s batch out. split; [vm_compute; reflexivity|].
  apply (@dash_directory_keeps_silent_file C "-o" batch [3; 129; 720; 1280]%Z "a.wav"
           s (snd out)).
  - reflexivity.
  - reflexivity.
  - vm_compute. reflexivity.
  - vm_compute. reflexivity.
  - vm_compute. reflexivity.
  - reflexivity.
  - vm_compute. reflexivity.
Defined.

(** * The rescale in floating-point arithmetic *)

Section Binary.

Local Open Scope Z_scope.

(** ** Binary digits *)

(** Abstracts the powers of two, for [lia]. *)
Ltac hide_pows :=
  repeat match goal with
    | |- context [Z.pow 2 ?e] =>
        let v := fresh "pw" in set (v := Z.pow 2 e) in *; clearbody v
    | H : context [Z.pow 2 ?e] |- _ =>
        let v := fresh "pw" in set (v := Z.pow 2 e) in *; clearbody v
    end.

Lemma digits2_pos_bounds (m : positive) :
  (2 ^ (Zpos (digits2_pos m) - 1) <= Zpos m < 2 ^ Zpos (digits2_pos m))%Z.
Proof.
  induction m as [q IH|q IH|]; simpl digits2_pos.
  - rewrite Pos2Z.inj_succ, (Pos2Z.inj_xI q).
    replace (Z.succ (Zpos (digits2_pos q)) - 1)%Z
      with (Z.succ (Zpos (digits2_pos q) - 1)) by lia.
    rewrite !Z.pow_succ_r by lia. hide_pows. lia.
  - rewrite Pos2Z.inj_succ, (Pos2Z.inj_xO q).
    replace (Z.succ (Zpos (digits2_pos q)) - 1)%Z
      with (Z.succ (Zpos (digits2_pos q) - 1)) by lia.
    rewrite !Z.pow_succ_r by lia. hide_pows. lia.
  - change (1 <= 1 < 2)%Z. lia.
Qed.

Lemma digits2_pos_unique (m : positive) (k : Z) :
  (2 ^ (k - 1) <= Zpos m < 2 ^ k)%Z -> Zpos (digits2_pos m) = k.
Proof.
  intros [Hlo Hhi]. pose proof (digits2_pos_bounds m) as [Hlo' Hhi'].
  set (d := Zpos (digits2_pos m)) in *. assert (0 < d)%Z by (subst d; lia).
  assert (0 < k)%Z.
  { destruct (Z.lt_ge_cases 0 k) as [|Hk]; [assumption|].
    destruct (Z.eq_dec k 0) as [->|]; [simpl in Hhi; lia|].
    rewrite Z.pow_neg_r in Hhi by lia. lia. }
  destruct (Z.lt_trichotomy d k) as [Hlt|[Heq|Hgt]]; [exfalso|exact Heq|exfalso].
  - assert (2 ^ d <= 2 ^ (k - 1))%Z by (apply Z.pow_le_mono_r; lia). hide_pows. lia.
  - assert (2 ^ k <= 2 ^ (d - 1))%Z by (apply Z.pow_le_mono_r; lia). hide_pows. lia.
Qed.

Lemma Zpos_iter_xO (m n : positive) :
  Zpos (Pos.iter xO m n) = (Zpos m * 2 ^ Zpos n)%Z.
Proof.
  induction n as [|n IH] using Pos.peano_ind.
  - simpl. lia.
  - rewrite Pos.iter_succ, (Pos2Z.inj_xO (Pos.iter xO m n)), IH, Pos2Z.inj_succ,
      Z.pow_succ_r by lia. lia.
Qed.

Lemma iter_pos_iter {A} (f : A -> A) (n : positive) (x : A) :
  SpecFloat.iter_pos f n x = Pos.iter f x n.
Proof.
  revert x. induction n as [n IH|n IH|]; intros x; simpl.
  - now rewrite !IH, !Pos.iter_swap.
  - now rewrite !IH.
  - reflexivity.
Qed.

Lemma iter_shr_1_exact (m n : positive) :
  SpecFloat.iter_pos shr_1 n
    {| shr_m := Zpos (Pos.iter xO m n); shr_r := false; shr_s := false |} =
  {| shr_m := Zpos m; shr_r := false; shr_s := false |}.
Proof.
  rewrite iter_pos_iter.
  induction n as [|n IH] using Pos.peano_ind.
  - reflexivity.
  - rewrite (Pos.iter_succ n positive xO), Pos.iter_succ_r. exact IH.
Qed.

(** ** Operations that do not round *)

Section Exact.
Variable fmt : Rescale.Format.
Hypothesis Hfmt : Rescale.format_ok fmt.

Local Abbreviation prec := (Rescale.prec fmt).
Local Abbreviation emax := (Rescale.emax fmt).
Local Abbreviation normal := (Rescale.normal fmt).
Local Abbreviation pow2_mantissa := (Rescale.pow2_mantissa fmt).

Lemma normal_digits (m M : positive) (e n : Z) :
  normal m e -> 0 <= n -> Zpos M = Zpos m * 2 ^ n ->
  Zpos (digits2_pos M) = prec + n.
Proof.
  intros [Hd _] Hn HM. apply digits2_pos_unique. rewrite HM.
  pose proof (digits2_pos_bounds m) as Hm. rewrite Hd in Hm.
  destruct Hfmt as [Hp _].
  replace (prec + n - 1) with ((prec - 1) + n) by lia.
  rewrite !Z.pow_add_r by lia.
  assert (0 < 2 ^ n) by (apply Z.pow_pos_nonneg; lia).
  hide_pows. nia.
Qed.

(** The shift that brings a mantissa with [n] trailing zeros back to the
    precision of the format loses nothing. *)
Lemma shr_fexp_shift (m M : positive) (e n : Z) :
  normal m e -> 0 <= n -> Zpos M = Zpos m * 2 ^ n ->
  shr_fexp prec emax (Zpos M) (e - n) loc_Exact =
  ({| shr_m := Zpos m; shr_r := false; shr_s := false |}, e).
Proof.
  intros Hm Hn HM. pose proof (normal_digits m M e n Hm Hn HM) as HdM.
  destruct Hm as [Hd [Hlo Hhi]].
  unfold shr_fexp. cbn [Zdigits2 shr_record_of_loc]. rewrite HdM.
  replace (fexp prec emax (prec + n + (e - n)) - (e - n)) with n
    by (unfold fexp, SpecFloat.emin in *; lia).
  unfold shr. destruct n as [|n'|n']; [| |lia].
  - rewrite Z.pow_0_r, Z.mul_1_r in HM. injection HM as ->.
    now rewrite Z.sub_0_r.
  - assert (M = Pos.iter xO m n') as ->
        by (apply Pos2Z.inj; rewrite Zpos_iter_xO; exact HM).
    rewrite iter_shr_1_exact. f_equal. lia.
Qed.

Lemma binary_round_aux_exact (sx : bool) (m M : positive) (e n : Z) :
  normal m e -> 0 <= n -> Zpos M = Zpos m * 2 ^ n ->
  binary_round_aux prec emax sx (Zpos M) (e - n) loc_Exact = S754_finite sx m e.
Proof.
  intros Hm Hn HM. unfold binary_round_aux.
  rewrite (shr_fexp_shift m M e n Hm Hn HM).
  cbn [shr_m shr_r shr_s loc_of_shr_record round_nearest_even].
  pose proof (shr_fexp_shift m m e 0 Hm) as H0.
  rewrite Z.sub_0_r in H0. rewrite H0 by (rewrite ?Z.pow_0_r; lia).
  cbn [shr_m]. destruct Hm as [_ [_ Hhi]].
  now rewrite (proj2 (Z.leb_le _ _) Hhi).
Qed.

(** A mantissa with trailing zeros too many: rounding to the normal number
    of the same value is exact. *)
Lemma binary_round_down (sx : bool) (m M : positive) (e n : Z) :
  normal m e -> 0 <= n -> Zpos M = Zpos m * 2 ^ n ->
  binary_round prec emax sx M (e - n) = S754_finite sx m e.
Proof.
  intros Hm Hn HM. pose proof (normal_digits m M e n Hm Hn HM) as HdM.
  unfold binary_round. rewrite HdM.
  replace (fexp prec emax (prec + n + (e - n))) with e
    by (destruct Hm as [_ [Hlo _]]; unfold fexp, SpecFloat.emin in *; lia).
  unfold shl_align. replace (e - (e - n)) with n by lia.
  destruct n as [|n'|n']; [| |lia]; now apply binary_round_aux_exact.
Qed.

(** A mantissa shorter than the precision: padding it with zeros is exact. *)
Lemma binary_round_up (sx : bool) (m M : positive) (e n : Z) :
  normal m e -> 0 <= n -> Zpos m = Zpos M * 2 ^ n ->
  binary_round prec emax sx M (e + n) = S754_finite sx m e.
Proof.
  intros Hm Hn HM.
  assert (Zpos (digits2_pos M) = prec - n) as HdM.
  { apply digits2_pos_unique.
    pose proof (digits2_pos_bounds m) as Hb. destruct Hm as [Hd _].
    rewrite Hd, HM in Hb.
    assert (0 < 2 ^ n) by (apply Z.pow_pos_nonneg; lia).
    assert (n < prec).
    { destruct (Z.lt_ge_cases n prec) as [|Hge]; [assumption|exfalso].
      assert (2 ^ prec <= 2 ^ n) by (apply Z.pow_le_mono_r; lia).
      hide_pows. nia. }
    assert (2 ^ (prec - 1) = 2 ^ (prec - n - 1) * 2 ^ n) as Hlo
      by (rewrite <- Z.pow_add_r by lia; f_equal; lia).
    assert (2 ^ prec = 2 ^ (prec - n) * 2 ^ n) as Hhi
      by (rewrite <- Z.pow_add_r by lia; f_equal; lia).
    rewrite Hlo, Hhi in Hb. clear Hlo Hhi. hide_pows. nia. }
  unfold binary_round. rewrite HdM.
  replace (fexp prec emax (prec - n + (e + n))) with e
    by (destruct Hm as [_ [Hlo _]]; unfold fexp, SpecFloat.emin in *; lia).
  unfold shl_align. replace (e - (e + n)) with (- n) by lia.
  destruct n as [|n'|n']; [| |lia].
  - change (binary_round_aux prec emax sx (Zpos M) (e + 0) loc_Exact =
            S754_finite sx m e).
    pose proof (binary_round_aux_exact sx m M e 0 Hm) as H0.
    rewrite Z.sub_0_r in H0. rewrite Z.add_0_r. apply H0; [lia|].
    rewrite HM. lia.
  - change (binary_round_aux prec emax sx (Zpos (Pos.iter xO M n')) e loc_Exact =
            S754_finite sx m e).
    pose proof (binary_round_aux_exact sx m (Pos.iter xO M n') e 0 Hm) as H0.
    rewrite Z.sub_0_r in H0. apply H0; [lia|].
    rewrite Zpos_iter_xO, HM. lia.
Qed.

(** [binary_normalize] on an integer that is, up to the exponents, the
    mantissa of a normal number. *)
Lemma binary_normalize_down (s : bool) (m : positive) (e V E : Z) :
  normal m e -> E <= e -> V = cond_Zopp s (Zpos m) * 2 ^ (e - E) ->
  binary_normalize prec emax V E false = S754_finite s m e.
Proof.
  intros Hm HE HV.
  assert (0 < 2 ^ (e - E)) as Hpow by (apply Z.pow_pos_nonneg; lia).
  replace E with (e - (e - E)) at 1 by lia.
  destruct s; cbn [cond_Zopp] in HV.
  - destruct V as [|M|M]; [lia | lia |]. cbn [binary_normalize].
    apply binary_round_down; [assumption | lia | lia].
  - destruct V as [|M|M]; [lia | | lia]. cbn [binary_normalize].
    apply binary_round_down; [assumption | lia | lia].
Qed.

Lemma binary_normalize_up (s : bool) (m : positive) (e V E : Z) :
  normal m e -> e <= E -> cond_Zopp s (Zpos m) = V * 2 ^ (E - e) ->
  binary_normalize prec emax V E false = S754_finite s m e.
Proof.
  intros Hm HE HV.
  assert (0 < 2 ^ (E - e)) as Hpow by (apply Z.pow_pos_nonneg; lia).
  replace E with (e + (E - e)) at 1 by lia.
  destruct s; cbn [cond_Zopp] in HV.
  - destruct V as [|M|M]; [lia | lia |]. cbn [binary_normalize].
    apply binary_round_up; [assumption | lia | lia].
  - destruct V as [|M|M]; [lia | | lia]. cbn [binary_normalize].
    apply binary_round_up; [assumption | lia | lia].
Qed.

(** A non-zero integer of fewer digits than the precision normalises
    exactly. *)
Lemma binary_normalize_small (V E : Z) :
  V <> 0 -> Z.abs V < 2 ^ prec ->
  SpecFloat.emin prec emax + prec - 1 <= E <= emax - prec ->
  exists m e,
    normal m e /\ E - prec < e <= E /\
    cond_Zopp (V <? 0) (Zpos m) = V * 2 ^ (E - e) /\
    binary_normalize prec emax V E false = S754_finite (V <? 0) m e.
Proof.
  intros Hnz Hsmall HE. destruct Hfmt as [Hp Hemax].
  assert (exists a, Z.abs V = Zpos a) as [a Ha] by (destruct V; [lia|eauto..]).
  pose proof (digits2_pos_bounds a) as Hb.
  set (k := Zpos (digits2_pos a)) in *. assert (0 < k) by (subst k; lia).
  assert (k <= prec).
  { destruct (Z.le_gt_cases k prec) as [|Hgt]; [assumption|exfalso].
    assert (2 ^ prec <= 2 ^ (k - 1)) by (apply Z.pow_le_mono_r; lia).
    rewrite Ha in Hsmall. hide_pows. lia. }
  assert (0 < 2 ^ (prec - k)) as Hpow by (apply Z.pow_pos_nonneg; lia).
  set (m := Z.to_pos (Zpos a * 2 ^ (prec - k))).
  assert (Zpos m = Zpos a * 2 ^ (prec - k)) as Hm by (subst m; rewrite Z2Pos.id; lia).
  assert (normal m (E - (prec - k))) as Hnormal.
  { split; [|unfold SpecFloat.emin in *; lia].
    apply digits2_pos_unique. rewrite Hm.
    assert (2 ^ (prec - 1) = 2 ^ (k - 1) * 2 ^ (prec - k)) as ->
      by (rewrite <- Z.pow_add_r by lia; f_equal; lia).
    assert (2 ^ prec = 2 ^ k * 2 ^ (prec - k)) as ->
      by (rewrite <- Z.pow_add_r by lia; f_equal; lia).
    hide_pows. nia. }
  exists m, (E - (prec - k)).
  assert (cond_Zopp (V <? 0) (Zpos m) = V * 2 ^ (E - (E - (prec - k)))) as Hval.
  { replace (E - (E - (prec - k))) with (prec - k) by lia. rewrite Hm.
    destruct (Z.ltb_spec V 0); cbn [cond_Zopp]; lia. }
  split; [exact Hnormal|]. split; [lia|]. split; [exact Hval|].
  apply binary_normalize_up; [exact Hnormal | lia | exact Hval].
Qed.

Lemma pow2_mantissa_value : Zpos pow2_mantissa = 2 ^ (prec - 1).
Proof.
  destruct Hfmt as [Hp _]. unfold Rescale.pow2_mantissa.
  assert (0 < 2 ^ (prec - 1)) by (apply Z.pow_pos_nonneg; lia).
  rewrite Z2Pos.id; lia.
Qed.

Lemma pow2_normal (e : Z) :
  SpecFloat.emin prec emax <= e <= emax - prec -> normal pow2_mantissa e.
Proof.
  intros He. destruct Hfmt as [Hp _]. split; [|exact He].
  apply digits2_pos_unique. rewrite pow2_mantissa_value.
  assert (2 ^ prec = 2 * 2 ^ (prec - 1)) as ->
    by (rewrite <- Z.pow_succ_r by lia; f_equal; lia).
  assert (0 < 2 ^ (prec - 1)) by (apply Z.pow_pos_nonneg; lia). lia.
Qed.

Lemma of_scaled_pow2 (j : Z) :
  SpecFloat.emin prec emax <= j + 1 - prec -> j + 1 <= emax ->
  Rescale.of_scaled fmt 1 j = S754_finite false pow2_mantissa (j + 1 - prec).
Proof.
  intros Hlo Hhi. destruct Hfmt as [Hp _]. unfold Rescale.of_scaled.
  apply binary_normalize_up; [apply pow2_normal; lia | lia |].
  cbn [cond_Zopp]. rewrite pow2_mantissa_value, Z.mul_1_l. f_equal. lia.
Qed.

Lemma one_value : Rescale.one fmt = S754_finite false pow2_mantissa (1 - prec).
Proof.
  destruct Hfmt as [Hp He]. unfold Rescale.one.
  rewrite of_scaled_pow2; [f_equal; lia | unfold SpecFloat.emin; lia | lia].
Qed.

Lemma half_value : Rescale.half fmt = S754_finite false pow2_mantissa (- prec).
Proof.
  destruct Hfmt as [Hp He]. unfold Rescale.half.
  rewrite of_scaled_pow2; [f_equal; lia | unfold SpecFloat.emin; lia | lia].
Qed.

Lemma quarter_value :
  Rescale.quarter fmt = S754_finite false pow2_mantissa (- 1 - prec).
Proof.
  destruct Hfmt as [Hp He]. unfold Rescale.quarter.
  rewrite of_scaled_pow2; [f_equal; lia | unfold SpecFloat.emin; lia | lia].
Qed.

Lemma two_value : Rescale.two fmt = S754_finite false pow2_mantissa (2 - prec).
Proof.
  destruct Hfmt as [Hp He]. unfold Rescale.two, Rescale.of_scaled.
  apply binary_normalize_up;
    [apply pow2_normal; unfold SpecFloat.emin; lia | lia |].
  cbn [cond_Zopp]. rewrite pow2_mantissa_value.
  replace (0 - (2 - prec)) with (prec - 2) by lia.
  rewrite <- Z.pow_succ_r by lia. f_equal. lia.
Qed.

(** Doubling and halving a normal number only moves its exponent. *)
Lemma SFmul_two (s : bool) (m : positive) (e : Z) :
  normal m (e + 1) ->
  SFmul prec emax (S754_finite s m e) (Rescale.two fmt) = S754_finite s m (e + 1).
Proof.
  intros Hm. destruct Hfmt as [Hp He]. rewrite two_value. cbn [SFmul].
  rewrite xorb_false_r.
  replace (e + (2 - prec)) with (e + 1 - (prec - 1)) by lia.
  apply binary_round_aux_exact; [exact Hm | lia |].
  now rewrite Pos2Z.inj_mul, pow2_mantissa_value.
Qed.

Lemma SFdiv_two (s : bool) (m : positive) (e : Z) :
  normal m e -> SpecFloat.emin prec emax + 2 <= e ->
  SFdiv prec emax (S754_finite s m e) (Rescale.two fmt) = S754_finite s m (e - 1).
Proof.
  intros Hm Hlo. destruct Hfmt as [Hp He]. rewrite two_value. cbn [SFdiv].
  rewrite xorb_false_r. unfold SFdiv_core_binary. cbn [Zdigits2].
  destruct (pow2_normal (2 - prec)) as [Hd2 _]; [unfold SpecFloat.emin; lia|].
  destruct Hm as [Hd [Hmin Hmax]]. rewrite Hd, Hd2.
  replace (Z.min (fexp prec emax (prec + e - (prec + (2 - prec))))
             (e - (2 - prec))) with (e - 2)
    by (unfold fexp, SpecFloat.emin in *; lia).
  replace (e - (2 - prec) - (e - 2)) with prec by lia.
  assert (match prec with
          | 0 => Zpos m
          | Zpos _ => Z.shiftl (Zpos m) prec
          | Zneg _ => 0
          end = Zpos m * 2 ^ prec) as ->.
  { destruct (Rescale.prec fmt) as [|p|p] eqn:Hprec; [lia| |lia].
    apply Z.shiftl_mul_pow2. lia. }
  assert (0 < 2 ^ (prec - 1)) as Hpow by (apply Z.pow_pos_nonneg; lia).
  assert (Zpos m * 2 ^ prec = (Zpos m * 2) * Zpos pow2_mantissa) as Hsplit.
  { rewrite pow2_mantissa_value.
    assert (2 ^ prec = 2 * 2 ^ (prec - 1)) as ->
      by (rewrite <- Z.pow_succ_r by lia; f_equal; lia). lia. }
  destruct (Z.div_eucl (Zpos m * 2 ^ prec) (Zpos pow2_mantissa)) as [q r] eqn:Hdiv.
  assert (q = Zpos m * 2) as ->.
  { change q with (fst (q, r)). rewrite <- Hdiv, Hsplit.
    apply (Z.div_mul (Zpos m * 2) (Zpos pow2_mantissa)). lia. }
  assert (r = 0) as ->.
  { change r with (snd (Zpos m * 2, r)). rewrite <- Hdiv, Hsplit.
    apply (Z.mod_mul (Zpos m * 2) (Zpos pow2_mantissa)). lia. }
  assert (new_location (Zpos pow2_mantissa) 0 = loc_Exact) as ->.
  { unfold new_location, new_location_even, new_location_odd.
    now destruct (Z.even _). }
  replace (e - 2) with (e - 1 - 1) by lia.
  change (Zpos m * 2) with (Zpos (m * 2)).
  apply binary_round_aux_exact; [split; [exact Hd | lia] | lia |].
  rewrite Pos2Z.inj_mul. reflexivity.
Qed.

(** Aligning a mantissa to a smaller exponent multiplies it by a power of
    two. *)
Lemma shl_align_fst (m : positive) (e e' : Z) :
  e' <= e -> Zpos (fst (shl_align m e e')) = Zpos m * 2 ^ (e - e').
Proof.
  intros He. unfold shl_align. destruct (e' - e) as [|d|d] eqn:Hd; cbn [fst].
  - replace (e - e') with 0 by lia. lia.
  - lia.
  - rewrite Zpos_iter_xO. f_equal. f_equal. lia.
Qed.

Lemma SFadd_finite (sx sy : bool) (mx my : positive) (ex ey : Z) :
  SFadd prec emax (S754_finite sx mx ex) (S754_finite sy my ey) =
  binary_normalize prec emax
    (cond_Zopp sx (Zpos mx * 2 ^ (ex - Z.min ex ey)) +
     cond_Zopp sy (Zpos my * 2 ^ (ey - Z.min ex ey))) (Z.min ex ey) false.
Proof.
  cbn [SFadd]. now rewrite !shl_align_fst by lia.
Qed.

Lemma SFsub_finite (sx sy : bool) (mx my : positive) (ex ey : Z) :
  SFsub prec emax (S754_finite sx mx ex) (S754_finite sy my ey) =
  binary_normalize prec emax
    (cond_Zopp sx (Zpos mx * 2 ^ (ex - Z.min ex ey)) -
     cond_Zopp sy (Zpos my * 2 ^ (ey - Z.min ex ey))) (Z.min ex ey) false.
Proof.
  cbn [SFsub]. now rewrite !shl_align_fst by lia.
Qed.

(** ** The two round trips, where nothing rounds *)

Lemma pow2_mantissa_bounds (m : positive) (e : Z) :
  normal m e -> Zpos pow2_mantissa <= Zpos m < 2 * Zpos pow2_mantissa.
Proof.
  intros [Hd _]. destruct Hfmt as [Hp _].
  pose proof (digits2_pos_bounds m) as Hb. rewrite Hd in Hb.
  rewrite pow2_mantissa_value.
  assert (2 ^ prec = 2 * 2 ^ (prec - 1)) as Hpow
    by (rewrite <- Z.pow_succ_r by lia; f_equal; lia).
  rewrite Hpow in Hb. exact Hb.
Qed.

Lemma pow2_mantissa_double : 2 ^ prec = 2 * Zpos pow2_mantissa.
Proof.
  destruct Hfmt as [Hp _]. rewrite pow2_mantissa_value.
  rewrite <- Z.pow_succ_r by lia. f_equal. lia.
Qed.

(** [x * 2 - 1], then [(y + 1) / 2], on a normal [x] with
    [0.25 <= x <= 1]. *)
Lemma inverse_of_rescale_exact (m : positive) (e : Z) :
  normal m e ->
  e = - 1 - prec \/ e = - prec \/ e = 1 - prec /\ m = pow2_mantissa ->
  Rescale.rescale_inverse fmt (Rescale.rescale fmt (S754_finite false m e)) =
  S754_finite false m e.
Proof.
  intros Hm He. pose proof Hfmt as [Hp Hemax].
  pose proof (pow2_mantissa_bounds m e Hm) as Hb.
  pose proof pow2_mantissa_double as Hdouble.
  assert (normal m (e + 1)) as Hm1.
  { destruct Hm as [Hd [Hlo Hhi]]. split; [exact Hd|].
    unfold SpecFloat.emin in *. lia. }
  unfold Rescale.rescale. rewrite (SFmul_two false m e Hm1), one_value, SFsub_finite.
  cbn [cond_Zopp].
  set (ez := Z.min (e + 1) (1 - prec)).
  set (V := Zpos m * 2 ^ (e + 1 - ez) - Zpos pow2_mantissa * 2 ^ (1 - prec - ez)).
  assert (V = Zpos m - 2 * Zpos pow2_mantissa /\ e = - 1 - prec /\ ez = - prec \/
          V = Zpos m - Zpos pow2_mantissa /\ e = - prec /\ ez = 1 - prec \/
          V = Zpos pow2_mantissa /\ e = 1 - prec /\ ez = 1 - prec /\
          m = pow2_mantissa) as Hcase.
  { subst V ez. destruct He as [->|[->|[-> ->]]].
    - left. rewrite Z.min_l by lia.
      replace (- 1 - prec + 1 - (- 1 - prec + 1)) with 0 by lia.
      replace (1 - prec - (- 1 - prec + 1)) with 1 by lia.
      repeat split; rewrite ?Z.pow_0_r, ?Z.pow_1_r; lia.
    - right. left. rewrite Z.min_l by lia.
      replace (- prec + 1 - (- prec + 1)) with 0 by lia.
      replace (1 - prec - (- prec + 1)) with 0 by lia.
      repeat split; rewrite ?Z.pow_0_r, ?Z.pow_1_r; lia.
    - right. right. rewrite Z.min_r by lia.
      replace (1 - prec + 1 - (1 - prec)) with 1 by lia.
      replace (1 - prec - (1 - prec)) with 0 by lia.
      repeat split; rewrite ?Z.pow_0_r, ?Z.pow_1_r; lia. }
  clearbody V ez.
  destruct (Z.eq_dec V 0) as [Hzero|Hnz].
  - (* [x = 0.5]: the rescale is [0] *)
    assert (e = - prec /\ m = pow2_mantissa) as [-> ->].
    { destruct Hcase as [(-> & _)|[(-> & -> & _)|(-> & _)]]; lia. }
    rewrite Hzero. cbn [binary_normalize].
    unfold Rescale.rescale_inverse. rewrite one_value. cbn [SFadd].
    rewrite SFdiv_two; [f_equal; lia | | unfold SpecFloat.emin; lia].
    apply pow2_normal. unfold SpecFloat.emin. lia.
  - destruct (binary_normalize_small V ez) as (m2 & e2 & Hm2 & He2 & Hval & ->).
    { exact Hnz. }
    { rewrite Hdouble. destruct Hcase as [(-> & _)|[(-> & _)|(-> & _)]]; lia. }
    { unfold SpecFloat.emin.
      destruct Hcase as [(_ & _ & ->)|[(_ & _ & ->)|(_ & _ & -> & _)]]; lia. }
    assert (ez <= 1 - prec)
      by (destruct Hcase as [(_ & _ & ->)|[(_ & _ & ->)|(_ & _ & -> & _)]]; lia).
    unfold Rescale.rescale_inverse. rewrite one_value, SFadd_finite.
    rewrite Z.min_l by lia. replace (e2 - e2) with 0 by lia.
    change (2 ^ 0) with 1. rewrite Z.mul_1_r, Hval. cbn [cond_Zopp].
    rewrite (binary_normalize_down false m (e + 1)).
    + rewrite SFdiv_two; [f_equal; lia | exact Hm1 |].
      unfold SpecFloat.emin. destruct He as [->|[->|[-> _]]]; lia.
    + exact Hm1.
    + destruct Hcase as [(_ & -> & ->)|[(_ & -> & ->)|(_ & -> & -> & _)]]; lia.
    + cbn [cond_Zopp].
      assert (0 <= ez - e2) as Hge by lia.
      destruct Hcase as [(-> & -> & ->)|[(-> & -> & ->)|(-> & -> & -> & ->)]].
      * replace (1 - prec - e2) with (1 + (- prec - e2)) by lia.
        replace (- 1 - prec + 1 - e2) with (- prec - e2) by lia.
        rewrite Z.pow_add_r by lia. change (2 ^ 1) with 2. ring.
      * replace (- prec + 1 - e2) with (1 - prec - e2) by lia. ring.
      * replace (1 - prec + 1 - e2) with (1 + (1 - prec - e2)) by lia.
        rewrite Z.pow_add_r by lia. change (2 ^ 1) with 2. ring.
Qed.

(** [(x + 1) / 2], then [y * 2 - 1], on a normal [x] with
    [-1 <= x <= -0.5]. *)
Lemma rescale_of_inverse_exact (m : positive) (e : Z) :
  normal m e ->
  e = - prec \/ e = 1 - prec /\ m = pow2_mantissa ->
  Rescale.rescale fmt (Rescale.rescale_inverse fmt (S754_finite true m e)) =
  S754_finite true m e.
Proof.
  intros Hm He. pose proof Hfmt as [Hp Hemax].
  pose proof (pow2_mantissa_bounds m e Hm) as Hb.
  pose proof pow2_mantissa_double as Hdouble.
  unfold Rescale.rescale_inverse. rewrite one_value, SFadd_finite.
  rewrite Z.min_l by (destruct He as [->|[-> _]]; lia).
  replace (e - e) with 0 by lia. change (2 ^ 0) with 1. rewrite Z.mul_1_r.
  cbn [cond_Zopp].
  set (V := - Zpos m + Zpos pow2_mantissa * 2 ^ (1 - prec - e)).
  assert (V = 2 * Zpos pow2_mantissa - Zpos m /\ e = - prec \/
          V = 0 /\ e = 1 - prec /\ m = pow2_mantissa) as Hcase.
  { subst V. destruct He as [->|[-> ->]].
    - left. replace (1 - prec - - prec) with 1 by lia. change (2 ^ 1) with 2. lia.
    - right. replace (1 - prec - (1 - prec)) with 0 by lia. change (2 ^ 0) with 1.
      lia. }
  clearbody V.
  destruct Hcase as [(HV & ->)|(-> & -> & ->)].
  - destruct (binary_normalize_small V (- prec)) as (m2 & e2 & Hm2 & He2 & Hval & ->).
    { lia. }
    { rewrite Hdouble. lia. }
    { unfold SpecFloat.emin. lia. }
    assert ((V <? 0) = false) as Hpos by (apply Z.ltb_ge; lia).
    rewrite Hpos in *. cbn [cond_Zopp] in Hval.
    rewrite SFdiv_two; [|exact Hm2 | unfold SpecFloat.emin; lia].
    unfold Rescale.rescale.
    assert (normal m2 (e2 - 1 + 1)) as Hm2' by (replace (e2 - 1 + 1) with e2 by lia; exact Hm2).
    rewrite (SFmul_two false m2 (e2 - 1) Hm2'), one_value, SFsub_finite.
    replace (e2 - 1 + 1) with e2 by lia.
    rewrite Z.min_l by lia. replace (e2 - e2) with 0 by lia.
    change (2 ^ 0) with 1. rewrite Z.mul_1_r. cbn [cond_Zopp].
    apply binary_normalize_down; [exact Hm | lia |].
    cbn [cond_Zopp]. rewrite Hval, HV.
    replace (1 - prec - e2) with (1 + (- prec - e2)) by lia.
    rewrite Z.pow_add_r by lia. change (2 ^ 1) with 2. ring.
  - cbn [binary_normalize]. rewrite two_value. cbn [SFdiv xorb].
    unfold Rescale.rescale. rewrite two_value. cbn [SFmul xorb].
    rewrite one_value. reflexivity.
Qed.

(** A valid finite number whose exponent lies above the smallest one is
    normal. *)
Lemma valid_normal (s : bool) (m : positive) (e : Z) :
  valid_binary prec emax (S754_finite s m e) = true ->
  SpecFloat.emin prec emax < e -> normal m e.
Proof.
  cbn [valid_binary]. unfold bounded, canonical_mantissa.
  intros [Hcan Hmax]%andb_true_iff Hlo.
  apply Z.eqb_eq in Hcan. apply Z.leb_le in Hmax.
  unfold fexp in Hcan. split; lia.
Qed.

(** The valid numbers between [0.25] and [1]. *)
Lemma upper_range_shape (x : spec_float) :
  valid_binary prec emax x = true ->
  SFleb (Rescale.quarter fmt) x = true ->
  SFleb x (Rescale.one fmt) = true ->
  exists m e,
    x = S754_finite false m e /\ normal m e /\
    (e = - 1 - prec \/ e = - prec \/ e = 1 - prec /\ m = pow2_mantissa).
Proof.
  intros Hvalid. rewrite quarter_value, one_value. pose proof Hfmt as [Hp Hemax].
  unfold SFleb, SFcompare.
  destruct x as [s|s| |s m e]; try discriminate; try (destruct s; discriminate).
  destruct s; try discriminate.
  change (Pos.compare_cont Eq pow2_mantissa m) with (Pos.compare pow2_mantissa m).
  change (Pos.compare_cont Eq m pow2_mantissa) with (Pos.compare m pow2_mantissa).
  intros Hlo Hhi.
  assert (- 1 - prec <= e) as He1.
  { destruct (Z.compare_spec (- 1 - prec) e); [lia | lia | discriminate]. }
  assert (e <= 1 - prec) as He2.
  { destruct (Z.compare_spec e (1 - prec)); [lia | lia | discriminate]. }
  assert (normal m e) as Hm
    by (apply (valid_normal false); [exact Hvalid | unfold SpecFloat.emin; lia]).
  pose proof (pow2_mantissa_bounds m e Hm) as Hb.
  exists m, e. split; [reflexivity|]. split; [exact Hm|].
  destruct (Z.eq_dec e (1 - prec)) as [->|Hne].
  - right. right. split; [reflexivity|].
    rewrite Z.compare_refl in Hhi.
    destruct (Pos.compare_spec m pow2_mantissa); [assumption | lia | discriminate].
  - destruct Hm as [_ [Hmin _]]. lia.
Qed.

(** The valid numbers between [-1] and [-0.5]. *)
Lemma lower_range_shape (x : spec_float) :
  valid_binary prec emax x = true ->
  SFleb (SFopp (Rescale.one fmt)) x = true ->
  SFleb x (SFopp (Rescale.half fmt)) = true ->
  exists m e,
    x = S754_finite true m e /\ normal m e /\
    (e = - prec \/ e = 1 - prec /\ m = pow2_mantissa).
Proof.
  intros Hvalid. rewrite half_value, one_value. pose proof Hfmt as [Hp Hemax].
  unfold SFleb, SFcompare, SFopp. cbn [negb].
  destruct x as [s|s| |s m e]; try discriminate; try (destruct s; discriminate).
  destruct s; try discriminate.
  change (Pos.compare_cont Eq pow2_mantissa m) with (Pos.compare pow2_mantissa m).
  change (Pos.compare_cont Eq m pow2_mantissa) with (Pos.compare m pow2_mantissa).
  intros Hlo Hhi.
  assert (e <= 1 - prec) as He1.
  { destruct (Z.compare_spec (1 - prec) e); [lia | discriminate | lia]. }
  assert (- prec <= e) as He2.
  { destruct (Z.compare_spec e (- prec)); [lia | discriminate | lia]. }
  assert (normal m e) as Hm
    by (apply (valid_normal true); [exact Hvalid | unfold SpecFloat.emin; lia]).
  pose proof (pow2_mantissa_bounds m e Hm) as Hb.
  exists m, e. split; [reflexivity|]. split; [exact Hm|].
  destruct (Z.eq_dec e (1 - prec)) as [->|Hne].
  - right. split; [reflexivity|].
    rewrite Z.compare_refl in Hlo.
    destruct (Pos.compare_spec pow2_mantissa m); [auto | discriminate | lia].
  - left. lia.
Qed.

End Exact.

(** C9 (as stated) fails in the arithmetic of the tensors: in binary32,
    binary64 and binary16 alike there is an [x] in [[-1, 1]] that neither
    round trip gives back (both return 0). *)
Lemma c9_float_round_trip_inexact :
  let x32 := Rescale.of_scaled Rescale.binary32 1 (-30) in
  let x64 := Rescale.of_scaled Rescale.binary64 1 (-60) in
  let x16 := Rescale.of_scaled Rescale.binary16 1 (-13) in
  (Rescale.in_unit_range Rescale.binary32 x32 = true /\
   SFeqb (Rescale.rescale Rescale.binary32
            (Rescale.rescale_inverse Rescale.binary32 x32)) x32 = false /\
   SFeqb (Rescale.rescale_inverse Rescale.binary32
            (Rescale.rescale Rescale.binary32 x32)) x32 = false) /\
  (Rescale.in_unit_range Rescale.binary64 x64 = true /\
   SFeqb (Rescale.rescale Rescale.binary64
            (Rescale.rescale_inverse Rescale.binary64 x64)) x64 = false /\
   SFeqb (Rescale.rescale_inverse Rescale.binary64
            (Rescale.rescale Rescale.binary64 x64)) x64 = false) /\
  (Rescale.in_unit_range Rescale.binary16 x16 = true /\
   SFeqb (Rescale.rescale Rescale.binary16
            (Rescale.rescale_inverse Rescale.binary16 x16)) x16 = false /\
   SFeqb (Rescale.rescale_inverse Rescale.binary16
            (Rescale.rescale Rescale.binary16 x16)) x16 = false).
Proof. vm_compute. repeat split. Qed.

(** C9 (amended). In the floating-point arithmetic of the tensors the two
    maps undo each other exactly where no operation rounds: for every
    number [x] of the format with [0.25 <= x <= 1], [(x * 2 - 1 + 1) / 2]
    is [x]; for every [x] with [-1 <= x <= -0.5], [(x + 1) / 2 * 2 - 1] is
    [x]. *)
Theorem c9_round_trip_exact_without_rounding (fmt : Rescale.Format)
    (x : spec_float) :
  Rescale.format_ok fmt ->
  valid_binary (Rescale.prec fmt) (Rescale.emax fmt) x = true ->
  (SFleb (Rescale.quarter fmt) x = true ->
   SFleb x (Rescale.one fmt) = true ->
   Rescale.rescale_inverse fmt (Rescale.rescale fmt x) = x) /\
  (SFleb (SFopp (Rescale.one fmt)) x = true ->
   SFleb x (SFopp (Rescale.half fmt)) = true ->
   Rescale.rescale fmt (Rescale.rescale_inverse fmt x) = x).
Proof.
  intros Hfmt Hvalid. split; intros Hlo Hhi.
  - destruct (upper_range_shape fmt Hfmt x Hvalid Hlo Hhi) as (m & e & -> & Hm & He).
    now apply inverse_of_rescale_exact.
  - destruct (lower_range_shape fmt Hfmt x Hvalid Hlo Hhi) as (m & e & -> & Hm & He).
    now apply rescale_of_inverse_exact.
Qed.

Lemma c9_round_trip_exact_without_rounding_witness :
  let x := Rescale.of_scaled Rescale.binary32 3 (-2) in
  let y := SFopp x in
  Rescale.rescale_inverse Rescale.binary32 (Rescale.rescale Rescale.binary32 x) = x /\
  Rescale.rescale Rescale.binary32 (Rescale.rescale_inverse Rescale.binary32 y) = y.
Proof.
  intros x y. split.
  - apply (proj1 (c9_round_trip_exact_without_rounding Rescale.binary32 x
                    ltac:(split; vm_compute; discriminate)
                    ltac:(vm_compute; reflexivity)));
      vm_compute; reflexivity.
  - apply (proj2 (c9_round_trip_exact_without_rounding Rescale.binary32 y
                    ltac:(split; vm_compute; discriminate)
                    ltac:(vm_compute; reflexivity)));
      vm_compute; reflexivity.
Defined.

End Binary.
